(** * FLIP.js: a shallow embedding of the FLIP animation helper

The development follows [src/core.js] (the [FLIP] class: player
registry, group coordinator, instance methods) and the two playback
strategies whose behaviour is specified, the [requestAnimationFrame]
player and the GSAP player.  It goes on to the CSS transition player and
to the click handler of the GSAP demo page.

- JavaScript numbers are IEEE 754 binary64 values: Rocq's primitive
  floats, with [NaN], signed zeros and infinities.
- The browser is an external collaborator.  Every call the library
  makes on it (class list mutation, geometry and style queries, inline
  style assignment, event dispatch, frame scheduling, tween creation)
  is appended to a history; what the browser answers to a query is a
  function of that history.
- Methods run in a state-and-exception monad: a [throw] keeps the state
  reached at the point of the throw, as a JavaScript exception does. *)

From Stdlib Require Import Floats ZArith.
From stdpp Require Import gmap strings list.

Set Default Proof Using "Type".

(** ** JavaScript values and errors *)

Module JS.

(** The values the library inspects with [typeof] or property access.
    A function value is an easing function, from a number to a number; an
    object is given by the properties that can be read from it, own or
    inherited. *)
#[warnings="-register-all"]
Inductive Val :=
| VUndefined
| VNull
| VBoolean (b : bool)
| VNumber (n : float)
| VString (s : string)
| VFunction (f : float → float)
| VObject (props : list (string * Val)).

Definition typeof (v : Val) : string :=
  match v with
  | VUndefined => "undefined"
  | VNull => "object"
  | VBoolean _ => "boolean"
  | VNumber _ => "number"
  | VString _ => "string"
  | VFunction _ => "function"
  | VObject _ => "object"
  end.

Inductive Exn :=
| Error (message : string)
| TypeError (message : string)
| ReferenceError (message : string)
| DOMException (name : string).

Fixpoint assoc (props : list (string * Val)) (key : string) : Val :=
  match props with
  | [] => VUndefined
  | (k, v) :: rest => if String.eqb k key then v else assoc rest key
  end.

(** [v.key] for a key that no built-in prototype defines (such as
    [getRatio]): a [TypeError] on [undefined] and [null], the property of
    an object, [undefined] on primitives and functions. *)
Definition get (v : Val) (key : string) : Exn + Val :=
  match v with
  | VUndefined =>
      inl (TypeError ("Cannot read property '" +:+ key +:+ "' of undefined"))
  | VNull =>
      inl (TypeError ("Cannot read property '" +:+ key +:+ "' of null"))
  | VObject props => inr (assoc props key)
  | _ => inr VUndefined
  end.

(** [Math.max] and [Math.min] on two arguments: [NaN] if either argument
    is [NaN]; [+0] is larger than [-0]. *)
Definition is_neg_zero (a : float) : bool :=
  match PrimFloat.classify a with NZero => true | _ => false end.

Definition Math_max (a b : float) : float :=
  if PrimFloat.is_nan a || PrimFloat.is_nan b then PrimFloat.nan
  else if PrimFloat.ltb a b then b
  else if PrimFloat.ltb b a then a
  else if is_neg_zero a then b else a.

Definition Math_min (a b : float) : float :=
  if PrimFloat.is_nan a || PrimFloat.is_nan b then PrimFloat.nan
  else if PrimFloat.ltb a b then a
  else if PrimFloat.ltb b a then b
  else if is_neg_zero a then a else b.

(** Truthiness of a number: [0], [-0] and [NaN] are falsy. *)
Definition truthy (n : float) : bool :=
  negb (PrimFloat.is_nan n || PrimFloat.eqb n 0%float).

End JS.

Export JS (Val(..), Exn(..)).

(** ** The state-and-exception monad *)

Inductive Outcome (A : Type) :=
| Ok (a : A)
| Throw (e : JS.Exn).
Arguments Ok {A} a.
Arguments Throw {A} e.

Definition M (St A : Type) : Type := St → Outcome A * St.

Global Instance M_ret {St} : MRet (M St) := λ A a s, (Ok a, s).
Global Instance M_bind {St} : MBind (M St) := λ A B k m s,
  match m s with
  | (Ok a, s') => k a s'
  | (Throw e, s') => (Throw e, s')
  end.

Definition throw {St A} (e : JS.Exn) : M St A := λ s, (Throw e, s).

(** [array.forEach(fn)] over an array of mutable objects: [fn] receives the
    index and works on the object and the shared state, both of which it may
    mutate.  An exception stops the iteration. *)
Fixpoint forEach {A St} (fn : nat → M (A * St) unit) (index : nat)
    (array : list A) (s : St) : Outcome unit * (list A * St) :=
  match array with
  | [] => (Ok tt, ([], s))
  | a :: rest =>
      match fn index (a, s) with
      | (Ok _, (a', s')) =>
          let '(r, (rest', s'')) := forEach fn (S index) rest s' in
          (r, (a' :: rest', s''))
      | (Throw e, (a', s')) => (Throw e, (a' :: rest, s'))
      end
  end.

(** ** The host: document, clock, frame scheduler and tween engines *)

Module Host.

(** A reference to an element of the document. *)
Definition elem := nat.

(** The part of a [DOMRect] the library reads. *)
Record DOMRect := {
  left : float;
  top : float;
  width : float;
  height : float
}.

(** A value assigned to a property of [element.style].  The template
    literal [`translate(${x}px, ${y}px) scale(${sx}, ${sy})`] is kept as
    its four interpolated numbers. *)
Inductive StyleValue :=
| SVNull
| SVString (s : string)
| SVNumber (n : float)
| SVTransform (x y sx sy : float).

(** [new CustomEvent(type, { detail, bubbles, cancelable })]. *)
Record CustomEvent := {
  type : string;
  detail : Val;
  bubbles : bool;
  cancelable : bool
}.

(** The functions a player object carries.  Those of the two players
    that run on the state of the class are named.  Any other function is
    foreign to that state and identified by a number: a function of a
    player written by the embedder, or that of the CSS transition player,
    which needs event listeners and has a state of its own ([CSS]
    below). *)
Inductive PlayerFn :=
| rAF_play_
| rAF_update_
| GSAP_play_
| Foreign (id : nat).

(** A library function handed to the host, bound to the instance. *)
Inductive Callback :=
| BoundPlayerFn (fn : PlayerFn)
| Bound_cleanUpAndFireEvent_.

Inductive TweenEngine := TweenMax | TweenLite.

(** The options object the GSAP player builds. *)
Record TweenOptions := {
  ease : Val;
  onComplete : Callback;
  scaleX : option float;
  scaleY : option float;
  x : option float;
  y : option float;
  opacity : option float
}.

(** The calls the library makes on the host. *)
Inductive Call :=
| ClassListAdd (el : elem) (token : string)
| ClassListRemove (el : elem) (token : string)
| GetBoundingClientRect (el : elem)
| GetComputedStyle (el : elem)
| StyleSet (el : elem) (property : string) (value : StyleValue)
| DispatchEvent (el : elem) (evt : CustomEvent)
| RequestAnimationFrame (cb : Callback)
| NewTween (engine : TweenEngine) (el : elem) (duration : float)
    (options : TweenOptions)
| TweenStartTime (time : float)
| CallForeign (id : nat) (startTime : option float).

(** The host as the library sees it: the calls made so far (oldest
    first), the clock read by [window.performance.now()], and which of the
    globals [TweenMax] and [TweenLite] are defined. *)
Record World := {
  history : list Call;
  now : float;
  hasTweenMax : bool;
  hasTweenLite : bool
}.

(** The host after the library has made the calls [cs]. *)
Definition records (cs : list Call) (w : World) : World :=
  {| history := history w ++ cs; now := now w;
     hasTweenMax := hasTweenMax w; hasTweenLite := hasTweenLite w |}.

Definition record (c : Call) (w : World) : World := records [c] w.

(** The host when its clock shows [time]. *)
Definition at_time (time : float) (w : World) : World :=
  {| history := history w; now := time;
     hasTweenMax := hasTweenMax w; hasTweenLite := hasTweenLite w |}.

(** ASCII whitespace of the DOM standard: tab, line feed, form feed,
    carriage return, space. *)
Definition is_ascii_whitespace (c : Ascii.ascii) : bool :=
  let n := Ascii.nat_of_ascii c in
  Nat.eqb n 9 || Nat.eqb n 10 || Nat.eqb n 12 || Nat.eqb n 13 || Nat.eqb n 32.

Fixpoint has_ascii_whitespace (s : string) : bool :=
  match s with
  | EmptyString => false
  | String c rest => is_ascii_whitespace c || has_ascii_whitespace rest
  end.

(** The validation steps of [DOMTokenList.add] and [DOMTokenList.remove]:
    a [SyntaxError] on the empty token, an [InvalidCharacterError] on a
    token that contains whitespace. *)
Definition validate_token (token : string) : option JS.Exn :=
  if String.eqb token "" then Some (DOMException "SyntaxError")
  else if has_ascii_whitespace token
       then Some (DOMException "InvalidCharacterError")
       else None.

(** The last value assigned to [el.style[property]] in a history. *)
Fixpoint inline_style (h : list Call) (el : elem) (property : string)
    (before : option StyleValue) : option StyleValue :=
  match h with
  | [] => before
  | StyleSet el' p v :: rest =>
      if Nat.eqb el' el && String.eqb p property
      then inline_style rest el property (Some v)
      else inline_style rest el property before
  | _ :: rest => inline_style rest el property before
  end.

End Host.

Export Host (elem, DOMRect, StyleValue(..), CustomEvent, PlayerFn(..),
             Callback(..), TweenEngine(..), TweenOptions, Call(..), World).

(** ** [src/core.js]: the [FLIP] class *)

(** The configuration object given to the constructor, property by
    property, as [Object.assign({}, defaults, options)] reads it.  [None]
    is a property that [options] does not have: the default stays.
    [Some v] is a property that [options] has: it replaces the default
    whatever its value is, [undefined] included, and [v] is that value as
    the code uses it.

    - [element]: the constructor only asks whether [typeof config.element]
      is ['undefined'], so a property that is present with the value
      [undefined] is [None] as well.
    - [easing]: the value itself; [{ easing: undefined }] is
      [Some VUndefined].
    - [play]: the value is used as a property key of [FLIP.players_] and
      in the template string of the error message, both of which take its
      string: [Some s] is a value whose string is [s], and
      [{ play: undefined }] is [Some "undefined"].
    - [duration], [delay]: the class stores the value and the players do
      arithmetic with it: [Some n] is a value whose number is [n], and
      [{ duration: undefined }] is [Some nan].
    - [transform], [opacity]: the class stores the value and every use
      tests its truth: [Some b] is a value whose truth is [b], and
      [{ transform: undefined }] is [Some false]. *)
Module Config.

Record Options := {
  element : option elem;
  duration : option float;
  delay : option float;
  easing : option Val;
  transform : option bool;
  opacity : option bool;
  play : option string
}.

End Config.

Module FLIP.

(** *** The player registry, [FLIP.players_] *)

(** A player object: its own enumerable properties, each a function.  A
    player is an ordinary object: none of its own properties is named
    ["__proto__"] (an object literal cannot create one). *)
Definition Player : Type := gmap string PlayerFn.

(** [FLIP.players_] is a plain object used as a map.  Its own properties
    are the registered players; an assignment to the key ["__proto__"]
    goes to the accessor inherited from [Object.prototype] and replaces
    the prototype of the object instead of creating an own property. *)
Record Registry := {
  own : gmap string Player;
  proto : option Player
}.

(** The class-level state: [FLIP.players_] ([None] while it is
    [undefined]) and the warnings sent to the console. *)
Record Statics := {
  players_ : option Registry;
  warnings : list string
}.

(** What [FLIP.players_[name]] evaluates to when it is not [undefined]:
    a registered player, or a value inherited through the prototype chain
    (a function, or [Object.prototype] itself), which has no enumerable
    own property. *)
Inductive Entry :=
| Registered (player : Player)
| Inherited.

(** The property names every plain object inherits from
    [Object.prototype] (["__proto__"] is handled by [lookup]). *)
Definition Object_prototype_names : list string :=
  [ "constructor"; "hasOwnProperty"; "isPrototypeOf";
    "propertyIsEnumerable"; "toLocaleString"; "toString"; "valueOf";
    "__defineGetter__"; "__defineSetter__"; "__lookupGetter__";
    "__lookupSetter__" ].

Definition in_Object_prototype (name : string) : bool :=
  existsb (String.eqb name) Object_prototype_names.

(** [registry[name]]: [None] is [undefined]. *)
Definition lookup (registry : Registry) (name : string) : option Entry :=
  match own registry !! name with
  | Some player => Some (Registered player)
  | None =>
      if String.eqb name "__proto__" then
        match proto registry with
        | Some player => Some (Registered player)
        | None => Some Inherited
        end
      else
        match proto registry with
        | Some player =>
            match player !! name with
            | Some _ => Some Inherited
            | None =>
                if in_Object_prototype name then Some Inherited else None
            end
        | None => if in_Object_prototype name then Some Inherited else None
        end
  end.

(** [registry[name] = player]. *)
Definition assign (registry : Registry) (name : string) (player : Player)
    : Registry :=
  if String.eqb name "__proto__"
  then {| own := own registry; proto := Some player |}
  else {| own := <[name := player]> (own registry); proto := proto registry |}.

Definition empty_registry : Registry := {| own := ∅; proto := None |}.

Definition extend (name : string) (player : Player) (statics : Statics)
    : Statics :=
  let registry :=
    match players_ statics with
    | None => empty_registry
    | Some registry => registry
    end in
  let warn1 :=
    match lookup registry name with
    | Some _ => ["Player with name " +:+ name +:+ " already exists"]
    | None => []
    end in
  let warn2 :=
    match player !! "play_" with
    | None => ["Player does not contain a play_() function"]
    | Some _ => []
    end in
  {| players_ := Some (assign registry name player);
     warnings := warnings statics ++ warn1 ++ warn2 |}.

(** *** Instances *)

Record Snapshot := {
  layout : option DOMRect;
  opacity : float
}.

Record InvertDelta := {
  x : float;
  y : float;
  sx : float;
  sy : float;
  a : float
}.

(** The fields of a [FLIP] object.  [invert_] holds an object or [null];
    [bound] holds the player functions copied onto the instance by the
    constructor (their names are assumed not to collide with the fields
    and methods of the class). *)
Record Instance := {
  element_ : elem;
  first_ : Snapshot;
  last_ : Snapshot;
  invert_ : option InvertDelta;
  start_ : float;
  duration_ : float;
  delay_ : float;
  easing_ : Val;
  updateTransform_ : bool;
  updateOpacity_ : bool;
  bound : gmap string PlayerFn
}.

Definition set_first_ (v : Snapshot) (o : Instance) : Instance :=
  {| element_ := element_ o; first_ := v; last_ := last_ o;
     invert_ := invert_ o; start_ := start_ o; duration_ := duration_ o;
     delay_ := delay_ o; easing_ := easing_ o;
     updateTransform_ := updateTransform_ o;
     updateOpacity_ := updateOpacity_ o; bound := bound o |}.

Definition set_last_ (v : Snapshot) (o : Instance) : Instance :=
  {| element_ := element_ o; first_ := first_ o; last_ := v;
     invert_ := invert_ o; start_ := start_ o; duration_ := duration_ o;
     delay_ := delay_ o; easing_ := easing_ o;
     updateTransform_ := updateTransform_ o;
     updateOpacity_ := updateOpacity_ o; bound := bound o |}.

Definition set_invert_ (v : option InvertDelta) (o : Instance) : Instance :=
  {| element_ := element_ o; first_ := first_ o; last_ := last_ o;
     invert_ := v; start_ := start_ o; duration_ := duration_ o;
     delay_ := delay_ o; easing_ := easing_ o;
     updateTransform_ := updateTransform_ o;
     updateOpacity_ := updateOpacity_ o; bound := bound o |}.

Definition set_start_ (v : float) (o : Instance) : Instance :=
  {| element_ := element_ o; first_ := first_ o; last_ := last_ o;
     invert_ := invert_ o; start_ := v; duration_ := duration_ o;
     delay_ := delay_ o; easing_ := easing_ o;
     updateTransform_ := updateTransform_ o;
     updateOpacity_ := updateOpacity_ o; bound := bound o |}.

Definition zero_snapshot : Snapshot := {| layout := None; opacity := 0 |}.

Definition identity_delta : InvertDelta :=
  {| x := 0; y := 0; sx := 1; sy := 1; a := 0 |}.

(** The [easing] value the constructor settles on. *)
Definition resolve_easing (easing : Val) : Outcome Val :=
  if String.eqb (JS.typeof easing) "function" then Ok easing
  else
    match JS.get easing "getRatio" with
    | inl e => Throw e
    | inr getRatio =>
        if negb (String.eqb (JS.typeof getRatio) "undefined")
        then Ok getRatio
        else Throw (Error "Easing function must be provided.")
    end.

(** The functions [Object.keys(player).forEach] binds on the instance. *)
Definition bind_all (player : Entry) : gmap string PlayerFn :=
  match player with
  | Registered p => p
  | Inherited => ∅
  end.

Definition constructor (statics : Statics) (options : Config.Options)
    : Outcome Instance :=
  let duration := default 330%float (Config.duration options) in
  let delay := default 0%float (Config.delay options) in
  let easing := default (VFunction (λ t, t)) (Config.easing options) in
  let transform := default true (Config.transform options) in
  let opacity := default true (Config.opacity options) in
  let play := default "rAF" (Config.play options) in
  match Config.element options with
  | None => Throw (Error "Element must be provided.")
  | Some element =>
      match resolve_easing easing with
      | Throw e => Throw e
      | Ok easing =>
          match players_ statics with
          | None =>
              Throw (TypeError ("Cannot read property '" +:+ play
                                +:+ "' of undefined"))
          | Some registry =>
              match lookup registry play with
              | None => Throw (Error ("Unknown player type: " +:+ play))
              | Some player =>
                  Ok {| element_ := element;
                        first_ := zero_snapshot;
                        last_ := zero_snapshot;
                        invert_ := Some identity_delta;
                        start_ := 0;
                        duration_ := duration;
                        delay_ := delay;
                        easing_ := easing;
                        updateTransform_ := transform;
                        updateOpacity_ := opacity;
                        bound := bind_all player |}
              end
          end
      end
  end.

(** *** Methods

    A method runs on the pair of its receiver [this] and the host. *)
Definition State : Type := Instance * World.

Definition this : M State Instance := λ s, (Ok s.1, s).
Definition update (f : Instance → Instance) : M State unit :=
  λ s, (Ok tt, (f s.1, s.2)).
Definition host (c : Call) : M State unit :=
  λ s, (Ok tt, (s.1, Host.record c s.2)).
Definition performance_now : M State float := λ s, (Ok (Host.now s.2), s).

Definition classList_add (el : elem) (token : string) : M State unit :=
  match Host.validate_token token with
  | Some e => throw e
  | None => host (ClassListAdd el token)
  end.

Definition classList_remove (el : elem) (token : string) : M State unit :=
  match Host.validate_token token with
  | Some e => throw e
  | None => host (ClassListRemove el token)
  end.

Definition addClass (className : Val) : M State unit :=
  o ← this;
  match className with
  | VString s => classList_add (element_ o) s
  | _ => mret tt
  end.

Definition removeClass (className : Val) : M State unit :=
  o ← this;
  match className with
  | VString s => classList_remove (element_ o) s
  | _ => mret tt
  end.

Definition invert : M State unit :=
  o ← this;
  match layout (first_ o) with
  | None => throw (Error "You must call first() before invert()")
  | Some first_layout =>
      match layout (last_ o) with
      | None => throw (Error "You must call last() before invert()")
      | Some last_layout =>
          match invert_ o with
          | None => throw (TypeError "Cannot set property 'x' of null")
          | Some _ =>
              let delta :=
                {| x := Host.left first_layout - Host.left last_layout;
                   y := Host.top first_layout - Host.top last_layout;
                   sx := Host.width first_layout / Host.width last_layout;
                   sy := Host.height first_layout / Host.height last_layout;
                   a := opacity (last_ o) - opacity (first_ o) |}%float in
              update (set_invert_ (Some delta));;
              willChange1 ←
                (if updateTransform_ o then
                   host (StyleSet (element_ o) "transformOrigin"
                           (SVString "0 0"));;
                   host (StyleSet (element_ o) "transform"
                           (SVTransform (x delta) (y delta)
                                        (sx delta) (sy delta)));;
                   mret ["transform"]
                 else mret []);
              willChange2 ←
                (if updateOpacity_ o then
                   host (StyleSet (element_ o) "opacity"
                           (SVNumber (opacity (first_ o))));;
                   mret (willChange1 ++ ["opacity"])
                 else mret willChange1);
              host (StyleSet (element_ o) "willChange"
                      (SVString (String.concat "," willChange2)))
          end
      end
  end.

Section Measure.

(** The layout and style engine of the browser: the rectangle
    [getBoundingClientRect()] returns, and the number
    [parseFloat(getComputedStyle(el).opacity)], after a given history. *)
Variable boundingClientRect : list Call → elem → DOMRect.
Variable computedOpacity : list Call → elem → float.

Definition getBoundingClientRect (el : elem) : M State DOMRect :=
  λ s, (Ok (boundingClientRect (Host.history s.2) el),
        (s.1, Host.record (GetBoundingClientRect el) s.2)).

Definition getComputedOpacity (el : elem) : M State float :=
  λ s, (Ok (computedOpacity (Host.history s.2) el),
        (s.1, Host.record (GetComputedStyle el) s.2)).

Definition first : M State unit :=
  o ← this;
  rect ← getBoundingClientRect (element_ o);
  update (λ o, set_first_
    {| layout := Some rect; opacity := opacity (first_ o) |} o);;
  alpha ← getComputedOpacity (element_ o);
  update (λ o, set_first_
    {| layout := layout (first_ o); opacity := alpha |} o).

Definition last (lastClassName : Val) : M State unit :=
  (if negb (String.eqb (JS.typeof lastClassName) "undefined")
   then addClass lastClassName else mret tt);;
  o ← this;
  rect ← getBoundingClientRect (element_ o);
  update (λ o, set_last_
    {| layout := Some rect; opacity := opacity (last_ o) |} o);;
  alpha ← getComputedOpacity (element_ o);
  update (λ o, set_last_
    {| layout := layout (last_ o); opacity := alpha |} o).

Definition snapshot (lastClassName : Val) : M State unit :=
  first;;
  last lastClassName;;
  invert.

End Measure.

Definition fire_ (eventName : string) : M State unit :=
  o ← this;
  host (DispatchEvent (element_ o)
          {| Host.type := eventName; Host.detail := VNull;
             Host.bubbles := true; Host.cancelable := true |}).

Definition clamp_ (value min max : float) : float :=
  JS.Math_min max (JS.Math_max min value).

Definition removeTransformsAndOpacity_ : M State unit :=
  o ← this;
  host (StyleSet (element_ o) "transformOrigin" SVNull);;
  host (StyleSet (element_ o) "transform" SVNull);;
  host (StyleSet (element_ o) "opacity" SVNull);;
  host (StyleSet (element_ o) "willChange" SVNull).

Definition resetFirstLastAndInvertValues_ : M State unit :=
  update (set_first_ zero_snapshot);;
  update (set_last_ zero_snapshot);;
  o ← this;
  match invert_ o with
  | None => throw (TypeError "Cannot set property 'x' of null")
  | Some _ => update (set_invert_ (Some identity_delta))
  end.

Definition cleanUpAndFireEvent_ : M State unit :=
  removeTransformsAndOpacity_;;
  resetFirstLastAndInvertValues_;;
  fire_ "flipComplete".

Section Play.

(** Calling a function that was copied from the player and bound to
    the instance. *)
Variable call : PlayerFn → option float → M State unit.

Definition play (startTime : option float) : M State unit :=
  o ← this;
  match invert_ o with
  | None => throw (Error "invert() must be called before play()")
  | Some _ =>
      match bound o !! "play_" with
      | None => throw (Error "No player specified.")
      | Some play_ => call play_ startTime
      end
  end.

End Play.

End FLIP.

Export FLIP (Player, Registry, Statics, Entry(..), Snapshot, InvertDelta,
             Instance).

(** ** The [requestAnimationFrame] player *)

Module rAF.
Import FLIP.

(** [requestAnimationFrame(this.update_)]; the host rejects a callback
    that is not a function. *)
Definition requestAnimationFrame_update_ : M State unit :=
  o ← this;
  match bound o !! "update_" with
  | None =>
      throw (TypeError "The callback provided as parameter 1 is not a function.")
  | Some update_ => host (RequestAnimationFrame (BoundPlayerFn update_))
  end.

Definition play_ (startTime : option float) : M State unit :=
  o ← this;
  match startTime with
  | None =>
      t ← performance_now;
      update (set_start_ (t + delay_ o)%float)
  | Some startTime => update (set_start_ (startTime + delay_ o)%float)
  end;;
  requestAnimationFrame_update_.

(** The [update] object literal of [update_]. *)
Definition interpolate (delta : InvertDelta) (first_opacity : float)
    (remappedTime : float) : InvertDelta :=
  {| x := x delta * (1 - remappedTime);
     y := y delta * (1 - remappedTime);
     sx := sx delta + (1 - sx delta) * remappedTime;
     sy := sy delta + (1 - sy delta) * remappedTime;
     a := first_opacity + a delta * remappedTime |}%float.

Definition update_ : M State unit :=
  t ← performance_now;
  o ← this;
  let time := ((t - start_ o) / duration_ o)%float in
  let time := clamp_ time 0 1 in
  match easing_ o with
  | VFunction easing =>
      let remappedTime := easing time in
      match invert_ o with
      | None => throw (TypeError "Cannot read property 'x' of null")
      | Some delta =>
          let update := interpolate delta (opacity (first_ o)) remappedTime in
          (if updateTransform_ o then
             host (StyleSet (element_ o) "transform"
                     (SVTransform (x update) (y update)
                                  (sx update) (sy update)))
           else mret tt);;
          (if updateOpacity_ o then
             host (StyleSet (element_ o) "opacity" (SVNumber (a update)))
           else mret tt);;
          if PrimFloat.ltb time 1 then requestAnimationFrame_update_
          else cleanUpAndFireEvent_
      end
  | _ => throw (TypeError "this.easing_ is not a function")
  end.

(** The player object of the module. *)
Definition player : Player :=
  <["play_" := rAF_play_]> (<["update_" := rAF_update_]> ∅).

End rAF.

(** ** The GSAP player *)

Module GSAP.
Import FLIP.

(** Reading a global variable that may not be declared. *)
Definition global (engine : TweenEngine) : M State TweenEngine :=
  λ s,
    match engine with
    | TweenMax =>
        if Host.hasTweenMax s.2 then (Ok TweenMax, s)
        else (Throw (ReferenceError "TweenMax is not defined"), s)
    | TweenLite =>
        if Host.hasTweenLite s.2 then (Ok TweenLite, s)
        else (Throw (ReferenceError "TweenLite is not defined"), s)
    end.

Definition play_ (startTime : option float) : M State unit :=
  t ← performance_now;
  let start :=
    (match startTime with
     | Some startTime => if JS.truthy startTime then startTime else t
     | None => t
     end / 1000)%float in
  let tweenLiteAvailable :=
    negb (String.eqb (JS.typeof (VString "TweenLite")) "undefined") in
  let tweenMaxAvailable :=
    negb (String.eqb (JS.typeof (VString "TweenMax")) "undefined") in
  tween ←
    (if tweenMaxAvailable then global TweenMax
     else if tweenLiteAvailable then global TweenLite
     else throw (Error "GSAP requested, but TweenMax/Lite not available."));
  o ← this;
  let options :=
    {| Host.ease := easing_ o;
       Host.onComplete := Bound_cleanUpAndFireEvent_;
       Host.scaleX := if updateTransform_ o then Some 1%float else None;
       Host.scaleY := if updateTransform_ o then Some 1%float else None;
       Host.x := if updateTransform_ o then Some 0%float else None;
       Host.y := if updateTransform_ o then Some 0%float else None;
       Host.opacity :=
         if updateOpacity_ o then Some (opacity (last_ o)) else None |} in
  host (NewTween tween (element_ o) (duration_ o / 1000)%float options);;
  host (TweenStartTime (start + delay_ o / 1000)%float).

Definition player : Player := <["play_" := GSAP_play_]> ∅.

End GSAP.

(** ** Calling a bound player function *)

(** A foreign function is not run: the call is recorded, and what the
    function goes on to do (to the helper, to the page, or by throwing) is
    not part of this state.  What is stated about the effects of playing a
    helper is stated for the helpers that have no foreign function
    ([Footprint.own_player]), or for the CSS player in [CSS]. *)
Definition call (fn : PlayerFn) (startTime : option float)
    : M FLIP.State unit :=
  match fn with
  | rAF_play_ => rAF.play_ startTime
  | rAF_update_ => rAF.update_
  | GSAP_play_ => GSAP.play_ startTime
  | Foreign id => FLIP.host (CallForeign id startTime)
  end.

(** ** The group coordinator, [FLIP.group]

The group object closes over the array of helpers it created; its
methods run on that array and the host. *)

Module Group.

Definition State : Type := list Instance * World.

(** The argument of the group's [last]: [undefined], a class name, or an
    array whose entries are class names or [undefined]. *)
Inductive ClassNames :=
| NoClass
| ClassName (name : string)
| ClassArray (names : list (option string)).

(** [FLIP.group(flips)]; [None] stands for an argument that is not an
    array. *)
Fixpoint construct_all (statics : Statics) (flips : list Config.Options)
    : Outcome (list Instance) :=
  match flips with
  | [] => Ok []
  | flip :: rest =>
      match FLIP.constructor statics flip with
      | Throw e => Throw e
      | Ok o =>
          match construct_all statics rest with
          | Throw e => Throw e
          | Ok os => Ok (o :: os)
          end
      end
  end.

Definition group (statics : Statics) (flips : option (list Config.Options))
    : Outcome (list Instance) :=
  match flips with
  | None => Throw (Error "group() expects an array of objects.")
  | Some flips => construct_all statics flips
  end.

Definition each (method : nat → M FLIP.State unit) : M State unit :=
  λ s, forEach method 0 s.1 s.2.

Definition addClass (className : Val) : M State unit :=
  each (λ _, FLIP.addClass className).

Definition removeClass (className : Val) : M State unit :=
  each (λ _, FLIP.removeClass className).

(** The [className] the first pass of [last] computes for a member. *)
Definition className_at (lastClassName : ClassNames) (index : nat)
    : option string :=
  match lastClassName with
  | NoClass => None
  | ClassName name => Some name
  | ClassArray names => mjoin (names !! index)
  end.

Definition invert : M State unit := each (λ _, FLIP.invert).

Definition play (startTime : option float) : M State unit :=
  λ s,
    let startTime :=
      match startTime with
      | None => Host.now s.2
      | Some startTime => startTime
      end in
    each (λ _, FLIP.play call (Some startTime)) s.

Section Measure.

Variable boundingClientRect : list Call → elem → DOMRect.
Variable computedOpacity : list Call → elem → float.

Definition first : M State unit :=
  each (λ _, FLIP.first boundingClientRect computedOpacity).

Definition last (lastClassName : ClassNames) : M State unit :=
  each (λ index,
    flip ← FLIP.this;
    match className_at lastClassName index with
    | Some className =>
        FLIP.classList_add (FLIP.element_ flip) className
    | None => mret tt
    end);;
  each (λ _, FLIP.last boundingClientRect computedOpacity VUndefined).

End Measure.

End Group.

(** ** Concrete scenarios *)

Module Scenario.

(** The class state after the entry file has registered the two players. *)
Definition statics : Statics :=
  FLIP.extend "GSAP" GSAP.player
    (FLIP.extend "rAF" rAF.player
       {| FLIP.players_ := None; FLIP.warnings := [] |}).

(** [{ element: el }] *)
Definition options (el : elem) : Config.Options :=
  {| Config.element := Some el; Config.duration := None;
     Config.delay := None; Config.easing := None;
     Config.transform := None; Config.opacity := None;
     Config.play := None |}.

(** A page on which nothing has happened yet, with no tween engine. *)
Definition world : World :=
  {| Host.history := []; Host.now := 1000;
     Host.hasTweenMax := false; Host.hasTweenLite := false |}.

(** The helper [new FLIP({ element: 0 })] builds. *)
Definition fresh : Instance :=
  {| FLIP.element_ := 0;
     FLIP.first_ := FLIP.zero_snapshot;
     FLIP.last_ := FLIP.zero_snapshot;
     FLIP.invert_ := Some FLIP.identity_delta;
     FLIP.start_ := 0;
     FLIP.duration_ := 330;
     FLIP.delay_ := 0;
     FLIP.easing_ := VFunction (λ t, t);
     FLIP.updateTransform_ := true;
     FLIP.updateOpacity_ := true;
     FLIP.bound := rAF.player |}.

(** Scenario A: the element is at {0, 0, 100, 100} with opacity 1 until a
    class is added, and at {50, 50, 200, 200} with opacity 0.5 after. *)
Definition class_added (h : list Call) : bool :=
  existsb (λ c, match c with ClassListAdd _ _ => true | _ => false end) h.

Definition rect_before : DOMRect :=
  {| Host.left := 0; Host.top := 0; Host.width := 100; Host.height := 100 |}.
Definition rect_after : DOMRect :=
  {| Host.left := 50; Host.top := 50; Host.width := 200;
     Host.height := 200 |}.

Definition boundingClientRect (h : list Call) (el : elem) : DOMRect :=
  if class_added h then rect_after else rect_before.
Definition computedOpacity (h : list Call) (el : elem) : float :=
  if class_added h then 0.5%float else 1%float.

(** The helper of scenario A after [first()] and [last('end')]. *)
Definition measured : Instance :=
  FLIP.set_last_ {| FLIP.layout := Some rect_after; FLIP.opacity := 0.5 |}
    (FLIP.set_first_ {| FLIP.layout := Some rect_before; FLIP.opacity := 1 |}
       fresh).

(** The helper of scenario A after [invert()]. *)
Definition inverted : Instance :=
  FLIP.set_invert_
    (Some {| FLIP.x := -50; FLIP.y := -50; FLIP.sx := 0.5; FLIP.sy := 0.5;
             FLIP.a := -0.5 |}%float)
    measured.

(** The same helper once [play(1000)] has set the start time, seen by the
    frame at time 1165 (half of the default duration of 330 ms). *)
Definition playing : Instance := FLIP.set_start_ 1000 inverted.

Definition frame_at (time : float) : World := Host.at_time time world.

(** [{ element: 0, duration: 0 }] *)
Definition options_duration_0 : Config.Options :=
  {| Config.element := Some 0; Config.duration := Some 0%float;
     Config.delay := None; Config.easing := None;
     Config.transform := None; Config.opacity := None;
     Config.play := None |}.

(** A helper of duration 0 after [first()], [last('end')], [invert()] and
    [play()] at time 1000. *)
Definition instant : Instance :=
  {| FLIP.element_ := 0;
     FLIP.first_ := {| FLIP.layout := Some rect_before; FLIP.opacity := 1 |};
     FLIP.last_ := {| FLIP.layout := Some rect_after; FLIP.opacity := 0.5 |};
     FLIP.invert_ :=
       Some {| FLIP.x := -50; FLIP.y := -50; FLIP.sx := 0.5; FLIP.sy := 0.5;
               FLIP.a := -0.5 |}%float;
     FLIP.start_ := 1000;
     FLIP.duration_ := 0;
     FLIP.delay_ := 0;
     FLIP.easing_ := VFunction (λ t, t);
     FLIP.updateTransform_ := true;
     FLIP.updateOpacity_ := true;
     FLIP.bound := rAF.player |}.

(** The calls made on the host up to the end of that [play()]. *)
Definition instant_history : list Call :=
  [ GetBoundingClientRect 0; GetComputedStyle 0; ClassListAdd 0 "end";
    GetBoundingClientRect 0; GetComputedStyle 0;
    StyleSet 0 "transformOrigin" (SVString "0 0");
    StyleSet 0 "transform" (SVTransform (-50) (-50) 0.5 0.5);
    StyleSet 0 "opacity" (SVNumber 1);
    StyleSet 0 "willChange" (SVString "transform,opacity");
    RequestAnimationFrame (BoundPlayerFn rAF_update_) ].

(** The host at the first frame of that helper, scheduled in the same
    millisecond. *)
Definition instant_world : World := Host.records instant_history world.

(** An element that is not rendered until a class is added: an empty
    rectangle before, {50, 50, 200, 200} after. *)
Definition rect_hidden : DOMRect :=
  {| Host.left := 0; Host.top := 0; Host.width := 0; Host.height := 0 |}.

Definition boundingClientRect_hidden (h : list Call) (el : elem) : DOMRect :=
  if class_added h then rect_after else rect_hidden.

(** The helper of that element after [first()] and [last('end')]. *)
Definition revealed : Instance :=
  FLIP.set_last_ {| FLIP.layout := Some rect_after; FLIP.opacity := 0.5 |}
    (FLIP.set_first_ {| FLIP.layout := Some rect_hidden; FLIP.opacity := 1 |}
       fresh).

(** Scenario D: a group of three helpers, on the elements 0, 1 and 2. *)
Definition member (el : elem) : Instance :=
  {| FLIP.element_ := el;
     FLIP.first_ := FLIP.zero_snapshot;
     FLIP.last_ := FLIP.zero_snapshot;
     FLIP.invert_ := Some FLIP.identity_delta;
     FLIP.start_ := 0;
     FLIP.duration_ := 330;
     FLIP.delay_ := 0;
     FLIP.easing_ := VFunction (λ t, t);
     FLIP.updateTransform_ := true;
     FLIP.updateOpacity_ := true;
     FLIP.bound := rAF.player |}.

Definition members : list Instance := [member 0; member 1; member 2].

Definition abc : Group.ClassNames :=
  Group.ClassArray [Some "a"; Some "b"; Some "c"].

(** [{ element: 0, easing: { getRatio: 5 } }] *)
Definition options_getRatio_5 : Config.Options :=
  {| Config.element := Some 0; Config.duration := None;
     Config.delay := None;
     Config.easing := Some (VObject [("getRatio", VNumber 5)]);
     Config.transform := None; Config.opacity := None;
     Config.play := None |}.

(** [{ element: 0, play: name }] *)
Definition options_play (name : string) : Config.Options :=
  {| Config.element := Some 0; Config.duration := None;
     Config.delay := None; Config.easing := None;
     Config.transform := None; Config.opacity := None;
     Config.play := Some name |}.

End Scenario.

(** ** Runs of the registry *)

Module Run.

(** The class state before any call of [extend]. *)
Definition initial : Statics := {| FLIP.players_ := None; FLIP.warnings := [] |}.

(** The only operation that writes the registry is [extend]; a run of the
    registry is a sequence of its calls, oldest first. *)
Definition extend_all (calls : list (string * Player)) (statics : Statics)
    : Statics :=
  foldl (λ statics c, FLIP.extend c.1 c.2 statics) statics calls.

(** The player most recently registered under [name], given the one
    registered first and the calls that follow. *)
Definition latest (name : string) (player : Player)
    (later : list (string * Player)) : Player :=
  foldl (λ p c, if String.eqb c.1 name then c.2 else p) player later.

(** What the constructor finds under a name: [FLIP.players_[name]]. *)
Definition find (statics : Statics) (name : string) : option Entry :=
  registry ← FLIP.players_ statics; FLIP.lookup registry name.

(** The key ["__proto__"] is never an own property of the registry. *)
Definition registry_wf (registry : Registry) : Prop :=
  FLIP.own registry !! "__proto__" = None.

Definition statics_wf (statics : Statics) : Prop :=
  ∀ registry, FLIP.players_ statics = Some registry → registry_wf registry.

(** [name] is registered, and looking it up finds [player]. *)
Definition registered (statics : Statics) (name : string) (player : Player)
    : Prop :=
  ∃ registry,
    FLIP.players_ statics = Some registry
    ∧ registry_wf registry
    ∧ FLIP.lookup registry name = Some (Registered player).

End Run.

Export Run (registry_wf, statics_wf, registered).

(** ** The two passes of the group's [last] *)

Module Pass.

Section Passes.

Variable boundingClientRect : list Call → elem → DOMRect.
Variable computedOpacity : list Call → elem → float.

(** The class a member receives: the scalar for every member, the entry
    at the member's index for an array. *)
Definition class_of (lastClassName : Group.ClassNames) (index : nat)
    : option string :=
  match lastClassName with
  | Group.NoClass => None
  | Group.ClassName name => Some name
  | Group.ClassArray names =>
      match names !! index with
      | Some (Some name) => Some name
      | _ => None
      end
  end.

(** The class mutations, in member order, for members numbered from
    [index]. *)
Fixpoint additions (lastClassName : Group.ClassNames) (index : nat)
    (flips : list Instance) : list Call :=
  match flips with
  | [] => []
  | flip :: rest =>
      match class_of lastClassName index with
      | Some className => [ClassListAdd (FLIP.element_ flip) className]
      | None => []
      end ++ additions lastClassName (S index) rest
  end.

(** The queries a member's [last()] makes. *)
Definition queries (flip : Instance) : list Call :=
  [ GetBoundingClientRect (FLIP.element_ flip);
    GetComputedStyle (FLIP.element_ flip) ].

(** The queries of all members, in member order. *)
Definition measurements (flips : list Instance) : list Call :=
  flips ≫= queries.

(** The members once each has been measured in turn, the first of them
    after the history [h]. *)
Fixpoint measure_all (h : list Call) (flips : list Instance)
    : list Instance :=
  match flips with
  | [] => []
  | flip :: rest =>
      let el := FLIP.element_ flip in
      FLIP.set_last_
        {| FLIP.layout := Some (boundingClientRect h el);
           FLIP.opacity :=
             computedOpacity (h ++ [GetBoundingClientRect el]) el |}
        flip
      :: measure_all (h ++ queries flip) rest
  end.

End Passes.

Definition is_addition (c : Call) : Prop :=
  match c with ClassListAdd _ _ => True | _ => False end.

Definition is_query (c : Call) : Prop :=
  match c with
  | GetBoundingClientRect _ | GetComputedStyle _ => True
  | _ => False
  end.

End Pass.

(** ** Classes of numbers *)

Module IEEE.

(** A number that is strictly positive and finite. *)
Definition positive_finite (n : float) : Prop :=
  PrimFloat.ltb 0 n = true ∧ PrimFloat.is_finite n = true.

(** A number of ordinary magnitude: between 2^-500 and 2^500. *)
Definition moderate (n : float) : Prop :=
  PrimFloat.leb 0x1p-500 n = true ∧ PrimFloat.leb n 0x1p500 = true.

(** A binary64 value of sign [s] that is not [NaN]. *)
Definition signed (s : bool) (n : spec_float) : Prop :=
  n = S754_zero s ∨ n = S754_infinity s ∨ ∃ m e, n = S754_finite s m e.

End IEEE.

(** ** The life of an instance *)

Module Life.

(** What can happen to an instance: a call of one of its public methods,
    a frame of the [requestAnimationFrame] player, the completion callback
    the GSAP player hands to the tween, or time passing. *)
Inductive Method :=
| Tick (time : float)
| AddClass (className : Val)
| RemoveClass (className : Val)
| Snapshot (lastClassName : Val)
| First
| Last (lastClassName : Val)
| Invert
| Play (startTime : option float)
| Frame
| Complete.

Section Run.

Variable boundingClientRect : list Call → elem → DOMRect.
Variable computedOpacity : list Call → elem → float.

Definition run (m : Method) : M FLIP.State unit :=
  match m with
  | Tick time => λ s, (Ok tt, (s.1, Host.at_time time s.2))
  | AddClass className => FLIP.addClass className
  | RemoveClass className => FLIP.removeClass className
  | Snapshot lastClassName =>
      FLIP.snapshot boundingClientRect computedOpacity lastClassName
  | First => FLIP.first boundingClientRect computedOpacity
  | Last lastClassName =>
      FLIP.last boundingClientRect computedOpacity lastClassName
  | Invert => FLIP.invert
  | Play startTime => FLIP.play call startTime
  | Frame => rAF.update_
  | Complete => FLIP.cleanUpAndFireEvent_
  end.

(** A sequence of such runs.  An exception ends the run that throws, not
    the page: the next one works on the state the exception left. *)
Fixpoint run_all (ms : list Method) (s : FLIP.State) : FLIP.State :=
  match ms with
  | [] => s
  | m :: ms => run_all ms (run m s).2
  end.

End Run.

(** A computation that never leaves [null] in [invert_] when it did not
    find [null] there. *)
Definition keeps_delta {A} (m : M FLIP.State A) : Prop :=
  ∀ s, is_Some (FLIP.invert_ s.1) → is_Some (FLIP.invert_ (m s).2.1).

End Life.

(** ** What a method leaves alone *)

Module Footprint.

(** What the constructor fixes in an instance. *)
Definition same_config (o o' : Instance) : Prop :=
  FLIP.element_ o' = FLIP.element_ o
  ∧ FLIP.duration_ o' = FLIP.duration_ o
  ∧ FLIP.delay_ o' = FLIP.delay_ o
  ∧ FLIP.easing_ o' = FLIP.easing_ o
  ∧ FLIP.updateTransform_ o' = FLIP.updateTransform_ o
  ∧ FLIP.updateOpacity_ o' = FLIP.updateOpacity_ o
  ∧ FLIP.bound o' = FLIP.bound o.

(** A call that names no element other than [el].  What a foreign player
    function does once it is called is not the library's doing. *)
Definition on_element (el : elem) (c : Call) : Prop :=
  match c with
  | ClassListAdd el' _ | ClassListRemove el' _
  | GetBoundingClientRect el' | GetComputedStyle el'
  | StyleSet el' _ _ | DispatchEvent el' _ | NewTween _ el' _ _ => el' = el
  | RequestAnimationFrame _ | TweenStartTime _ | CallForeign _ _ => True
  end.

(** A helper that has no foreign function: whatever is bound to it is a
    function of the [requestAnimationFrame] player or of the GSAP player, so
    that playing it runs code of [src/core.js] and of those two players
    only. *)
Definition is_foreign (fn : PlayerFn) : bool :=
  match fn with
  | Foreign _ => true
  | _ => false
  end.

Definition own_player (o : Instance) : Prop :=
  map_Forall (λ _ fn, is_foreign fn = false) (FLIP.bound o).

(** A computation that, run on an instance of the element [el], keeps the
    configuration, only appends to the history, and names no other element
    in the calls it appends. *)
Definition stays {A} (el : elem) (m : M FLIP.State A) : Prop :=
  ∀ s, FLIP.element_ s.1 = el →
    same_config s.1 (m s).2.1
    ∧ ∃ added,
        Host.history (m s).2.2 = Host.history s.2 ++ added
        ∧ Forall (on_element el) added.

End Footprint.

(** ** The order of the numbers *)

Module Rank.

(** The place of a binary64 value that is not [NaN] in the order of the
    numbers, as three integers compared lexicographically: the sign class,
    then the exponent, then the mantissa. *)
Definition class (n : spec_float) : Z :=
  match n with
  | S754_infinity true => -2
  | S754_finite true _ _ => -1
  | S754_finite false _ _ => 1
  | S754_infinity false => 2
  | _ => 0
  end.

Definition exponent (n : spec_float) : Z :=
  match n with
  | S754_finite false _ e => e
  | S754_finite true _ e => - e
  | _ => 0
  end.

Definition mantissa (n : spec_float) : Z :=
  match n with
  | S754_finite false m _ => Zpos m
  | S754_finite true m _ => Zneg m
  | _ => 0
  end.

Definition lt (a b : spec_float) : Prop :=
  (class a < class b
   ∨ class a = class b
     ∧ (exponent a < exponent b
        ∨ exponent a = exponent b ∧ mantissa a < mantissa b))%Z.

Definition eq (a b : spec_float) : Prop :=
  class a = class b ∧ exponent a = exponent b ∧ mantissa a = mantissa b.

End Rank.

(** ** Default arguments *)

Module Defaults.

(** [clamp_] as it is called: a bound that is not given (or is
    [undefined]) takes its default, negative or positive infinity. *)
Definition clamp_ (value : float) (min max : option float) : float :=
  FLIP.clamp_ value (default neg_infinity min) (default infinity max).

End Defaults.

(** ** The frame loop as the host drives it *)

Module Loop.

(** The callbacks handed to [requestAnimationFrame] by a sequence of
    calls, in the order of the requests. *)
Definition requested (cs : list Call) : list Callback :=
  omap (λ c, match c with RequestAnimationFrame cb => Some cb | _ => None end)
       cs.

(** The host calling a callback back: the frame scheduler passes the time
    of the frame as the only argument. *)
Definition invoke (cb : Callback) (timestamp : float) : M FLIP.State unit :=
  match cb with
  | BoundPlayerFn fn => call fn (Some timestamp)
  | Bound_cleanUpAndFireEvent_ => FLIP.cleanUpAndFireEvent_
  end.

(** One frame, at clock value [time] (the clock reads [time] throughout
    the frame): the callbacks requested since the previous frame (the calls
    after position [mark] of the history) run in the order of their
    requests; what they request runs in a later frame; an exception thrown
    by one does not stop the others. *)
Definition frame (time : float) (mark : nat) (s : FLIP.State)
    : nat * FLIP.State :=
  let queue := requested (drop mark (Host.history s.2)) in
  (length (Host.history s.2),
   foldl (λ s cb, (invoke cb time s).2) (s.1, Host.at_time time s.2) queue).

(** The frames at the successive clock values [times]. *)
Fixpoint frames (times : list float) (mark : nat) (s : FLIP.State)
    : nat * FLIP.State :=
  match times with
  | [] => (mark, s)
  | time :: rest => let '(mark', s') := frame time mark s in frames rest mark' s'
  end.

(** The callbacks that wait for the next frame. *)
Definition pending (ms : nat * FLIP.State) : list Callback :=
  requested (drop ms.1 (Host.history ms.2.2)).

(** The number of [flipComplete] events dispatched by a sequence of
    calls. *)
Definition is_completion (c : Call) : bool :=
  match c with
  | DispatchEvent _ evt => String.eqb (Host.type evt) "flipComplete"
  | _ => false
  end.

Definition completions (cs : list Call) : nat :=
  length (List.filter is_completion cs).

(** A helper that the [requestAnimationFrame] player can animate with the
    easing function [easing]. *)
Definition looping (easing : float → float) (s : FLIP.State) : Prop :=
  FLIP.easing_ s.1 = VFunction easing
  ∧ is_Some (FLIP.invert_ s.1)
  ∧ FLIP.bound s.1 !! "update_" = Some rAF_update_.

(** A clock value at which [update_] finds that the animation of [o] is
    over: the normalized time, clamped, is not below 1. *)
Definition due (o : Instance) (time : float) : bool :=
  negb (PrimFloat.ltb
          (FLIP.clamp_ ((time - FLIP.start_ o) / FLIP.duration_ o)%float 0 1)
          1).

(** A helper whose animation is over: the snapshots and the delta are
    those of a new helper, and the four styles of the animation are
    [null]. *)
Definition finished (s : FLIP.State) : Prop :=
  FLIP.first_ s.1 = FLIP.zero_snapshot
  ∧ FLIP.last_ s.1 = FLIP.zero_snapshot
  ∧ FLIP.invert_ s.1 = Some FLIP.identity_delta
  ∧ ∀ property before,
      property ∈ ["transformOrigin"; "transform"; "opacity"; "willChange"] →
      Host.inline_style (Host.history s.2) (FLIP.element_ s.1) property before
      = Some SVNull.

End Loop.

(** ** Snapshots *)

Module Snap.

(** The class mutation [last(lastClassName)] makes: none unless the
    argument is a string. *)
Definition class_added (el : elem) (lastClassName : Val) : list Call :=
  match lastClassName with
  | VString className => [ClassListAdd el className]
  | _ => []
  end.

(** An argument of [last] that the document does not reject. *)
Definition accepted (lastClassName : Val) : Prop :=
  ∀ className,
    lastClassName = VString className →
    Host.validate_token className = None.

Section Taken.

Variable boundingClientRect : list Call → elem → DOMRect.
Variable computedOpacity : list Call → elem → float.

(** The snapshot of [el] taken after the history [h]: the rectangle is
    queried first, the opacity after that query. *)
Definition taken (h : list Call) (el : elem) : Snapshot :=
  {| FLIP.layout := Some (boundingClientRect h el);
     FLIP.opacity := computedOpacity (h ++ [GetBoundingClientRect el]) el |}.

End Taken.

(** The delta [invert] derives from two rectangles and two opacities. *)
Definition delta (f l : DOMRect) (first_opacity last_opacity : float)
    : InvertDelta :=
  {| FLIP.x := Host.left f - Host.left l;
     FLIP.y := Host.top f - Host.top l;
     FLIP.sx := Host.width f / Host.width l;
     FLIP.sy := Host.height f / Host.height l;
     FLIP.a := last_opacity - first_opacity |}%float.

End Snap.

(** ** Names and warnings of the registry *)

Module Names.

(** A name that a plain object does not already answer to: neither
    ["__proto__"] nor a property of [Object.prototype]. *)
Definition ordinary (name : string) : bool :=
  negb (String.eqb name "__proto__") && negb (FLIP.in_Object_prototype name).

(** A registration that gives [extend] no reason to warn by itself. *)
Definition plain (c : string * Player) : Prop :=
  ordinary c.1 = true ∧ is_Some (c.2 !! "play_").

(** The warning of [extend] about a name that is taken. *)
Definition already_exists (name : string) : string :=
  "Player with name " +:+ name +:+ " already exists".

End Names.

(** ** Members of a group that start together *)

Module Together.

(** A member of a group that the [requestAnimationFrame] player plays. *)
Definition plays_frames (o : Instance) : Prop :=
  is_Some (FLIP.invert_ o)
  ∧ FLIP.bound o !! "play_" = Some rAF_play_
  ∧ FLIP.bound o !! "update_" = Some rAF_update_.

(** The member once it has been started at [time]. *)
Definition started (time : float) (o : Instance) : Instance :=
  FLIP.set_start_ (time + FLIP.delay_ o)%float o.

End Together.

(** ** Members of a group that are inverted *)

Module Inverted.

(** A helper that holds both snapshots (and a delta object, as every
    helper does). *)
Definition ready (o : Instance) : Prop :=
  is_Some (FLIP.layout (FLIP.first_ o))
  ∧ is_Some (FLIP.layout (FLIP.last_ o))
  ∧ is_Some (FLIP.invert_ o).

(** The helper once [invert()] has run on it. *)
Definition helper (o : Instance) : Instance :=
  match FLIP.layout (FLIP.first_ o), FLIP.layout (FLIP.last_ o) with
  | Some f, Some l =>
      FLIP.set_invert_
        (Some (Snap.delta f l (FLIP.opacity (FLIP.first_ o))
                 (FLIP.opacity (FLIP.last_ o)))) o
  | _, _ => o
  end.

(** The styles [invert()] writes for it. *)
Definition styles (o : Instance) : list Call :=
  match FLIP.invert_ (helper o) with
  | Some delta =>
      (if FLIP.updateTransform_ o
       then [ StyleSet (FLIP.element_ o) "transformOrigin" (SVString "0 0");
              StyleSet (FLIP.element_ o) "transform"
                (SVTransform (FLIP.x delta) (FLIP.y delta)
                   (FLIP.sx delta) (FLIP.sy delta)) ]
       else [])
      ++ (if FLIP.updateOpacity_ o
          then [ StyleSet (FLIP.element_ o) "opacity"
                   (SVNumber (FLIP.opacity (FLIP.first_ o))) ]
          else [])
      ++ [ StyleSet (FLIP.element_ o) "willChange"
             (SVString
                (String.concat ","
                   ((if FLIP.updateTransform_ o then ["transform"] else [])
                    ++ (if FLIP.updateOpacity_ o then ["opacity"] else [])))) ]
  | None => []
  end.

(** The error [invert()] throws for a helper that lacks a snapshot. *)
Definition missing (o : Instance) : JS.Exn :=
  Error (if FLIP.layout (FLIP.first_ o) is None
         then "You must call first() before invert()"
         else "You must call last() before invert()").

End Inverted.

(** ** The CSS transition player *)

Module CSS.

(** [this.easing_] as this player inspects it.  The class of [src/core.js]
    tells functions from other values and never looks for arrays; this
    player does, and it replaces an array by the string
    [`cubic-bezier(${points.join(',')})`], which is kept as the items it
    joins. *)
Inductive Easing :=
| Value (v : Val)
| Points (points : list Val)
| CubicBezier (points : list Val).

Definition typeof (easing : Easing) : string :=
  match easing with
  | Value v => JS.typeof v
  | Points _ => "object"
  | CubicBezier _ => "string"
  end.

(** The helper as this player sees it: the fields the class defines, and
    [easing_] as above ([FLIP.easing_] of [flip] is not read). *)
Record This := {
  flip : Instance;
  easing_ : Easing
}.

(** The view of a helper whose [easing_] is not an array. *)
Definition of_instance (o : Instance) : This :=
  {| flip := o; easing_ := Value (FLIP.easing_ o) |}.

(** The closures [play_] hands to [once]: the handler of [transitionstart]
    and [cleanup]. *)
Inductive Handler := SetStart | Cleanup.

(** A registered event listener: the [proxy] function created by a call
    of [once], identified by the number of proxies created before it. *)
Record Listener := {
  proxy : nat;
  on : elem;
  type : string;
  handler : Handler
}.

(** The calls this player makes on the host: those of the kinds
    [src/core.js] makes, and its own.  [StyleSetEasing] assigns
    [this.easing_] as it is; [StyleSetMs el p n] assigns the template
    string [`${n}ms`], kept as the number it is built from (a duration or
    delay that is not a number is the number it converts to). *)
Inductive Call :=
| Core (c : Host.Call)
| OffsetLeft (el : elem)
| StyleSetEasing (el : elem) (property : string) (value : Easing)
| StyleSetMs (el : elem) (property : string) (n : float)
| AddEventListener (el : elem) (type : string) (proxy : nat)
| RemoveEventListener (el : elem) (type : string) (proxy : nat)
| RequestFrame.

(** The host: the calls made so far, the clock, the listeners registered
    (oldest first), the number of proxies created, the number of frame
    callbacks that wait for the next frame, and the two globals of the GSAP
    player. *)
Record World := {
  history : list Call;
  now : float;
  listeners : list Listener;
  created : nat;
  scheduled : nat;
  hasTweenMax : bool;
  hasTweenLite : bool
}.

Definition State : Type := This * World.

Definition with_history (h : list Call) (w : World) : World :=
  {| history := h; now := now w; listeners := listeners w;
     created := created w; scheduled := scheduled w;
     hasTweenMax := hasTweenMax w; hasTweenLite := hasTweenLite w |}.

Definition with_listeners (ls : list Listener) (w : World) : World :=
  {| history := history w; now := now w; listeners := ls;
     created := created w; scheduled := scheduled w;
     hasTweenMax := hasTweenMax w; hasTweenLite := hasTweenLite w |}.

Definition at_time (time : float) (w : World) : World :=
  {| history := history w; now := time; listeners := listeners w;
     created := created w; scheduled := scheduled w;
     hasTweenMax := hasTweenMax w; hasTweenLite := hasTweenLite w |}.

Definition this : M State This := λ s, (Ok s.1, s).

Definition host (c : Call) : M State unit :=
  λ s, (Ok tt, (s.1, with_history (history s.2 ++ [c]) s.2)).

Definition set_easing_ (easing : Easing) : M State unit :=
  λ s, (Ok tt, ({| flip := flip s.1; easing_ := easing |}, s.2)).

Definition set_start_ (time : float) : M State unit :=
  λ s, (Ok tt,
        ({| flip := FLIP.set_start_ time (flip s.1); easing_ := easing_ s.1 |},
         s.2)).

Definition performance_now : M State float := λ s, (Ok (now s.2), s).

(** The calls of the kinds [src/core.js] makes, as that file records
    them. *)
Definition core_calls (h : list Call) : list Host.Call :=
  omap (λ c, match c with Core c => Some c | _ => None end) h.

(** A method of the class, called on the helper: it runs on the fields of
    the class and sees the host through the calls of its own kinds; the
    calls it makes are appended. *)
Definition core {A} (m : M FLIP.State A) : M State A :=
  λ s,
    let before := core_calls (history s.2) in
    let '(r, (o, w)) :=
      m (flip s.1,
         {| Host.history := before; Host.now := now s.2;
            Host.hasTweenMax := hasTweenMax s.2;
            Host.hasTweenLite := hasTweenLite s.2 |}) in
    (r,
     ({| flip := o; easing_ := easing_ s.1 |},
      with_history
        (history s.2 ++ (Core <$> drop (length before) (Host.history w)))
        s.2)).

(** [element.removeEventListener(type, proxy)] *)
Definition removeEventListener (el : elem) (type : string) (proxy : nat)
    : M State unit :=
  λ s,
    (Ok tt,
     (s.1,
      with_listeners
        (List.filter (λ l, negb (Nat.eqb (CSS.proxy l) proxy)) (listeners s.2))
        (with_history (history s.2 ++ [RemoveEventListener el type proxy])
           s.2))).

(** [once(element, type, handler)]: a new proxy is registered; the result
    identifies it (the function [off] removes that proxy). *)
Definition once (element : elem) (type : string) (handler : Handler)
    : M State nat :=
  λ s,
    let proxy := created s.2 in
    (Ok proxy,
     (s.1,
      {| history := history s.2 ++ [AddEventListener element type proxy];
         now := now s.2;
         listeners :=
           listeners s.2
           ++ [ {| CSS.proxy := proxy; on := element; CSS.type := type;
                   CSS.handler := handler |} ];
         created := S proxy;
         scheduled := scheduled s.2;
         hasTweenMax := hasTweenMax s.2;
         hasTweenLite := hasTweenLite s.2 |})).

Definition requestAnimationFrame : M State unit :=
  λ s,
    (Ok tt,
     (s.1,
      {| history := history s.2 ++ [RequestFrame];
         now := now s.2; listeners := listeners s.2; created := created s.2;
         scheduled := S (scheduled s.2);
         hasTweenMax := hasTweenMax s.2;
         hasTweenLite := hasTweenLite s.2 |})).

Definition play_ : M State unit :=
  o ← this;
  (if String.eqb (typeof (easing_ o)) "function" then
     throw (Error ("The CSS player does not support passing easing as a function."
                   +:+ " Expected a string or an array of cubic-bezier control points."))
   else mret tt);;
  (match easing_ o with
   | Points points => set_easing_ (CubicBezier points)
   | _ => mret tt
   end);;
  let transitions :=
    (if FLIP.updateTransform_ (flip o) then ["transform"] else [])
    ++ (if FLIP.updateOpacity_ (flip o) then ["opacity"] else []) in
  let el := FLIP.element_ (flip o) in
  host (OffsetLeft el);;
  host (Core (StyleSet el "transitionProperty"
                (SVString (String.concat "," transitions))));;
  o ← this;
  host (StyleSetEasing el "transitionTimingFunction" (easing_ o));;
  host (StyleSetMs el "transitionDuration" (FLIP.duration_ (flip o)));;
  host (StyleSetMs el "transitionDelay" (FLIP.delay_ (flip o)));;
  once el "transitionstart" SetStart;;
  once el "transitionend" Cleanup;;
  once el "transitioncancel" Cleanup;;
  requestAnimationFrame.

(** The closure [cleanup] of [play_]. *)
Definition cleanup : M State unit :=
  o ← this;
  let el := FLIP.element_ (flip o) in
  host (Core (StyleSet el "transitionDuration" (SVString "")));;
  host (Core (StyleSet el "transitionTimingFunction" (SVString "")));;
  host (Core (StyleSet el "transitionProperty" (SVString "")));;
  host (Core (StyleSet el "transitionDelay" (SVString "")));;
  core (FLIP.classList_remove el "flip-animating");;
  core FLIP.cleanUpAndFireEvent_.

(** The closure [play_] hands to [requestAnimationFrame]. *)
Definition begin : M State unit :=
  t ← performance_now;
  o ← this;
  set_start_ (t + FLIP.delay_ (flip o))%float;;
  let el := FLIP.element_ (flip o) in
  core (FLIP.classList_add el "flip-animating");;
  (if FLIP.updateTransform_ (flip o)
   then host (Core (StyleSet el "transform" (SVString "")))
   else mret tt);;
  (if FLIP.updateOpacity_ (flip o)
   then host (Core (StyleSet el "opacity" (SVString "")))
   else mret tt).

Definition handle (handler : Handler) : M State unit :=
  match handler with
  | SetStart => t ← performance_now; set_start_ t
  | Cleanup => cleanup
  end.

(** The function [proxy] of [once], called with an event whose target is
    [target]. *)
Definition call_proxy (l : Listener) (target : elem) : M State unit :=
  if negb (Nat.eqb target (on l)) then mret tt
  else
    handle (handler l);;
    removeEventListener (on l) (type l) (proxy l).

(** *** The host calling back *)

(** An event: its type, its target, and the elements it passes on its way
    (the target, and its ancestors if the event bubbles). *)
Record Event := {
  event_type : string;
  target : elem;
  path : list elem
}.

Definition listens (evt : Event) (l : Listener) : bool :=
  String.eqb (type l) (event_type evt)
  && existsb (Nat.eqb (on l)) (path evt).

Definition registered (l : Listener) (w : World) : bool :=
  existsb (λ l', Nat.eqb (proxy l') (proxy l)) (listeners w).

(** The host dispatching an event: the listeners registered when the
    dispatch starts are called in the order of their registration, unless
    removed in the meantime; an exception in one does not stop the
    others. *)
Definition dispatch (evt : Event) (s : State) : State :=
  foldl (λ s l, if registered l s.2 then (call_proxy l (target evt) s).2 else s)
        s (List.filter (listens evt) (listeners s.2)).

(** The host running a frame at clock value [time]: the frame callbacks
    that wait are called, and none waits afterwards. *)
Definition frame (time : float) (s : State) : State :=
  Nat.iter (scheduled s.2) (λ s, (begin s).2)
    (s.1,
     {| history := history s.2; now := time; listeners := listeners s.2;
        created := created s.2; scheduled := 0;
        hasTweenMax := hasTweenMax s.2; hasTweenLite := hasTweenLite s.2 |}).

(** The [flipComplete] events dispatched by a sequence of calls. *)
Definition completions (h : list Call) : nat :=
  length (List.filter
            (λ c, match c with
                  | DispatchEvent _ evt =>
                      String.eqb (Host.type evt) "flipComplete"
                  | _ => false
                  end)
            (core_calls h)).

(** An event of type [type] at the element [el] itself. *)
Definition at_element (type : string) (el : elem) : Event :=
  {| event_type := type; target := el; path := [el] |}.

(** An event of type [type] at a descendant [child] of the element [el],
    bubbling through it. *)
Definition from_child (type : string) (child el : elem) : Event :=
  {| event_type := type; target := child; path := [child; el] |}.

(** *** The states a run of the player goes through *)

(** The helper once [play_] has run: an array of control points has been
    replaced by the string built from it. *)
Definition played (o : This) : This :=
  {| flip := flip o;
     easing_ :=
       match easing_ o with
       | Points points => CubicBezier points
       | easing => easing
       end |}.

(** The calls of [play_], for a helper whose first proxy is numbered
    [first_proxy]. *)
Definition play_calls (o : This) (first_proxy : nat) : list Call :=
  let el := FLIP.element_ (flip o) in
  [ OffsetLeft el;
    Core
      (StyleSet el "transitionProperty"
         (SVString
            (String.concat ","
               ((if FLIP.updateTransform_ (flip o) then ["transform"]
                 else [])
                ++ (if FLIP.updateOpacity_ (flip o) then ["opacity"]
                    else [])))));
    StyleSetEasing el "transitionTimingFunction"
      (easing_ (played o));
    StyleSetMs el "transitionDuration" (FLIP.duration_ (flip o));
    StyleSetMs el "transitionDelay" (FLIP.delay_ (flip o));
    AddEventListener el "transitionstart" first_proxy;
    AddEventListener el "transitionend" (S first_proxy);
    AddEventListener el "transitioncancel" (S (S first_proxy));
    RequestFrame ].

(** The three listeners [play_] registers. *)
Definition play_listeners (el : elem) (first_proxy : nat)
    : list Listener :=
  [ {| proxy := first_proxy; on := el;
       type := "transitionstart"; handler := SetStart |};
    {| proxy := S first_proxy; on := el;
       type := "transitionend"; handler := Cleanup |};
    {| proxy := S (S first_proxy); on := el;
       type := "transitioncancel"; handler := Cleanup |} ].

(** The helper once [cleanup] has run. *)
Definition reset (o : This) : This :=
  {| flip :=
       FLIP.set_invert_ (Some FLIP.identity_delta)
         (FLIP.set_last_ FLIP.zero_snapshot
            (FLIP.set_first_ FLIP.zero_snapshot (flip o)));
     easing_ := easing_ o |}.

(** The calls of [cleanup]: its own, then those of
    [cleanUpAndFireEvent_]. *)
Definition cleanup_calls (el : elem) : list Call :=
  Core
  <$> [ StyleSet el "transitionDuration" (SVString "");
        StyleSet el "transitionTimingFunction" (SVString "");
        StyleSet el "transitionProperty" (SVString "");
        StyleSet el "transitionDelay" (SVString "");
        ClassListRemove el "flip-animating";
        StyleSet el "transformOrigin" SVNull;
        StyleSet el "transform" SVNull;
        StyleSet el "opacity" SVNull;
        StyleSet el "willChange" SVNull;
        DispatchEvent el
          {| Host.type := "flipComplete"; Host.detail := VNull;
             Host.bubbles := true; Host.cancelable := true |} ].

(** The helper once the frame callback has run at [time]. *)
Definition begun (time : float) (o : This) : This :=
  {| flip :=
       FLIP.set_start_ (time + FLIP.delay_ (flip o))%float (flip o);
     easing_ := easing_ o |}.

(** The calls of the frame callback. *)
Definition begin_calls (o : This) : list Call :=
  let el := FLIP.element_ (flip o) in
  Core
  <$> ([ClassListAdd el "flip-animating"]
       ++ (if FLIP.updateTransform_ (flip o)
           then [StyleSet el "transform" (SVString "")] else [])
       ++ (if FLIP.updateOpacity_ (flip o)
           then [StyleSet el "opacity" (SVString "")] else [])).

(** The state after [play_] and the next frame, at clock value [time]. *)
Definition playing (o : This) (w : World) (time : float)
    : State :=
  frame time (play_ (o, w)).2.

(** The helper once the handler of [transitionstart] has run at [time]. *)
Definition restarted (time : float) (o : This) : This :=
  {| flip := FLIP.set_start_ time (flip o); easing_ := easing_ o |}.

(** The browser dispatching [transitionstart] at the element of the
    helper, at clock value [t]; [None] is a browser that does not dispatch
    that event (the event is of CSS Transitions Level 2). *)
Definition started (start : option float) (s : State) : State :=
  match start with
  | None => s
  | Some t =>
      dispatch (at_element "transitionstart" (FLIP.element_ (flip s.1)))
        (s.1, at_time t s.2)
  end.

(** The state while the transition runs: after [play_], the next frame at
    clock value [time], and the [transitionstart] event if there is one. *)
Definition running (o : This) (w : World) (time : float)
    (start : option float) : State :=
  started start (playing o w time).

(** That state after a [transitionend] event at the element. *)
Definition ended (o : This) (w : World) (time : float)
    (start : option float) : State :=
  dispatch
    (at_element "transitionend" (FLIP.element_ (flip o)))
    (running o w time start).

End CSS.

(** ** The GSAP demo *)

Module Demo.

Section Page.

Variable boundingClientRect : list Call → elem → DOMRect.
Variable computedOpacity : list Call → elem → float.

(** The class [FLIP] as the page has set it up when the handler runs. *)
Variable statics : Statics.

(** [{ element: target, duration: 2000, easing: Bounce.easeOut,
       play: 'GSAP' }] *)
Definition config (target : elem) (Bounce_easeOut : Val) : Config.Options :=
  {| Config.element := Some target;
     Config.duration := Some 2000%float;
     Config.delay := None;
     Config.easing := Some Bounce_easeOut;
     Config.transform := None;
     Config.opacity := None;
     Config.play := Some "GSAP" |}.

(** The click handler of the target.  The helper it creates lives on in
    the completion callback it hands to the tween; it is returned next to
    the host, [None] if the constructor threw. *)
Definition onclick (target : elem) (Bounce_easeOut : Val) (w : World)
    : Outcome unit * (option Instance * World) :=
  match FLIP.constructor statics (config target Bounce_easeOut) with
  | Throw e => (Throw e, (None, w))
  | Ok flip =>
      let '(r, (flip, w)) :=
        (FLIP.first boundingClientRect computedOpacity;;
         FLIP.last boundingClientRect computedOpacity (VString "end");;
         FLIP.invert;;
         FLIP.play call None) (flip, w) in
      (r, (Some flip, w))
  end.

End Page.

End Demo.

(** ** Further scenarios *)

Module Cases.

(** Scenario A after [invert()], with [easing_] set to a number (what
    [{ easing: { getRatio: 5 } }] leaves there). *)
Definition uncallable : Instance :=
  {| FLIP.element_ := 0;
     FLIP.first_ := {| FLIP.layout := Some Scenario.rect_before;
                       FLIP.opacity := 1 |};
     FLIP.last_ := {| FLIP.layout := Some Scenario.rect_after;
                      FLIP.opacity := 0.5 |};
     FLIP.invert_ :=
       Some {| FLIP.x := -50; FLIP.y := -50; FLIP.sx := 0.5; FLIP.sy := 0.5;
               FLIP.a := -0.5 |}%float;
     FLIP.start_ := 0;
     FLIP.duration_ := 330;
     FLIP.delay_ := 0;
     FLIP.easing_ := VNumber 5;
     FLIP.updateTransform_ := true;
     FLIP.updateOpacity_ := true;
     FLIP.bound := rAF.player |}.


(** Scenario A after [invert()], as the CSS player sees it once
    [easing_] has been set to ['ease-in-out']. *)
Definition eased : CSS.This :=
  {| CSS.flip := Scenario.inverted;
     CSS.easing_ := CSS.Value (VString "ease-in-out") |}.

(** A page of the CSS player on which nothing has happened yet. *)
Definition page : CSS.World :=
  {| CSS.history := []; CSS.now := 1000; CSS.listeners := [];
     CSS.created := 0; CSS.scheduled := 0;
     CSS.hasTweenMax := false; CSS.hasTweenLite := false |}.

(** A page on which nothing has happened yet, with TweenMax loaded. *)
Definition with_TweenMax : World :=
  {| Host.history := []; Host.now := 1000;
     Host.hasTweenMax := true; Host.hasTweenLite := false |}.

(** An ease object in the style of TweenMax, with a linear ratio. *)
Definition Bounce_easeOut : Val :=
  VObject [("getRatio", VFunction (λ t, t))].

(** The delta of scenario A. *)
Definition delta : InvertDelta :=
  {| FLIP.x := -50; FLIP.y := -50; FLIP.sx := 0.5; FLIP.sy := 0.5;
     FLIP.a := -0.5 |}%float.

End Cases.

(** * Properties *)

(** ** The monad and the history *)

Lemma bind_run {St A B} (m : M St A) (k : A → M St B) (s : St) :
  (m ≫= k) s
  = match m s with
    | (Ok a, s') => k a s'
    | (Throw e, s') => (Throw e, s')
    end.
Proof. reflexivity. Qed.

Lemma records_records (cs1 cs2 : list Call) (w : World) :
  Host.records cs2 (Host.records cs1 w) = Host.records (cs1 ++ cs2) w.
Proof. unfold Host.records; simpl. by rewrite <- (assoc_L (++)). Qed.

Lemma records_nil (w : World) : Host.records [] w = w.
Proof. destruct w; unfold Host.records; simpl. by rewrite app_nil_r. Qed.

Lemma inline_style_app (h1 h2 : list Call) el p before :
  Host.inline_style (h1 ++ h2) el p before
  = Host.inline_style h2 el p (Host.inline_style h1 el p before).
Proof.
  revert before; induction h1 as [|c h1 IH]; intros before; [done|].
  destruct c; simpl; try apply IH.
  destruct (_ && _); apply IH.
Qed.

(** ** The scenarios are reached by the public methods *)

Lemma fresh_constructed :
  FLIP.constructor Scenario.statics (Scenario.options 0) = Ok Scenario.fresh.
Proof. vm_compute; reflexivity. Qed.

Lemma measured_reached :
  (FLIP.first Scenario.boundingClientRect Scenario.computedOpacity;;
   FLIP.last Scenario.boundingClientRect Scenario.computedOpacity
     (VString "end")) (Scenario.fresh, Scenario.world)
  = (Ok tt,
     (Scenario.measured,
      Host.records
        [ GetBoundingClientRect 0; GetComputedStyle 0; ClassListAdd 0 "end";
          GetBoundingClientRect 0; GetComputedStyle 0 ]
        Scenario.world)).
Proof. vm_compute; reflexivity. Qed.

Lemma revealed_reached :
  (FLIP.first Scenario.boundingClientRect_hidden Scenario.computedOpacity;;
   FLIP.last Scenario.boundingClientRect_hidden Scenario.computedOpacity
     (VString "end")) (Scenario.fresh, Scenario.world)
  = (Ok tt,
     (Scenario.revealed,
      Host.records
        [ GetBoundingClientRect 0; GetComputedStyle 0; ClassListAdd 0 "end";
          GetBoundingClientRect 0; GetComputedStyle 0 ]
        Scenario.world)).
Proof. vm_compute; reflexivity. Qed.

Lemma members_constructed :
  Group.group Scenario.statics
    (Some [Scenario.options 0; Scenario.options 1; Scenario.options 2])
  = Ok Scenario.members.
Proof. vm_compute; reflexivity. Qed.

(** ** [invert] *)

(** With both snapshots set, [invert()] succeeds and replaces the delta;
    the styles it writes depend on the two switches. *)
Lemma invert_computes_delta_aux (o : Instance) (w : World)
    (f l : DOMRect) (prior : InvertDelta) :
  FLIP.layout (FLIP.first_ o) = Some f →
  FLIP.layout (FLIP.last_ o) = Some l →
  FLIP.invert_ o = Some prior →
  ∃ w',
    FLIP.invert (o, w)
    = (Ok tt,
       (FLIP.set_invert_
          (Some {| FLIP.x := Host.left f - Host.left l;
                   FLIP.y := Host.top f - Host.top l;
                   FLIP.sx := Host.width f / Host.width l;
                   FLIP.sy := Host.height f / Host.height l;
                   FLIP.a := FLIP.opacity (FLIP.last_ o)
                             - FLIP.opacity (FLIP.first_ o) |}%float) o,
        w')).
Proof.
  intros Hf Hl Hi. unfold FLIP.invert, mbind, M_bind, FLIP.this; simpl.
  rewrite Hf, Hl, Hi.
  destruct (FLIP.updateTransform_ o), (FLIP.updateOpacity_ o);
    simpl; eexists; reflexivity.
Qed.

(** C1: with both snapshots set, [invert()] stores exactly
    translate = first.position - last.position,
    scale = first.size / last.size and
    opacityDelta = last.opacity - first.opacity, whatever delta was stored
    before: the delta read back from the instance afterwards is that one.
    No other field of the instance changes, and the outcome, with the
    styles written, is a function of the instance. *)
Theorem invert_computes_delta (o : Instance) (w : World)
    (f l : DOMRect) (prior : InvertDelta) :
  FLIP.layout (FLIP.first_ o) = Some f →
  FLIP.layout (FLIP.last_ o) = Some l →
  FLIP.invert_ o = Some prior →
  let delta :=
    {| FLIP.x := Host.left f - Host.left l;
       FLIP.y := Host.top f - Host.top l;
       FLIP.sx := Host.width f / Host.width l;
       FLIP.sy := Host.height f / Host.height l;
       FLIP.a := FLIP.opacity (FLIP.last_ o)
                 - FLIP.opacity (FLIP.first_ o) |}%float in
  ∃ o',
    FLIP.invert (o, w)
    = (Ok tt,
       (o',
        Host.records
          ((if FLIP.updateTransform_ o
            then [ StyleSet (FLIP.element_ o) "transformOrigin"
                     (SVString "0 0");
                   StyleSet (FLIP.element_ o) "transform"
                     (SVTransform (FLIP.x delta) (FLIP.y delta)
                                  (FLIP.sx delta) (FLIP.sy delta)) ]
            else [])
           ++ (if FLIP.updateOpacity_ o
               then [ StyleSet (FLIP.element_ o) "opacity"
                        (SVNumber (FLIP.opacity (FLIP.first_ o))) ]
               else [])
           ++ [ StyleSet (FLIP.element_ o) "willChange"
                  (SVString
                     (String.concat ","
                        ((if FLIP.updateTransform_ o then ["transform"]
                          else [])
                         ++ (if FLIP.updateOpacity_ o then ["opacity"]
                             else [])))) ])
          w))
    ∧ FLIP.invert_ o' = Some delta
    ∧ FLIP.element_ o' = FLIP.element_ o
    ∧ FLIP.first_ o' = FLIP.first_ o
    ∧ FLIP.last_ o' = FLIP.last_ o
    ∧ FLIP.start_ o' = FLIP.start_ o
    ∧ FLIP.duration_ o' = FLIP.duration_ o
    ∧ FLIP.delay_ o' = FLIP.delay_ o
    ∧ FLIP.easing_ o' = FLIP.easing_ o
    ∧ FLIP.updateTransform_ o' = FLIP.updateTransform_ o
    ∧ FLIP.updateOpacity_ o' = FLIP.updateOpacity_ o
    ∧ FLIP.bound o' = FLIP.bound o.
Proof.
  intros Hf Hl Hi delta.
  exists (FLIP.set_invert_ (Some delta) o). split; [|by repeat split].
  unfold FLIP.invert, mbind, M_bind, FLIP.this; simpl.
  rewrite Hf, Hl, Hi.
  destruct (FLIP.updateTransform_ o), (FLIP.updateOpacity_ o); simpl;
    unfold FLIP.host, Host.record; simpl;
    by rewrite ?records_records.
Qed.

Lemma invert_computes_delta_scenario_A :
  ∃ o',
    FLIP.invert (Scenario.measured, Scenario.world)
    = (Ok tt,
       (o',
        Host.records
          [ StyleSet 0 "transformOrigin" (SVString "0 0");
            StyleSet 0 "transform" (SVTransform (-50) (-50) 0.5 0.5);
            StyleSet 0 "opacity" (SVNumber 1);
            StyleSet 0 "willChange" (SVString "transform,opacity") ]
          Scenario.world))
    ∧ FLIP.invert_ o'
      = Some {| FLIP.x := -50; FLIP.y := -50; FLIP.sx := 0.5;
                FLIP.sy := 0.5; FLIP.a := -0.5 |}%float
    ∧ FLIP.element_ o' = 0
    ∧ FLIP.first_ o'
      = {| FLIP.layout := Some Scenario.rect_before; FLIP.opacity := 1 |}
    ∧ FLIP.last_ o'
      = {| FLIP.layout := Some Scenario.rect_after; FLIP.opacity := 0.5 |}
    ∧ FLIP.start_ o' = 0%float
    ∧ FLIP.duration_ o' = 330%float
    ∧ FLIP.delay_ o' = 0%float
    ∧ FLIP.easing_ o' = VFunction (λ t, t)
    ∧ FLIP.updateTransform_ o' = true
    ∧ FLIP.updateOpacity_ o' = true
    ∧ FLIP.bound o' = rAF.player.
Proof.
  apply (invert_computes_delta Scenario.measured Scenario.world
           Scenario.rect_before Scenario.rect_after FLIP.identity_delta);
    reflexivity.
Defined.

(** C3: when the first snapshot is missing, or the last one is,
    [invert()] throws the sequencing error that names the missing
    snapshot; the instance (its delta included) and the host (no style is
    written) are left as they were. *)
Theorem invert_requires_both_snapshots (o : Instance) (w : World) :
  FLIP.layout (FLIP.first_ o) = None ∨ FLIP.layout (FLIP.last_ o) = None →
  FLIP.invert (o, w)
  = (Throw (Error (if FLIP.layout (FLIP.first_ o) is None
                   then "You must call first() before invert()"
                   else "You must call last() before invert()")),
     (o, w)).
Proof.
  unfold FLIP.invert, mbind, M_bind, FLIP.this; simpl.
  intros [H|H].
  - by rewrite H.
  - rewrite H. by destruct (FLIP.layout (FLIP.first_ o)).
Qed.

Lemma invert_requires_both_snapshots_scenario_C :
  FLIP.invert (Scenario.fresh, Scenario.world)
  = (Throw (Error "You must call first() before invert()"),
     (Scenario.fresh, Scenario.world)).
Proof.
  apply (invert_requires_both_snapshots Scenario.fresh Scenario.world).
  left; reflexivity.
Defined.

(** ** The completion routine *)

(** C4: [cleanUpAndFireEvent_()] assigns [null] to the transformOrigin,
    transform, opacity and willChange styles of the element, resets both
    snapshots to a null layout and opacity 0 and the delta to
    {x:0, y:0, sx:1, sy:1, a:0}, which are the values any constructed
    instance starts with, and then dispatches one [flipComplete] event. *)
Theorem cleanUpAndFireEvent__resets (o : Instance) (w : World)
    (prior : InvertDelta) :
  FLIP.invert_ o = Some prior →
  ∃ o' w',
    FLIP.cleanUpAndFireEvent_ (o, w) = (Ok tt, (o', w'))
    ∧ Host.history w'
      = Host.history w
        ++ [ StyleSet (FLIP.element_ o) "transformOrigin" SVNull;
             StyleSet (FLIP.element_ o) "transform" SVNull;
             StyleSet (FLIP.element_ o) "opacity" SVNull;
             StyleSet (FLIP.element_ o) "willChange" SVNull;
             DispatchEvent (FLIP.element_ o)
               {| Host.type := "flipComplete"; Host.detail := VNull;
                  Host.bubbles := true; Host.cancelable := true |} ]
    ∧ (∀ property before,
         property ∈ ["transformOrigin"; "transform"; "opacity"; "willChange"] →
         Host.inline_style (Host.history w') (FLIP.element_ o) property before
         = Some SVNull)
    ∧ FLIP.first_ o' = {| FLIP.layout := None; FLIP.opacity := 0 |}
    ∧ FLIP.last_ o' = {| FLIP.layout := None; FLIP.opacity := 0 |}
    ∧ FLIP.invert_ o'
      = Some {| FLIP.x := 0; FLIP.y := 0; FLIP.sx := 1; FLIP.sy := 1;
                FLIP.a := 0 |}
    ∧ (∀ statics options new,
         FLIP.constructor statics options = Ok new →
         FLIP.first_ o' = FLIP.first_ new
         ∧ FLIP.last_ o' = FLIP.last_ new
         ∧ FLIP.invert_ o' = FLIP.invert_ new).
Proof.
  intros Hi.
  unfold FLIP.cleanUpAndFireEvent_, FLIP.removeTransformsAndOpacity_,
    FLIP.resetFirstLastAndInvertValues_, FLIP.fire_, mbind, M_bind,
    FLIP.this, FLIP.update, FLIP.host; simpl.
  rewrite Hi; simpl.
  eexists _, _; split; [reflexivity|].
  split; [simpl; by rewrite <- !(assoc_L (++))|].
  split.
  - intros property before Hp. simpl.
    rewrite <- !(assoc_L (++)); simpl. rewrite inline_style_app; simpl.
    rewrite Nat.eqb_refl; simpl.
    repeat (apply elem_of_cons in Hp as [->|Hp]; [reflexivity|]).
    by apply elem_of_nil in Hp.
  - repeat split; try reflexivity.
    all: unfold FLIP.constructor in *;
      repeat (case_match; try discriminate); by simplify_eq.
Qed.

Lemma cleanUpAndFireEvent__resets_scenario_A :
  ∃ o' w',
    FLIP.cleanUpAndFireEvent_ (Scenario.playing, Scenario.frame_at 1330)
    = (Ok tt, (o', w'))
    ∧ Host.history w'
      = Host.history (Scenario.frame_at 1330)
        ++ [ StyleSet 0 "transformOrigin" SVNull;
             StyleSet 0 "transform" SVNull;
             StyleSet 0 "opacity" SVNull;
             StyleSet 0 "willChange" SVNull;
             DispatchEvent 0
               {| Host.type := "flipComplete"; Host.detail := VNull;
                  Host.bubbles := true; Host.cancelable := true |} ]
    ∧ (∀ property before,
         property ∈ ["transformOrigin"; "transform"; "opacity"; "willChange"] →
         Host.inline_style (Host.history w') 0 property before = Some SVNull)
    ∧ FLIP.first_ o' = {| FLIP.layout := None; FLIP.opacity := 0 |}
    ∧ FLIP.last_ o' = {| FLIP.layout := None; FLIP.opacity := 0 |}
    ∧ FLIP.invert_ o'
      = Some {| FLIP.x := 0; FLIP.y := 0; FLIP.sx := 1; FLIP.sy := 1;
                FLIP.a := 0 |}
    ∧ (∀ statics options new,
         FLIP.constructor statics options = Ok new →
         FLIP.first_ o' = FLIP.first_ new
         ∧ FLIP.last_ o' = FLIP.last_ new
         ∧ FLIP.invert_ o' = FLIP.invert_ new).
Proof.
  apply (cleanUpAndFireEvent__resets Scenario.playing
           (Scenario.frame_at 1330)
           {| FLIP.x := -50; FLIP.y := -50; FLIP.sx := 0.5; FLIP.sy := 0.5;
              FLIP.a := -0.5 |}%float).
  reflexivity.
Defined.

(** ** [play] *)

(** The constructor stores a delta object in [invert_]. *)
Lemma constructor_invert_ (statics : Statics) (options : Config.Options)
    (o : Instance) :
  FLIP.constructor statics options = Ok o →
  FLIP.invert_ o = Some FLIP.identity_delta.
Proof.
  unfold FLIP.constructor.
  repeat (case_match; try discriminate). by intros [= <-].
Qed.

(** With an object in [invert_], [play] goes on to the bound player. *)
Lemma play_guard_is_dead (o : Instance) (w : World) (delta : InvertDelta)
    (startTime : option float) :
  FLIP.invert_ o = Some delta →
  FLIP.play call startTime (o, w)
  = match FLIP.bound o !! "play_" with
    | None => (Throw (Error "No player specified."), (o, w))
    | Some play_ => call play_ startTime (o, w)
    end.
Proof.
  intros Hi. unfold FLIP.play, mbind, M_bind, FLIP.this; simpl.
  rewrite Hi. by destruct (FLIP.bound o !! "play_").
Qed.

(** No method stores [null] in [invert_]. *)
Create HintDb keeps discriminated.

Lemma keeps_bind {A B} (m : M FLIP.State A) (k : A → M FLIP.State B) :
  Life.keeps_delta m → (∀ a, Life.keeps_delta (k a)) →
  Life.keeps_delta (m ≫= k).
Proof.
  intros Hm Hk s Hs. rewrite bind_run. specialize (Hm s Hs).
  destruct (m s) as [[a|e] s']; [by apply Hk|done].
Qed.

Lemma keeps_ret {A} (a : A) : Life.keeps_delta (mret a).
Proof. by intros s Hs. Qed.

Lemma keeps_throw {A} (e : JS.Exn) : Life.keeps_delta (throw (A := A) e).
Proof. by intros s Hs. Qed.

Lemma keeps_this : Life.keeps_delta FLIP.this.
Proof. by intros s Hs. Qed.

Lemma keeps_host (c : Call) : Life.keeps_delta (FLIP.host c).
Proof. by intros s Hs. Qed.

Lemma keeps_performance_now : Life.keeps_delta FLIP.performance_now.
Proof. by intros s Hs. Qed.

Lemma keeps_update (f : Instance → Instance) :
  (∀ o, FLIP.invert_ (f o) = FLIP.invert_ o) → Life.keeps_delta (FLIP.update f).
Proof. intros Hf s Hs. simpl. by rewrite Hf. Qed.

Lemma keeps_update_delta (delta : InvertDelta) :
  Life.keeps_delta (FLIP.update (FLIP.set_invert_ (Some delta))).
Proof. by intros s Hs. Qed.

#[local] Hint Resolve keeps_ret keeps_throw keeps_this keeps_host
  keeps_performance_now keeps_update_delta : keeps.

Ltac keeps :=
  repeat first
    [ progress intros
    | apply keeps_bind
    | apply keeps_update; reflexivity
    | solve [auto with keeps]
    | case_match ].

Lemma keeps_classList_add el token :
  Life.keeps_delta (FLIP.classList_add el token).
Proof. unfold FLIP.classList_add. keeps. Qed.

Lemma keeps_classList_remove el token :
  Life.keeps_delta (FLIP.classList_remove el token).
Proof. unfold FLIP.classList_remove. keeps. Qed.

#[local] Hint Resolve keeps_classList_add keeps_classList_remove : keeps.

Lemma keeps_addClass className : Life.keeps_delta (FLIP.addClass className).
Proof. unfold FLIP.addClass. keeps. Qed.

Lemma keeps_removeClass className :
  Life.keeps_delta (FLIP.removeClass className).
Proof. unfold FLIP.removeClass. keeps. Qed.

#[local] Hint Resolve keeps_addClass keeps_removeClass : keeps.

Lemma keeps_invert : Life.keeps_delta FLIP.invert.
Proof. unfold FLIP.invert. keeps. Qed.

Lemma keeps_cleanUpAndFireEvent_ : Life.keeps_delta FLIP.cleanUpAndFireEvent_.
Proof.
  unfold FLIP.cleanUpAndFireEvent_, FLIP.removeTransformsAndOpacity_,
    FLIP.resetFirstLastAndInvertValues_, FLIP.fire_.
  keeps.
Qed.

#[local] Hint Resolve keeps_invert keeps_cleanUpAndFireEvent_ : keeps.

Lemma keeps_call fn startTime : Life.keeps_delta (call fn startTime).
Proof.
  destruct fn; unfold call, rAF.play_, rAF.update_, GSAP.play_,
    rAF.requestAnimationFrame_update_.
  1-2,4: keeps.
  apply keeps_bind; [auto with keeps|intros t].
  apply keeps_bind; [|keeps].
  repeat case_match; try solve [auto with keeps].
  all: intros [o w] Hs; unfold GSAP.global; simpl; by case_match.
Qed.

#[local] Hint Resolve keeps_call : keeps.

Section Keeps.

Variable boundingClientRect : list Call → elem → DOMRect.
Variable computedOpacity : list Call → elem → float.

Lemma keeps_first :
  Life.keeps_delta (FLIP.first boundingClientRect computedOpacity).
Proof.
  unfold FLIP.first. keeps.
  all: by intros s Hs.
Qed.

Lemma keeps_last lastClassName :
  Life.keeps_delta (FLIP.last boundingClientRect computedOpacity lastClassName).
Proof.
  unfold FLIP.last. keeps.
  all: by intros s Hs.
Qed.

Lemma keeps_run (m : Life.Method) :
  Life.keeps_delta (Life.run boundingClientRect computedOpacity m).
Proof.
  destruct m; simpl; auto using keeps_first, keeps_last with keeps.
  - unfold FLIP.snapshot. keeps; auto using keeps_first, keeps_last.
  - unfold FLIP.play. keeps.
  - apply (keeps_call rAF_update_ None).
Qed.

(** From the constructor on, [invert_] holds an object, whatever runs on
    the instance and in whatever order. *)
Lemma invert__never_null (ms : list Life.Method) (s : FLIP.State) :
  is_Some (FLIP.invert_ s.1) →
  is_Some (FLIP.invert_
             (Life.run_all boundingClientRect computedOpacity ms s).1).
Proof.
  revert s; induction ms as [|m ms IH]; intros s Hs; [done|].
  simpl. apply IH. by apply keeps_run.
Qed.

(** Hence the guard of [play] on [this.invert_ === null] never fires:
    whatever was called on a constructed instance, [invert()] or not,
    [play()] goes on to the player. *)
Lemma play_never_asks_for_invert (statics : Statics)
    (options : Config.Options) (o : Instance) (w : World)
    (ms : list Life.Method) (startTime : option float) :
  FLIP.constructor statics options = Ok o →
  let s := Life.run_all boundingClientRect computedOpacity ms (o, w) in
  FLIP.play call startTime s
  = match FLIP.bound s.1 !! "play_" with
    | None => (Throw (Error "No player specified."), s)
    | Some play_ => call play_ startTime s
    end.
Proof.
  intros Ho s.
  destruct (invert__never_null ms (o, w)) as [delta Hdelta].
  { simpl. rewrite (constructor_invert_ _ _ _ Ho). by eexists. }
  destruct s as [o' w'] eqn:Es; subst s.
  rewrite Es in Hdelta. by apply play_guard_is_dead with delta.
Qed.

End Keeps.

(** C2, on the code: [play()] on a helper that was just constructed, with
    no call of [invert()], does not throw; it hands over to the player,
    which sets the start time and schedules the first frame. *)
Theorem play_without_invert_delegates :
  FLIP.constructor Scenario.statics (Scenario.options 0) = Ok Scenario.fresh
  ∧ FLIP.play call None (Scenario.fresh, Scenario.world)
    = (Ok tt,
       (FLIP.set_start_ 1000 Scenario.fresh,
        Host.record (RequestAnimationFrame (BoundPlayerFn rAF_update_))
          Scenario.world)).
Proof. split; vm_compute; reflexivity. Qed.

(** ** The GSAP player *)

(** C5, on the code: the two availability tests take [typeof] of a string
    literal, so both are true whatever the page defines.  [play_] reads the
    global [TweenMax] unconditionally; without it the read throws a
    [ReferenceError], [TweenLite] is never tried, and the error
    "GSAP requested, but TweenMax/Lite not available." is never thrown. *)
Theorem GSAP_play__outcome (startTime : option float) (o : Instance)
    (w : World) :
  (GSAP.play_ startTime (o, w)).1
  = if Host.hasTweenMax w then Ok tt
    else Throw (ReferenceError "TweenMax is not defined").
Proof.
  unfold GSAP.play_, mbind, M_bind, FLIP.performance_now, GSAP.global,
    FLIP.this, FLIP.host; simpl.
  by destruct (Host.hasTweenMax w).
Qed.

Lemma GSAP_play__without_engine :
  GSAP.play_ None (Scenario.fresh, Scenario.world)
  = (Throw (ReferenceError "TweenMax is not defined"),
     (Scenario.fresh, Scenario.world)).
Proof. reflexivity. Qed.

(** ** The player registry *)

Lemma assign_wf registry name player :
  registry_wf registry → registry_wf (FLIP.assign registry name player).
Proof.
  unfold registry_wf, FLIP.assign. intros Hwf.
  destruct (String.eqb_spec name "__proto__") as [->|Hne]; simpl; [done|].
  by rewrite lookup_insert_ne.
Qed.

Lemma lookup_assign_eq registry name player :
  registry_wf registry →
  FLIP.lookup (FLIP.assign registry name player) name
  = Some (Registered player).
Proof.
  unfold registry_wf, FLIP.assign, FLIP.lookup. intros Hwf.
  destruct (String.eqb_spec name "__proto__") as [->|Hne]; simpl.
  - by rewrite Hwf.
  - by rewrite lookup_insert_eq.
Qed.

Lemma lookup_assign_ne registry name name' player player' :
  name ≠ name' →
  FLIP.lookup registry name = Some (Registered player) →
  FLIP.lookup (FLIP.assign registry name' player') name
  = Some (Registered player).
Proof.
  unfold FLIP.assign, FLIP.lookup. intros Hne.
  destruct (String.eqb_spec name' "__proto__") as [->|Hne']; simpl.
  - destruct (FLIP.own registry !! name); [done|].
    destruct (String.eqb_spec name "__proto__") as [->|_]; [done|].
    intros H. repeat case_match; simplify_eq.
  - rewrite lookup_insert_ne by done.
    destruct (FLIP.own registry !! name); done.
Qed.

Lemma extend_wf name player statics :
  statics_wf statics → statics_wf (FLIP.extend name player statics).
Proof.
  unfold statics_wf, FLIP.extend; simpl. intros Hwf registry [= <-].
  apply assign_wf. destruct (FLIP.players_ statics); [by apply Hwf|done].
Qed.

Lemma extend_all_wf calls statics :
  statics_wf statics → statics_wf (Run.extend_all calls statics).
Proof.
  revert statics; induction calls as [|[n p] calls IH]; intros statics Hwf;
    [done|].
  apply IH, extend_wf, Hwf.
Qed.

Lemma extend_registers name player statics :
  statics_wf statics → registered (FLIP.extend name player statics) name player.
Proof.
  intros Hwf. unfold registered, FLIP.extend; simpl.
  eexists; split; [reflexivity|].
  assert (registry_wf match FLIP.players_ statics with
                      | Some registry => registry
                      | None => FLIP.empty_registry
                      end) as Hwf'.
  { destruct (FLIP.players_ statics) eqn:E; [by apply Hwf|done]. }
  split; [by apply assign_wf|by apply lookup_assign_eq].
Qed.

Lemma extend_keeps name player name' player' statics :
  name ≠ name' →
  registered statics name player →
  registered (FLIP.extend name' player' statics) name player.
Proof.
  intros Hne (registry & Hr & Hwf & Hl). unfold registered, FLIP.extend.
  rewrite Hr; simpl. eexists; split; [reflexivity|].
  split; [by apply assign_wf|by apply lookup_assign_ne].
Qed.

Lemma extend_all_latest later name player statics :
  registered statics name player →
  registered (Run.extend_all later statics) name (Run.latest name player later).
Proof.
  revert statics player; induction later as [|[n p] later IH];
    intros statics player Hreg; [done|].
  simpl. apply IH.
  destruct (String.eqb_spec n name) as [->|Hne].
  - destruct Hreg as (registry & Hr & Hwf & _).
    apply extend_registers. intros r Hr'. by simplify_eq.
  - by apply extend_keeps.
Qed.

(** C10: in every run of the registry, once [extend(name, player)] has
    been called, looking [name] up afterwards finds a registered player,
    and that player is the one given by the most recent call of [extend]
    for [name]: a later registration replaces the earlier one, and nothing
    removes one. *)
Theorem extend_last_registration_wins
    (before later : list (string * Player)) (name : string)
    (player : Player) :
  Run.find (Run.extend_all (before ++ (name, player) :: later) Run.initial)
           name
  = Some (Registered (Run.latest name player later)).
Proof.
  unfold Run.extend_all. rewrite foldl_app; simpl.
  fold (Run.extend_all before Run.initial).
  fold (Run.extend_all later
          (FLIP.extend name player (Run.extend_all before Run.initial))).
  destruct (extend_all_latest later name player
              (FLIP.extend name player (Run.extend_all before Run.initial)))
    as (registry & Hr & _ & Hl).
  { apply extend_registers, extend_all_wf. by intros r. }
  unfold Run.find. by rewrite Hr.
Qed.

(** ** The constructor *)

(** When [FLIP.players_[name]] is [undefined]: no player is registered
    under [name], and [name] is not inherited through the prototype chain of
    the registry object. *)
Lemma lookup_None (registry : Registry) (name : string) :
  FLIP.lookup registry name = None
  ↔ FLIP.own registry !! name = None
    ∧ name ≠ "__proto__"
    ∧ FLIP.in_Object_prototype name = false
    ∧ (∀ player, FLIP.proto registry = Some player → player !! name = None).
Proof.
  unfold FLIP.lookup. split.
  - intros H. destruct (FLIP.own registry !! name); [done|].
    destruct (String.eqb_spec name "__proto__") as [Heq|Hne].
    { by destruct (FLIP.proto registry). }
    destruct (FLIP.proto registry) as [player|].
    + destruct (player !! name) eqn:E; [done|].
      destruct (FLIP.in_Object_prototype name); [done|].
      repeat split; try done. by intros ? [= <-].
    + destruct (FLIP.in_Object_prototype name); done.
  - intros (-> & Hne & -> & Hp).
    destruct (String.eqb_spec name "__proto__"); [done|].
    destruct (FLIP.proto registry) as [player|]; [|done].
    by rewrite (Hp player).
Qed.

(** C7, on the code: an easing object whose [getRatio] is defined but is
    not a function is accepted (the constructor only tests that the
    property is not [undefined]), and so is a player name that the registry
    object inherits from [Object.prototype]; in both cases an instance is
    returned. *)
Lemma constructor_accepts_unusable_config :
  FLIP.constructor Scenario.statics Scenario.options_getRatio_5
  = Ok {| FLIP.element_ := 0;
          FLIP.first_ := FLIP.zero_snapshot;
          FLIP.last_ := FLIP.zero_snapshot;
          FLIP.invert_ := Some FLIP.identity_delta;
          FLIP.start_ := 0;
          FLIP.duration_ := 330;
          FLIP.delay_ := 0;
          FLIP.easing_ := VNumber 5;
          FLIP.updateTransform_ := true;
          FLIP.updateOpacity_ := true;
          FLIP.bound := rAF.player |}
  ∧ FLIP.constructor Scenario.statics (Scenario.options_play "toString")
    = Ok {| FLIP.element_ := 0;
            FLIP.first_ := FLIP.zero_snapshot;
            FLIP.last_ := FLIP.zero_snapshot;
            FLIP.invert_ := Some FLIP.identity_delta;
            FLIP.start_ := 0;
            FLIP.duration_ := 330;
            FLIP.delay_ := 0;
            FLIP.easing_ := VFunction (λ t, t);
            FLIP.updateTransform_ := true;
            FLIP.updateOpacity_ := true;
            FLIP.bound := ∅ |}.
Proof. split; vm_compute; reflexivity. Qed.

(** Where the constructor does reject a configuration, and with which
    error, in the order of its checks: a missing element; an easing value
    that is not a function and whose [getRatio] is [undefined] (reading the
    property off [null] or [undefined] throws the engine's [TypeError]
    instead); a player name for which [FLIP.players_[name]] is
    [undefined]. *)
Lemma constructor_rejects (statics : Statics) (options : Config.Options) :
  let name := default "rAF" (Config.play options) in
  (Config.element options = None →
   FLIP.constructor statics options
   = Throw (Error "Element must be provided."))
  ∧ (∀ el easing,
       Config.element options = Some el →
       Config.easing options = Some easing →
       JS.typeof easing ≠ "function" →
       JS.get easing "getRatio" = inr VUndefined →
       FLIP.constructor statics options
       = Throw (Error "Easing function must be provided."))
  ∧ (∀ el easing e,
       Config.element options = Some el →
       Config.easing options = Some easing →
       JS.typeof easing ≠ "function" →
       JS.get easing "getRatio" = inl e →
       FLIP.constructor statics options = Throw e)
  ∧ (∀ el easing registry,
       Config.element options = Some el →
       FLIP.resolve_easing
         (default (VFunction (λ t, t)) (Config.easing options))
       = Ok easing →
       FLIP.players_ statics = Some registry →
       FLIP.lookup registry name = None →
       FLIP.constructor statics options
       = Throw (Error ("Unknown player type: " +:+ name))).
Proof.
  intros name. unfold FLIP.constructor. fold name.
  split; [|split; [|split]].
  - by intros ->.
  - intros el easing -> -> Hty Hget. simpl. unfold FLIP.resolve_easing.
    destruct (String.eqb_spec (JS.typeof easing) "function"); [done|].
    by rewrite Hget.
  - intros el easing e -> -> Hty Hget. simpl. unfold FLIP.resolve_easing.
    destruct (String.eqb_spec (JS.typeof easing) "function"); [done|].
    by rewrite Hget.
  - intros el easing registry -> -> -> Hname. by rewrite Hname.
Qed.

Lemma constructor_rejects_scenario_B :
  FLIP.constructor Scenario.statics (Scenario.options_play "bogus")
  = Throw (Error "Unknown player type: bogus").
Proof.
  destruct (constructor_rejects Scenario.statics
              (Scenario.options_play "bogus")) as (_ & _ & _ & H).
  by eapply H.
Qed.

(** [new FLIP({ element: 0, play: undefined })]: the property is present,
    so the default does not apply, and the name looked up is
    ["undefined"]. *)
Lemma constructor_play_undefined :
  FLIP.constructor Scenario.statics (Scenario.options_play "undefined")
  = Throw (Error "Unknown player type: undefined").
Proof. vm_compute; reflexivity. Qed.

(** C7, on the code: two of the checks the claim describes are not the
    checks the constructor makes.  An easing value that is not a function
    is accepted as soon as its [getRatio] is not [undefined], whatever that
    property is, and [easing_] is then that property; a player name is
    accepted as soon as [FLIP.players_[name]] is not [undefined], so a name
    that the registry object inherits from [Object.prototype] is accepted
    without having been registered, and no function is bound. *)
Theorem constructor_misses_checks (statics : Statics)
    (options : Config.Options) :
  let name := default "rAF" (Config.play options) in
  (∀ el easing getRatio registry entry,
     Config.element options = Some el →
     Config.easing options = Some easing →
     JS.typeof easing ≠ "function" →
     JS.get easing "getRatio" = inr getRatio →
     JS.typeof getRatio ≠ "undefined" →
     FLIP.players_ statics = Some registry →
     FLIP.lookup registry name = Some entry →
     ∃ o,
       FLIP.constructor statics options = Ok o
       ∧ FLIP.easing_ o = getRatio
       ∧ FLIP.bound o = FLIP.bind_all entry)
  ∧ (∀ el easing registry,
       Config.element options = Some el →
       FLIP.resolve_easing
         (default (VFunction (λ t, t)) (Config.easing options))
       = Ok easing →
       FLIP.players_ statics = Some registry →
       FLIP.own registry !! name = None →
       FLIP.in_Object_prototype name = true →
       ∃ o,
         FLIP.constructor statics options = Ok o
         ∧ FLIP.easing_ o = easing
         ∧ FLIP.bound o = ∅).
Proof.
  intros name. unfold FLIP.constructor. fold name. split.
  - intros el easing getRatio registry entry -> -> Hty Hget Hdef -> ->.
    simpl. unfold FLIP.resolve_easing.
    destruct (String.eqb_spec (JS.typeof easing) "function"); [done|].
    rewrite Hget.
    destruct (String.eqb_spec (JS.typeof getRatio) "undefined"); [done|].
    simpl. eexists. by repeat split.
  - intros el easing registry -> -> -> Hown Hin.
    assert (FLIP.lookup registry name = Some Inherited) as ->.
    { unfold FLIP.lookup. rewrite Hown.
      destruct (String.eqb_spec name "__proto__") as [->|_]; [done|].
      rewrite Hin. by repeat case_match. }
    eexists. by repeat split.
Qed.

Lemma constructor_misses_checks_scenario_B :
  (∃ o,
     FLIP.constructor Scenario.statics Scenario.options_getRatio_5 = Ok o
     ∧ FLIP.easing_ o = VNumber 5
     ∧ FLIP.bound o = FLIP.bind_all (Registered rAF.player))
  ∧ (∃ o,
       FLIP.constructor Scenario.statics (Scenario.options_play "toString")
       = Ok o
       ∧ FLIP.easing_ o = VFunction (λ t, t)
       ∧ FLIP.bound o = ∅).
Proof.
  split.
  - apply (proj1 (constructor_misses_checks Scenario.statics
                    Scenario.options_getRatio_5)
             0 (VObject [("getRatio", VNumber 5)]) (VNumber 5)
             (default FLIP.empty_registry
                (FLIP.players_ Scenario.statics))
             (Registered rAF.player));
      try reflexivity; discriminate.
  - apply (proj2 (constructor_misses_checks Scenario.statics
                    (Scenario.options_play "toString"))
             0 (VFunction (λ t, t))
             (default FLIP.empty_registry
                (FLIP.players_ Scenario.statics)));
      reflexivity.
Defined.

(** Conversely, a configuration that meets none of the three conditions
    is accepted. *)
Lemma constructor_accepts (statics : Statics) (options : Config.Options)
    (e : JS.Exn) :
  FLIP.constructor statics options = Throw e →
  Config.element options = None
  ∨ (∃ easing,
       Config.easing options = Some easing
       ∧ JS.typeof easing ≠ "function"
       ∧ ∀ getRatio, JS.get easing "getRatio" = inr getRatio →
                     getRatio = VUndefined)
  ∨ Run.find statics (default "rAF" (Config.play options)) = None.
Proof.
  unfold FLIP.constructor, Run.find.
  destruct (Config.element options) as [el|]; [|by left].
  destruct (FLIP.resolve_easing _) as [easing|e'] eqn:Hres.
  - destruct (FLIP.players_ statics) as [registry|]; simpl; [|by auto].
    destruct (FLIP.lookup registry _); [done|by auto].
  - intros _. right; left.
    destruct (Config.easing options) as [easing|]; simpl in Hres; [|done].
    exists easing. split; [done|].
    unfold FLIP.resolve_easing in Hres.
    destruct (String.eqb_spec (JS.typeof easing) "function"); [done|].
    split; [done|]. intros g Hg. rewrite Hg in Hres.
    destruct g; simpl in Hres; done.
Qed.

(** ** The group coordinator *)

Section GroupLast.

Variable boundingClientRect : list Call → elem → DOMRect.
Variable computedOpacity : list Call → elem → float.

Lemma className_at_class_of lastClassName index :
  Group.className_at lastClassName index = Pass.class_of lastClassName index.
Proof.
  destruct lastClassName as [| |names]; simpl; try done.
  by destruct (names !! index) as [[|]|].
Qed.

(** A member's [last()] without argument: two queries, no mutation of the
    document. *)
Lemma last_undefined (o : Instance) (w : World) :
  FLIP.last boundingClientRect computedOpacity VUndefined (o, w)
  = (Ok tt,
     (FLIP.set_last_
        {| FLIP.layout :=
             Some (boundingClientRect (Host.history w) (FLIP.element_ o));
           FLIP.opacity :=
             computedOpacity
               (Host.history w ++ [GetBoundingClientRect (FLIP.element_ o)])
               (FLIP.element_ o) |} o,
      Host.records (Pass.queries o) w)).
Proof.
  unfold FLIP.last, mbind, M_bind; simpl.
  unfold Host.record. by rewrite records_records.
Qed.

Lemma first_pass (lastClassName : Group.ClassNames) (flips : list Instance)
    (index : nat) (w : World) :
  (∀ i className,
     index ≤ i < index + length flips →
     Pass.class_of lastClassName i = Some className →
     Host.validate_token className = None) →
  forEach (λ index,
      flip ← FLIP.this;
      match Group.className_at lastClassName index with
      | Some className => FLIP.classList_add (FLIP.element_ flip) className
      | None => mret tt
      end) index flips w
  = (Ok tt, (flips, Host.records (Pass.additions lastClassName index flips) w)).
Proof.
  revert index w; induction flips as [|flip rest IH]; intros index w Hvalid.
  { simpl. by rewrite records_nil. }
  simpl. unfold mbind at 1, M_bind at 1, FLIP.this at 1; simpl.
  rewrite className_at_class_of.
  destruct (Pass.class_of lastClassName index) as [className|] eqn:Hc.
  - unfold FLIP.classList_add.
    rewrite (Hvalid index className) by (simpl; done || lia).
    unfold FLIP.host; simpl.
    rewrite IH by (intros i c Hi; apply Hvalid; simpl; lia).
    unfold Host.record. by rewrite records_records.
  - simpl. rewrite IH by (intros i c Hi; apply Hvalid; simpl; lia).
    done.
Qed.

Lemma second_pass (flips : list Instance) (index : nat) (w : World) :
  forEach (λ _, FLIP.last boundingClientRect computedOpacity VUndefined)
          index flips w
  = (Ok tt,
     (Pass.measure_all boundingClientRect computedOpacity
        (Host.history w) flips,
      Host.records (Pass.measurements flips) w)).
Proof.
  revert index w; induction flips as [|flip rest IH]; intros index w.
  { simpl. by rewrite records_nil. }
  cbn [forEach]. rewrite last_undefined, IH.
  by rewrite records_records.
Qed.

(** Every member is measured against a history that extends [h]. *)
Lemma measure_all_sees (h : list Call) (flips : list Instance) (k : nat)
    (o' : Instance) :
  Pass.measure_all boundingClientRect computedOpacity h flips !! k = Some o' →
  ∃ o h',
    flips !! k = Some o
    ∧ FLIP.element_ o' = FLIP.element_ o
    ∧ FLIP.layout (FLIP.last_ o')
      = Some (boundingClientRect (h ++ h') (FLIP.element_ o)).
Proof.
  revert h k; induction flips as [|flip rest IH]; intros h k; [done|].
  destruct k as [|k]; simpl.
  - intros [= <-]. exists flip, []. by rewrite app_nil_r.
  - intros H. destruct (IH _ _ H) as (o & h' & Ho & He & Hl).
    exists o, (Pass.queries flip ++ h'). by rewrite (assoc_L (++)).
Qed.

(** C6, amended: when every class name is one the document accepts, the
    group's [last] first adds the class of every member (the scalar to
    each, the entry at the member's index for an array), in member order
    and with no query in between, and only then measures the members, in
    member order, each without a class argument: every member's
    measurement is taken after all class mutations. *)
Theorem group_last_two_passes (lastClassName : Group.ClassNames)
    (flips : list Instance) (w : World) :
  (∀ index className,
     index < length flips →
     Pass.class_of lastClassName index = Some className →
     Host.validate_token className = None) →
  let added := Pass.additions lastClassName 0 flips in
  ∃ flips',
    Group.last boundingClientRect computedOpacity lastClassName (flips, w)
    = (Ok tt, (flips', Host.records (added ++ Pass.measurements flips) w))
    ∧ flips'
      = Pass.measure_all boundingClientRect computedOpacity
          (Host.history w ++ added) flips
    ∧ ∀ index o',
        flips' !! index = Some o' →
        ∃ o h,
          flips !! index = Some o
          ∧ FLIP.element_ o' = FLIP.element_ o
          ∧ FLIP.layout (FLIP.last_ o')
            = Some (boundingClientRect (Host.history w ++ added ++ h)
                                       (FLIP.element_ o)).
Proof.
  intros Hvalid added. eexists; split; [|split; [reflexivity|]].
  - unfold Group.last, Group.each. rewrite bind_run; cbn [fst snd].
    rewrite first_pass by (intros i c Hi; apply Hvalid; lia).
    cbn [fst snd]. rewrite second_pass. by rewrite records_records.
  - intros index o' H.
    destruct (measure_all_sees _ _ _ _ H) as (o & h & Ho & He & Hl).
    exists o, h. by rewrite (assoc_L (++)).
Qed.

(** Whatever the argument, also when the document rejects a class name
    and the first pass stops on the exception: the calls of the group's
    [last] are class additions followed by queries, never interleaved. *)
Lemma first_pass_additions (lastClassName : Group.ClassNames)
    (flips : list Instance) (index : nat) (w : World) :
  ∃ r added,
    forEach (λ index,
        flip ← FLIP.this;
        match Group.className_at lastClassName index with
        | Some className => FLIP.classList_add (FLIP.element_ flip) className
        | None => mret tt
        end) index flips w
    = (r, (flips, Host.records added w))
    ∧ Forall Pass.is_addition added.
Proof.
  set (step := λ index : nat, _ : M FLIP.State ()).
  assert (∀ index flip w,
            step index (flip, w)
            = match Group.className_at lastClassName index with
              | Some className =>
                  match Host.validate_token className with
                  | Some e => (Throw e, (flip, w))
                  | None =>
                      (Ok tt,
                       (flip,
                        Host.record
                          (ClassListAdd (FLIP.element_ flip) className) w))
                  end
              | None => (Ok tt, (flip, w))
              end) as Hstep.
  { intros i flip w'. subst step. unfold FLIP.classList_add; simpl.
    rewrite bind_run; simpl. by repeat case_match. }
  clearbody step.
  revert index w; induction flips as [|flip rest IH]; intros index w.
  { exists (Ok tt), []. by rewrite records_nil. }
  cbn [forEach]. rewrite Hstep.
  destruct (Group.className_at lastClassName index) as [className|].
  - destruct (Host.validate_token className) as [e|].
    + exists (Throw e), []. by rewrite records_nil.
    + destruct (IH (S index) (Host.record (ClassListAdd (FLIP.element_ flip)
                                             className) w))
        as (r & added & -> & Hadded).
      exists r, (ClassListAdd (FLIP.element_ flip) className :: added).
      unfold Host.record. rewrite records_records. split; [done|].
      by constructor.
  - destruct (IH (S index) w) as (r & added & -> & Hadded).
    by exists r, added.
Qed.

Lemma group_last_never_interleaves (lastClassName : Group.ClassNames)
    (flips : list Instance) (w : World) :
  ∃ added queried,
    Host.history
      (Group.last boundingClientRect computedOpacity lastClassName
         (flips, w)).2.2
    = Host.history w ++ added ++ queried
    ∧ Forall Pass.is_addition added
    ∧ Forall Pass.is_query queried.
Proof.
  unfold Group.last, Group.each. rewrite bind_run; cbn [fst snd].
  destruct (first_pass_additions lastClassName flips 0 w)
    as (r & added & -> & Hadded).
  exists added. destruct r as [[]|e].
  - cbn [fst snd]. rewrite second_pass.
    exists (Pass.measurements flips). simpl.
    rewrite (assoc_L (++)). split; [done|]. split; [done|].
    clear. induction flips as [|flip rest IH]; [constructor|].
    simpl. by repeat constructor.
  - exists []. simpl. by rewrite app_nil_r.
Qed.

(** When the document rejects the class of a member, the first pass
    stops there: the classes of the members before it have been added, the
    exception is the document's, and no member is measured. *)
Lemma first_pass_stops (lastClassName : Group.ClassNames)
    (accepted rest : list Instance) (rejected : Instance) (index : nat)
    (w : World) (className : string) (e : JS.Exn) :
  (∀ i c,
     index ≤ i < index + length accepted →
     Pass.class_of lastClassName i = Some c →
     Host.validate_token c = None) →
  Pass.class_of lastClassName (index + length accepted) = Some className →
  Host.validate_token className = Some e →
  forEach (λ index,
      flip ← FLIP.this;
      match Group.className_at lastClassName index with
      | Some className => FLIP.classList_add (FLIP.element_ flip) className
      | None => mret tt
      end) index (accepted ++ rejected :: rest) w
  = (Throw e,
     (accepted ++ rejected :: rest,
      Host.records (Pass.additions lastClassName index accepted) w)).
Proof.
  revert index w; induction accepted as [|flip others IH];
    intros index w Hvalid Hclass Hrejected.
  { simpl in *. rewrite Nat.add_0_r in Hclass.
    unfold mbind at 1, M_bind at 1, FLIP.this at 1; simpl.
    rewrite className_at_class_of, Hclass. unfold FLIP.classList_add.
    rewrite Hrejected. simpl. by rewrite records_nil. }
  simpl. unfold mbind at 1, M_bind at 1, FLIP.this at 1; simpl.
  rewrite className_at_class_of.
  simpl in Hclass. rewrite <- Nat.add_succ_comm in Hclass.
  destruct (Pass.class_of lastClassName index) as [c|] eqn:Hc.
  - unfold FLIP.classList_add.
    rewrite (Hvalid index c) by (simpl; done || lia).
    unfold FLIP.host; simpl.
    rewrite IH by (done || intros i c' Hi; apply Hvalid; simpl; lia).
    unfold Host.record. by rewrite records_records.
  - simpl.
    rewrite IH by (done || intros i c' Hi; apply Hvalid; simpl; lia).
    done.
Qed.

Lemma group_last_stops_at_rejected_class (lastClassName : Group.ClassNames)
    (accepted rest : list Instance) (rejected : Instance) (w : World)
    (className : string) (e : JS.Exn) :
  (∀ index c,
     index < length accepted →
     Pass.class_of lastClassName index = Some c →
     Host.validate_token c = None) →
  Pass.class_of lastClassName (length accepted) = Some className →
  Host.validate_token className = Some e →
  Group.last boundingClientRect computedOpacity lastClassName
    (accepted ++ rejected :: rest, w)
  = (Throw e,
     (accepted ++ rejected :: rest,
      Host.records (Pass.additions lastClassName 0 accepted) w)).
Proof.
  intros Hvalid Hclass Hrejected.
  unfold Group.last, Group.each. rewrite bind_run; cbn [fst snd].
  by rewrite (first_pass_stops _ _ _ _ 0 w className e)
    by (done || intros i c Hi; apply Hvalid; lia).
Qed.

End GroupLast.

(** C6, on the code: a class name the document rejects (one that contains
    white space, or the empty string) makes [classList.add] throw in the
    first pass.  Given to the group as a scalar, no class is added to any
    member and no member is measured; as an entry of an array, the members
    before it keep their classes and, again, no member is measured. *)
Lemma group_last_rejected_class :
  Group.last Scenario.boundingClientRect Scenario.computedOpacity
    (Group.ClassName "open visible") (Scenario.members, Scenario.world)
  = (Throw (DOMException "InvalidCharacterError"),
     (Scenario.members, Scenario.world))
  ∧ Group.last Scenario.boundingClientRect Scenario.computedOpacity
      (Group.ClassArray [Some "a"; Some "b c"; Some "d"])
      (Scenario.members, Scenario.world)
    = (Throw (DOMException "InvalidCharacterError"),
       (Scenario.members,
        Host.records [ClassListAdd 0 "a"] Scenario.world)).
Proof. split; vm_compute; reflexivity. Qed.

Lemma group_last_two_passes_scenario_D :
  ∃ flips',
    Group.last Scenario.boundingClientRect Scenario.computedOpacity
      Scenario.abc (Scenario.members, Scenario.world)
    = (Ok tt,
       (flips',
        Host.records
          ([ ClassListAdd 0 "a"; ClassListAdd 1 "b"; ClassListAdd 2 "c" ]
           ++ [ GetBoundingClientRect 0; GetComputedStyle 0;
                GetBoundingClientRect 1; GetComputedStyle 1;
                GetBoundingClientRect 2; GetComputedStyle 2 ])
          Scenario.world))
    ∧ flips'
      = Pass.measure_all Scenario.boundingClientRect Scenario.computedOpacity
          (Host.history Scenario.world
           ++ [ ClassListAdd 0 "a"; ClassListAdd 1 "b"; ClassListAdd 2 "c" ])
          Scenario.members
    ∧ ∀ index o',
        flips' !! index = Some o' →
        ∃ o h,
          Scenario.members !! index = Some o
          ∧ FLIP.element_ o' = FLIP.element_ o
          ∧ FLIP.layout (FLIP.last_ o')
            = Some (Scenario.boundingClientRect
                      (Host.history Scenario.world
                       ++ [ ClassListAdd 0 "a"; ClassListAdd 1 "b";
                            ClassListAdd 2 "c" ] ++ h)
                      (FLIP.element_ o)).
Proof.
  apply (group_last_two_passes Scenario.boundingClientRect
           Scenario.computedOpacity Scenario.abc Scenario.members
           Scenario.world).
  intros [|[|[|index]]] className Hindex Hclass; simpl in *;
    first [ injection Hclass as <-; reflexivity | lia ].
Defined.

(** ** Numbers: the order and the division of binary64 *)

Section Binary64.

Local Open Scope float_scope.

Lemma SFcompare_antisym (x y : spec_float) :
  SFcompare y x = option_map CompOpp (SFcompare x y).
Proof.
  destruct x as [[]|[]| |[] mx ex], y as [[]|[]| |[] my ey];
    simpl; try reflexivity.
  all: rewrite (Z.compare_antisym ex ey).
  all: destruct (ex ?= ey)%Z eqn:E; simpl; try reflexivity.
  all: f_equal; rewrite ?CompOpp_involutive;
       try (symmetry; apply (Pos.compare_cont_antisym mx my Eq)).
  f_equal. apply (Pos.compare_cont_antisym my mx Eq).
Qed.

Lemma SFcompare_refl (x : spec_float) :
  x ≠ S754_nan → SFcompare x x = Some Eq.
Proof.
  destruct x as [[]|[]| |[] m e]; simpl; try congruence; intros _.
  all: rewrite Z.compare_refl, Pos.compare_cont_refl; reflexivity.
Qed.

Lemma is_nan_spec (n : float) : is_nan n = true ↔ Prim2SF n = S754_nan.
Proof.
  unfold is_nan. rewrite FloatAxioms.eqb_spec. unfold SFeqb. split.
  - intros H. destruct (Prim2SF n) eqn:E; try reflexivity.
    all: rewrite SFcompare_refl in H by congruence; discriminate.
  - intros ->. reflexivity.
Qed.

Lemma ltb_leb (a b : float) : (a <? b) = true → (a <=? b) = true.
Proof.
  rewrite FloatAxioms.ltb_spec, FloatAxioms.leb_spec. unfold SFltb, SFleb.
  destruct (SFcompare _ _) as [[]|]; congruence.
Qed.

(** The order is total on numbers that are not [NaN]. *)
Lemma not_ltb_leb (a b : float) :
  is_nan a = false → is_nan b = false → (a <? b) = false → (b <=? a) = true.
Proof.
  intros Ha Hb. rewrite FloatAxioms.ltb_spec, FloatAxioms.leb_spec.
  unfold SFltb, SFleb.
  rewrite (SFcompare_antisym (Prim2SF a) (Prim2SF b)).
  assert (Prim2SF a ≠ S754_nan) as Ha' by (rewrite <- is_nan_spec; congruence).
  assert (Prim2SF b ≠ S754_nan) as Hb' by (rewrite <- is_nan_spec; congruence).
  destruct (Prim2SF a), (Prim2SF b); try congruence; simpl;
    repeat match goal with
           | |- context [if ?s then _ else _] => destruct s
           end; simpl; try congruence.
  all: destruct (_ ?= _)%Z; simpl; try congruence.
  all: destruct (PosDef.Pos.compare_cont _ _ _); simpl; congruence.
Qed.

Lemma is_zero_spec (n : float) :
  is_zero n = true → ∃ s, Prim2SF n = S754_zero s.
Proof.
  unfold is_zero. rewrite FloatAxioms.eqb_spec.
  change (Prim2SF zero) with (S754_zero false). unfold SFeqb.
  destruct (Prim2SF n) as [s|[]| |[]]; simpl; try discriminate. eauto.
Qed.

Lemma is_finite_not_infinity (n : float) (s : bool) :
  is_finite n = true → Prim2SF n ≠ S754_infinity s.
Proof.
  unfold is_finite, is_infinity. intros H E.
  rewrite FloatAxioms.eqb_spec, FloatAxioms.abs_spec, E in H.
  change (Prim2SF infinity) with (S754_infinity false) in H.
  simpl in H. by rewrite orb_true_r in H.
Qed.

Lemma positive_finite_spec (n : float) :
  IEEE.positive_finite n → ∃ m e, Prim2SF n = S754_finite false m e.
Proof.
  intros [Hpos Hfin]. rewrite FloatAxioms.ltb_spec in Hpos.
  change (Prim2SF 0) with (S754_zero false) in Hpos.
  pose proof (is_finite_not_infinity n false Hfin) as Hinf.
  unfold SFltb in Hpos.
  destruct (Prim2SF n) as [|[]| |[] m e]; simpl in Hpos;
    try discriminate; try congruence.
  eauto.
Qed.

(** Rounding a non-negative mantissa keeps the sign and never gives
    [NaN]. *)
Lemma shr_1_nonneg mrs : (0 ≤ shr_m mrs)%Z → (0 ≤ shr_m (shr_1 mrs))%Z.
Proof. destruct mrs as [[|[p|p|]|p] r s]; simpl; lia. Qed.

Lemma iter_pos_shr_1_nonneg p mrs :
  (0 ≤ shr_m mrs)%Z → (0 ≤ shr_m (SpecFloat.iter_pos shr_1 p mrs))%Z.
Proof.
  revert mrs; induction p as [p IH|p IH|]; intros mrs H; simpl.
  - apply IH, IH, shr_1_nonneg, H.
  - apply IH, IH, H.
  - apply shr_1_nonneg, H.
Qed.

Lemma shr_fexp_nonneg m e l :
  (0 ≤ m)%Z → (0 ≤ shr_m (shr_fexp prec emax m e l).1)%Z.
Proof.
  intros H. unfold shr_fexp, shr.
  assert (0 ≤ shr_m (shr_record_of_loc m l))%Z
    by (destruct l as [|[]]; simpl; lia).
  destruct (_ - _)%Z; simpl; try done. by apply iter_pos_shr_1_nonneg.
Qed.

Lemma round_nearest_even_nonneg m l :
  (0 ≤ m)%Z → (0 ≤ round_nearest_even m l)%Z.
Proof.
  intros H. destruct l as [|[]]; simpl; try lia. destruct (Z.even m); lia.
Qed.

Lemma binary_round_aux_signed s m e l :
  (0 ≤ m)%Z → IEEE.signed s (binary_round_aux prec emax s m e l).
Proof.
  intros H. unfold binary_round_aux.
  pose proof (shr_fexp_nonneg m e l H) as H1.
  destruct (shr_fexp prec emax m e l) as [mrs' e']. simpl in H1.
  pose proof (shr_fexp_nonneg _ e' loc_Exact
                (round_nearest_even_nonneg _ (loc_of_shr_record mrs') H1))
    as H2.
  destruct (shr_fexp prec emax _ e' loc_Exact) as [mrs'' e'']. simpl in H2.
  unfold IEEE.signed. destruct (shr_m mrs''); [auto| |lia].
  destruct (_ <=? _)%Z; eauto.
Qed.

Lemma SFdiv_core_binary_nonneg m1 e1 m2 e2 :
  (0 ≤ (SFdiv_core_binary prec emax (Zpos m1) e1 (Zpos m2) e2).1.1)%Z.
Proof.
  unfold SFdiv_core_binary.
  set (s := (_ - _ - _)%Z).
  set (m' := match s with
             | Zpos _ => Z.shiftl (Zpos m1) s
             | Z0 => Zpos m1
             | Zneg _ => Z0
             end).
  assert (0 ≤ m')%Z as Hm'.
  { subst m'. destruct s; try lia. apply Z.shiftl_nonneg. lia. }
  pose proof (Z.div_pos m' (Zpos m2) Hm' eq_refl) as Hq.
  unfold Z.div in Hq.
  destruct (Z.div_eucl m' (Zpos m2)) as [q r]. simpl. exact Hq.
Qed.

Lemma SFdiv_positive_finite m1 e1 m2 e2 :
  IEEE.signed false
    (SF64div (S754_finite false m1 e1) (S754_finite false m2 e2)).
Proof.
  unfold SF64div, SFdiv.
  pose proof (SFdiv_core_binary_nonneg m1 e1 m2 e2) as H.
  destruct (SFdiv_core_binary prec emax (Zpos m1) e1 (Zpos m2) e2)
    as [[q e] l].
  simpl in H. simpl xorb. by apply binary_round_aux_signed.
Qed.

(** The quotient of two positive finite numbers is a number, and it is
    not negative. *)
Lemma div_positive_finite (a b : float) :
  IEEE.positive_finite a → IEEE.positive_finite b → (0 <=? a / b) = true.
Proof.
  intros Ha Hb.
  destruct (positive_finite_spec a Ha) as (ma & ea & Ea).
  destruct (positive_finite_spec b Hb) as (mb & eb & Eb).
  rewrite FloatAxioms.leb_spec, FloatAxioms.div_spec, Ea, Eb.
  change (Prim2SF 0) with (S754_zero false).
  destruct (SFdiv_positive_finite ma ea mb eb) as [->|[->|(m & e & ->)]];
    reflexivity.
Qed.

(** A quotient is positive and finite only if neither operand is zero. *)
Lemma div_positive_only_if (a b : float) :
  (0 <? a / b) = true → is_finite (a / b) = true →
  is_zero a = false ∧ is_zero b = false.
Proof.
  intros Hpos Hfin.
  rewrite FloatAxioms.ltb_spec in Hpos.
  change (Prim2SF 0) with (S754_zero false) in Hpos.
  pose proof (is_finite_not_infinity _ false Hfin) as Hinf1.
  pose proof (is_finite_not_infinity _ true Hfin) as Hinf2.
  rewrite FloatAxioms.div_spec in Hpos, Hinf1, Hinf2.
  split.
  - destruct (is_zero a) eqn:E; [|done].
    destruct (is_zero_spec a E) as [s Hs]. rewrite Hs in Hpos.
    destruct (Prim2SF b) as [| | |]; simpl in Hpos; discriminate.
  - destruct (is_zero b) eqn:E; [|done].
    destruct (is_zero_spec b E) as [s Hs]. rewrite Hs in Hpos, Hinf1, Hinf2.
    destruct (Prim2SF a) as [| | |]; simpl in Hpos, Hinf1, Hinf2;
      try discriminate.
    all: destruct (xorb _ _); congruence.
Qed.

End Binary64.

(** ** Numbers: quotients of ordinary magnitude *)

Section Rounding.

Local Open Scope Z_scope.

(** The number of binary digits of a mantissa brackets its value. *)
Lemma digits2_pos_bounds (m : positive) :
  2 ^ (Zpos (digits2_pos m) - 1) ≤ Zpos m < 2 ^ Zpos (digits2_pos m).
Proof.
  induction m as [m IH|m IH|]; simpl digits2_pos.
  - rewrite Pos2Z.inj_succ.
    replace (Z.succ (Zpos (digits2_pos m)) - 1)
      with (Z.succ (Zpos (digits2_pos m) - 1)) by lia.
    rewrite !Z.pow_succ_r by lia. lia.
  - rewrite Pos2Z.inj_succ.
    replace (Z.succ (Zpos (digits2_pos m)) - 1)
      with (Z.succ (Zpos (digits2_pos m) - 1)) by lia.
    rewrite !Z.pow_succ_r by lia. lia.
  - simpl. lia.
Qed.

Lemma digits2_pos_lower (m : positive) (k : Z) :
  0 ≤ k → 2 ^ k ≤ Zpos m → k < Zpos (digits2_pos m).
Proof.
  intros Hk H. destruct (digits2_pos_bounds m) as [_ Hu].
  destruct (Z.lt_ge_cases k (Zpos (digits2_pos m))) as [|Hge]; [done|].
  pose proof (Z.pow_le_mono_r 2 _ _ ltac:(lia) Hge). lia.
Qed.

Lemma digits2_pos_upper (m : positive) (k : Z) :
  0 ≤ k → Zpos m < 2 ^ k → Zpos (digits2_pos m) ≤ k.
Proof.
  intros Hk H. destruct (digits2_pos_bounds m) as [Hl _].
  destruct (Z.le_gt_cases (Zpos (digits2_pos m)) k) as [|Hgt]; [done|].
  pose proof (Z.pow_le_mono_r 2 k (Zpos (digits2_pos m) - 1)
                ltac:(lia) ltac:(lia)).
  lia.
Qed.

(** A shift to the right by one position removes one digit. *)
Lemma shr_1_digits mrs p :
  shr_m mrs = Zpos p → 1 < Zpos (digits2_pos p) →
  ∃ p',
    shr_m (shr_1 mrs) = Zpos p'
    ∧ Zpos (digits2_pos p') = Zpos (digits2_pos p) - 1.
Proof.
  destruct mrs as [m r s]; cbn [shr_m]. intros -> Hd.
  destruct p as [p|p|]; cbn [shr_1 shr_m digits2_pos] in *; [| |lia].
  all: exists p; split; [done|rewrite Pos2Z.inj_succ; lia].
Qed.

Lemma iter_shr_1_digits n : ∀ mrs p,
  shr_m mrs = Zpos p → Zpos n < Zpos (digits2_pos p) →
  ∃ p',
    shr_m (SpecFloat.iter_pos shr_1 n mrs) = Zpos p'
    ∧ Zpos (digits2_pos p') = Zpos (digits2_pos p) - Zpos n.
Proof.
  induction n as [n IH|n IH|]; intros mrs p Hm Hd;
    cbn [SpecFloat.iter_pos].
  - rewrite Pos2Z.inj_xI in *.
    destruct (shr_1_digits mrs p Hm ltac:(lia)) as (p1 & H1 & D1).
    destruct (IH _ p1 H1 ltac:(lia)) as (p2 & H2 & D2).
    destruct (IH _ p2 H2 ltac:(lia)) as (p3 & H3 & D3).
    exists p3. split; [done|lia].
  - rewrite Pos2Z.inj_xO in *.
    destruct (IH _ p Hm ltac:(lia)) as (p2 & H2 & D2).
    destruct (IH _ p2 H2 ltac:(lia)) as (p3 & H3 & D3).
    exists p3. split; [done|lia].
  - destruct (shr_1_digits mrs p Hm ltac:(lia)) as (p1 & H1 & D1).
    exists p1. split; [done|lia].
Qed.

(** In the normal range, the shift that fits a mantissa to the format
    leaves 53 digits. *)
Lemma shr_fexp_normal p e l :
  53 ≤ Zpos (digits2_pos p) →
  -1074 ≤ Zpos (digits2_pos p) + e - 53 →
  ∃ mrs' p',
    shr_fexp prec emax (Zpos p) e l = (mrs', e + (Zpos (digits2_pos p) - 53))
    ∧ shr_m mrs' = Zpos p' ∧ Zpos (digits2_pos p') = 53.
Proof.
  intros Hd He. unfold shr_fexp, shr, fexp, SpecFloat.emin, prec, emax.
  simpl Zdigits2.
  replace (Z.max (Zpos (digits2_pos p) + e - 53) (3 - 1024 - 53) - e)
    with (Zpos (digits2_pos p) - 53) by lia.
  assert (shr_m (shr_record_of_loc (Zpos p) l) = Zpos p) as Hm
    by (destruct l as [|[]]; reflexivity).
  destruct (Zpos (digits2_pos p) - 53) as [|n|n] eqn:En; [|..|lia].
  - eexists _, p. split; [f_equal; lia|]. split; [done|lia].
  - destruct (iter_shr_1_digits n _ p Hm ltac:(lia)) as (p' & H' & D').
    eexists _, p'. split; [reflexivity|]. split; [done|lia].
Qed.

Lemma round_nearest_even_digits p l :
  ∃ p',
    round_nearest_even (Zpos p) l = Zpos p'
    ∧ Zpos (digits2_pos p) ≤ Zpos (digits2_pos p')
      ≤ Zpos (digits2_pos p) + 1.
Proof.
  assert (∃ p',
            Zpos p + 1 = Zpos p'
            ∧ Zpos (digits2_pos p) ≤ Zpos (digits2_pos p')
              ≤ Zpos (digits2_pos p) + 1) as Hsucc.
  { exists (p + 1)%positive. split; [lia|].
    destruct (digits2_pos_bounds p) as [Hl Hu].
    pose proof (Pos2Z.is_pos (digits2_pos p)).
    split.
    - pose proof (digits2_pos_lower (p + 1) (Zpos (digits2_pos p) - 1)
                    ltac:(lia) ltac:(lia)). lia.
    - apply digits2_pos_upper; [lia|].
      rewrite Z.pow_add_r by lia. change (2 ^ 1) with 2. lia. }
  destruct l as [|[]]; cbn [round_nearest_even];
    try (exists p; split; [done|lia]); try exact Hsucc.
  destruct (Z.even (Zpos p)); [exists p; split; [done|lia]|exact Hsucc].
Qed.

(** Rounding a mantissa of at least 53 digits, in the normal range and
    away from overflow, gives a finite number that is not zero. *)
Lemma binary_round_aux_normal s p e l :
  53 ≤ Zpos (digits2_pos p) →
  -1074 ≤ Zpos (digits2_pos p) + e - 53 →
  e + (Zpos (digits2_pos p) - 53) + 1 ≤ 971 →
  ∃ m' e', binary_round_aux prec emax s (Zpos p) e l = S754_finite s m' e'.
Proof.
  intros Hd Hlo Hhi. unfold binary_round_aux.
  destruct (shr_fexp_normal p e l Hd Hlo) as (mrs1 & p1 & -> & M1 & D1).
  rewrite M1.
  destruct (round_nearest_even_digits p1 (loc_of_shr_record mrs1))
    as (p2 & -> & D2).
  destruct (shr_fexp_normal p2 (e + (Zpos (digits2_pos p) - 53)) loc_Exact
              ltac:(lia) ltac:(lia)) as (mrs3 & p3 & -> & M3 & D3).
  rewrite M3.
  destruct (Z.leb_spec
              (e + (Z.pos (digits2_pos p) - 53) + (Z.pos (digits2_pos p2) - 53))
              (emax - prec)) as [_|Hgt]; [eauto|].
  unfold emax, prec in Hgt. lia.
Qed.

(** The quotient of two normal numbers whose exponents are far from both
    ends of the range is finite and not zero. *)
Lemma SFdiv_moderate ma ea mb eb :
  Zpos (digits2_pos ma) = 53 → Zpos (digits2_pos mb) = 53 →
  -552 ≤ ea ≤ 448 → -552 ≤ eb ≤ 448 →
  ∃ m e,
    SF64div (S754_finite false ma ea) (S754_finite false mb eb)
    = S754_finite false m e.
Proof.
  intros Da Db Ha Hb. unfold SF64div, SFdiv, SFdiv_core_binary.
  cbn [Zdigits2 xorb]. rewrite Da, Db.
  replace (Z.min (fexp prec emax (53 + ea - (53 + eb))) (ea - eb))
    with (ea - eb - 53)
    by (unfold fexp, SpecFloat.emin, prec, emax; lia).
  replace (ea - eb - (ea - eb - 53)) with 53 by lia. cbv iota.
  rewrite Z.shiftl_mul_pow2 by lia.
  destruct (digits2_pos_bounds ma) as [Hal Hau].
  destruct (digits2_pos_bounds mb) as [Hbl Hbu].
  rewrite Da in Hal, Hau. rewrite Db in Hbl, Hbu.
  change (2 ^ (53 - 1)) with 4503599627370496 in *.
  change (2 ^ 53) with 9007199254740992 in *.
  pose proof (Z.div_le_lower_bound (Zpos ma * 9007199254740992) (Zpos mb)
                4503599627370496 ltac:(lia) ltac:(lia)) as Hql.
  pose proof (Z.div_lt_upper_bound (Zpos ma * 9007199254740992) (Zpos mb)
                18014398509481984 ltac:(lia) ltac:(lia)) as Hqu.
  unfold Z.div in Hql, Hqu.
  destruct (Z.div_eucl (Zpos ma * 9007199254740992) (Zpos mb)) as [q r].
  destruct q as [|q|q]; [lia| |lia].
  apply binary_round_aux_normal.
  - pose proof (digits2_pos_lower q 52 ltac:(lia)
                  ltac:(change (2 ^ 52) with 4503599627370496; lia)). lia.
  - pose proof (digits2_pos_lower q 52 ltac:(lia)
                  ltac:(change (2 ^ 52) with 4503599627370496; lia)). lia.
  - pose proof (digits2_pos_upper q 54 ltac:(lia)
                  ltac:(change (2 ^ 54) with 18014398509481984; lia)). lia.
Qed.

(** A number of ordinary magnitude is normal, with an exponent far from
    both ends of the range. *)
Lemma moderate_spec (n : float) :
  IEEE.moderate n →
  ∃ m e, Prim2SF n = S754_finite false m e
    ∧ Zpos (digits2_pos m) = 53 ∧ -552 ≤ e ≤ 448.
Proof.
  intros [Hlo Hhi]. rewrite FloatAxioms.leb_spec in Hlo, Hhi.
  change (Prim2SF 0x1p-500)
    with (S754_finite false 4503599627370496 (-552)) in Hlo.
  change (Prim2SF 0x1p500)
    with (S754_finite false 4503599627370496 448) in Hhi.
  pose proof (Prim2SF_valid n) as Hvalid.
  unfold SFleb in Hlo, Hhi.
  destruct (Prim2SF n) as [s|s| |s m e]; try discriminate.
  - destruct s; discriminate.
  - destruct s; [discriminate|].
    cbn [SFcompare] in Hlo, Hhi.
    assert (-552 <= e) as He1.
    { destruct (Z.compare_spec (-552) e); try lia; discriminate. }
    assert (e <= 448) as He2.
    { destruct (Z.compare_spec e 448); try lia; discriminate. }
    exists m, e. split; [done|]. split; [|lia].
    unfold SpecFloat.valid_binary, bounded, canonical_mantissa in Hvalid.
    apply andb_prop in Hvalid as [Hc _]. apply Z.eqb_eq in Hc.
    unfold fexp, SpecFloat.emin, prec, emax in Hc. lia.
Qed.

(** The quotient of two numbers of ordinary magnitude is strictly
    positive and finite. *)
Lemma div_moderate (a b : float) :
  IEEE.moderate a → IEEE.moderate b →
  (0 <? a / b)%float = true ∧ is_finite (a / b) = true.
Proof.
  intros Ha Hb.
  destruct (moderate_spec a Ha) as (ma & ea & Ea & Da & Ra).
  destruct (moderate_spec b Hb) as (mb & eb & Eb & Db & Rb).
  destruct (SFdiv_moderate ma ea mb eb Da Db Ra Rb) as (m & e & Hdiv).
  assert (Prim2SF (a / b) = S754_finite false m e) as E
    by (by rewrite FloatAxioms.div_spec, Ea, Eb).
  split.
  - rewrite FloatAxioms.ltb_spec, E. reflexivity.
  - unfold is_finite, is_nan, is_infinity.
    rewrite !FloatAxioms.eqb_spec, FloatAxioms.abs_spec, E.
    unfold SFeqb. rewrite SFcompare_refl by discriminate. reflexivity.
Qed.

End Rounding.

Section Clamp.

Local Open Scope float_scope.

(** [clamp_] lets [NaN] through. *)
Lemma clamp__nan (value : float) :
  is_nan value = true → FLIP.clamp_ value 0 1 = nan.
Proof.
  intros H. unfold FLIP.clamp_, JS.Math_max. rewrite H.
  rewrite orb_true_r. reflexivity.
Qed.

Lemma Math_max_0 (value : float) :
  is_nan value = false →
  JS.Math_max 0 value = if 0 <? value then value else 0.
Proof.
  intros H. unfold JS.Math_max. rewrite H. simpl.
  destruct (0 <? value); [reflexivity|].
  destruct (value <? 0); reflexivity.
Qed.

(** On every number, [clamp_(value, 0, 1)] lies between 0 and 1. *)
Lemma clamp__bounds (value : float) :
  is_nan value = false →
  (0 <=? FLIP.clamp_ value 0 1) = true ∧ (FLIP.clamp_ value 0 1 <=? 1) = true.
Proof.
  intros H. unfold FLIP.clamp_. rewrite (Math_max_0 value H).
  set (m := if 0 <? value then value else 0).
  assert (is_nan m = false) as Hm
    by (subst m; destruct (0 <? value); done).
  assert ((0 <=? m) = true) as H0.
  { subst m. destruct (0 <? value) eqn:E; [by apply ltb_leb|reflexivity]. }
  unfold JS.Math_min. rewrite Hm. simpl.
  destruct (1 <? m) eqn:E1; [done|].
  destruct (m <? 1) eqn:E2.
  - split; [done|by apply ltb_leb].
  - change (JS.is_neg_zero 1) with false. cbv iota.
    split; [done|]. by apply not_ltb_leb.
Qed.

End Clamp.

(** ** The scale computed by [invert] *)

(** C9, on the code: an element that was not rendered when [first()] ran
    has an empty first rectangle; [invert()] accepts the pair of snapshots
    and stores the scale 0, which is not strictly positive. *)
Lemma invert_scale_zero :
  FLIP.invert (Scenario.revealed, Scenario.world)
  = (Ok tt,
     (FLIP.set_invert_
        (Some {| FLIP.x := -50; FLIP.y := -50; FLIP.sx := 0; FLIP.sy := 0;
                 FLIP.a := -0.5 |}%float)
        Scenario.revealed,
      Host.records
        [ StyleSet 0 "transformOrigin" (SVString "0 0");
          StyleSet 0 "transform" (SVTransform (-50) (-50) 0 0);
          StyleSet 0 "opacity" (SVNumber 1);
          StyleSet 0 "willChange" (SVString "transform,opacity") ]
        Scenario.world))
  ∧ PrimFloat.ltb 0 (Host.width Scenario.rect_hidden
                     / Host.width Scenario.rect_after) = false.
Proof. split; reflexivity. Qed.

(** C9, amended: for every pair of snapshots [invert()] accepts, the
    scales are the binary64 quotients first.width / last.width and
    first.height / last.height; the sizes are not checked.  When both sizes
    are of ordinary magnitude (between 2^-500 and 2^500) the scale is
    strictly positive and finite; when both are positive and finite it is a
    number that is not negative; and a scale is strictly positive and finite
    only if neither size is zero. *)
Theorem invert_scale_range (o : Instance) (w : World) (f l : DOMRect)
    (prior : InvertDelta) :
  FLIP.layout (FLIP.first_ o) = Some f →
  FLIP.layout (FLIP.last_ o) = Some l →
  FLIP.invert_ o = Some prior →
  ∃ o' w' delta,
    FLIP.invert (o, w) = (Ok tt, (o', w'))
    ∧ FLIP.invert_ o' = Some delta
    ∧ FLIP.sx delta = (Host.width f / Host.width l)%float
    ∧ FLIP.sy delta = (Host.height f / Host.height l)%float
    ∧ (IEEE.moderate (Host.width f) → IEEE.moderate (Host.width l) →
       PrimFloat.ltb 0 (FLIP.sx delta) = true
       ∧ PrimFloat.is_finite (FLIP.sx delta) = true)
    ∧ (IEEE.moderate (Host.height f) → IEEE.moderate (Host.height l) →
       PrimFloat.ltb 0 (FLIP.sy delta) = true
       ∧ PrimFloat.is_finite (FLIP.sy delta) = true)
    ∧ (IEEE.positive_finite (Host.width f) →
       IEEE.positive_finite (Host.width l) →
       PrimFloat.leb 0 (FLIP.sx delta) = true)
    ∧ (IEEE.positive_finite (Host.height f) →
       IEEE.positive_finite (Host.height l) →
       PrimFloat.leb 0 (FLIP.sy delta) = true)
    ∧ (PrimFloat.ltb 0 (FLIP.sx delta) = true →
       PrimFloat.is_finite (FLIP.sx delta) = true →
       PrimFloat.is_zero (Host.width f) = false
       ∧ PrimFloat.is_zero (Host.width l) = false)
    ∧ (PrimFloat.ltb 0 (FLIP.sy delta) = true →
       PrimFloat.is_finite (FLIP.sy delta) = true →
       PrimFloat.is_zero (Host.height f) = false
       ∧ PrimFloat.is_zero (Host.height l) = false).
Proof.
  intros Hf Hl Hi.
  destruct (invert_computes_delta_aux o w f l prior Hf Hl Hi) as [w' Hrun].
  eexists _, w', _. split; [exact Hrun|].
  split; [reflexivity|]. simpl.
  split; [reflexivity|]. split; [reflexivity|].
  split; [apply div_moderate|].
  split; [apply div_moderate|].
  split; [apply div_positive_finite|].
  split; [apply div_positive_finite|].
  split; apply div_positive_only_if.
Qed.

Lemma scenario_A_sizes :
  IEEE.moderate 100 ∧ IEEE.moderate 200
  ∧ IEEE.positive_finite 100 ∧ IEEE.positive_finite 200.
Proof. repeat split; reflexivity. Qed.

Lemma invert_scale_range_scenario_A :
  ∃ o' w' delta,
    FLIP.invert (Scenario.measured, Scenario.world) = (Ok tt, (o', w'))
    ∧ FLIP.invert_ o' = Some delta
    ∧ FLIP.sx delta = 0.5%float
    ∧ FLIP.sy delta = 0.5%float
    ∧ (IEEE.moderate 100 → IEEE.moderate 200 →
       PrimFloat.ltb 0 (FLIP.sx delta) = true
       ∧ PrimFloat.is_finite (FLIP.sx delta) = true)
    ∧ (IEEE.moderate 100 → IEEE.moderate 200 →
       PrimFloat.ltb 0 (FLIP.sy delta) = true
       ∧ PrimFloat.is_finite (FLIP.sy delta) = true)
    ∧ (IEEE.positive_finite 100 → IEEE.positive_finite 200 →
       PrimFloat.leb 0 (FLIP.sx delta) = true)
    ∧ (IEEE.positive_finite 100 → IEEE.positive_finite 200 →
       PrimFloat.leb 0 (FLIP.sy delta) = true)
    ∧ (PrimFloat.ltb 0 (FLIP.sx delta) = true →
       PrimFloat.is_finite (FLIP.sx delta) = true →
       PrimFloat.is_zero 100 = false ∧ PrimFloat.is_zero 200 = false)
    ∧ (PrimFloat.ltb 0 (FLIP.sy delta) = true →
       PrimFloat.is_finite (FLIP.sy delta) = true →
       PrimFloat.is_zero 100 = false ∧ PrimFloat.is_zero 200 = false).
Proof.
  apply (invert_scale_range Scenario.measured Scenario.world
           Scenario.rect_before Scenario.rect_after FLIP.identity_delta);
    reflexivity.
Defined.

(** ** The frame loop *)

(** The helper of duration 0 is reached by the public methods alone:
    [new FLIP({ element, duration: 0 })], [snapshot('end')], [play()]. *)
Lemma instant_reached :
  ∃ o,
    FLIP.constructor Scenario.statics Scenario.options_duration_0 = Ok o
    ∧ (FLIP.snapshot Scenario.boundingClientRect Scenario.computedOpacity
         (VString "end");;
       FLIP.play call None) (o, Scenario.world)
      = (Ok tt,
         (Scenario.instant, Scenario.instant_world)).
Proof. eexists; split; vm_compute; reflexivity. Qed.

(** C8, on the code: with a duration of 0, at the frame whose time is the
    start time, the normalized time is 0/0; [clamp_] returns [NaN], which
    is not in [0,1], and [NaN] is what the easing function receives and
    what is written to the styles. *)
Lemma update__time_not_clamped :
  FLIP.clamp_
    ((Host.now Scenario.instant_world - FLIP.start_ Scenario.instant)
     / FLIP.duration_ Scenario.instant) 0 1
  = PrimFloat.nan
  ∧ PrimFloat.leb 0 PrimFloat.nan = false
  ∧ PrimFloat.leb PrimFloat.nan 1 = false
  ∧ rAF.update_ (Scenario.instant, Scenario.instant_world)
    = FLIP.cleanUpAndFireEvent_
        (Scenario.instant,
         Host.records
           [ StyleSet 0 "transform"
               (SVTransform PrimFloat.nan PrimFloat.nan
                            PrimFloat.nan PrimFloat.nan);
             StyleSet 0 "opacity" (SVNumber PrimFloat.nan) ]
           Scenario.instant_world).
Proof. repeat split; vm_compute; reflexivity. Qed.

(** C8, amended: at every frame, [update_] computes
    time = clamp_((now - start) / duration, 0, 1) and passes it to the
    easing function; unless the quotient is [NaN], time lies in [0,1].
    With easedTime the value of the easing function, the values written are
    exactly x = invert.x * (1 - easedTime), y = invert.y * (1 - easedTime),
    sx = invert.sx + (1 - invert.sx) * easedTime,
    sy = invert.sy + (1 - invert.sy) * easedTime and
    opacity = first.opacity + invert.a * easedTime; then the next frame is
    requested if time < 1, and the completion routine runs otherwise. *)
Theorem update__interpolates (o : Instance) (w : World)
    (easing : float → float) (delta : InvertDelta) :
  FLIP.easing_ o = VFunction easing →
  FLIP.invert_ o = Some delta →
  let raw := ((Host.now w - FLIP.start_ o) / FLIP.duration_ o)%float in
  let time := FLIP.clamp_ raw 0 1 in
  let easedTime := easing time in
  (PrimFloat.is_nan raw = false →
   PrimFloat.leb 0 time = true ∧ PrimFloat.leb time 1 = true)
  ∧ rAF.update_ (o, w)
    = (if PrimFloat.ltb time 1 then rAF.requestAnimationFrame_update_
       else FLIP.cleanUpAndFireEvent_)
        (o,
         Host.records
           ((if FLIP.updateTransform_ o
             then [ StyleSet (FLIP.element_ o) "transform"
                      (SVTransform
                         (FLIP.x delta * (1 - easedTime))
                         (FLIP.y delta * (1 - easedTime))
                         (FLIP.sx delta + (1 - FLIP.sx delta) * easedTime)
                         (FLIP.sy delta + (1 - FLIP.sy delta) * easedTime)) ]
             else [])
            ++ (if FLIP.updateOpacity_ o
                then [ StyleSet (FLIP.element_ o) "opacity"
                         (SVNumber (FLIP.opacity (FLIP.first_ o)
                                    + FLIP.a delta * easedTime)) ]
                else []))%float
           w).
Proof.
  intros He Hi raw time easedTime. split; [apply clamp__bounds|].
  unfold rAF.update_, mbind, M_bind, FLIP.performance_now, FLIP.this.
  cbn beta iota delta [fst snd].
  rewrite He, Hi. fold raw. fold time. fold easedTime.
  destruct (FLIP.updateTransform_ o), (FLIP.updateOpacity_ o);
    unfold FLIP.host, Host.record, mret, M_ret;
    cbn beta iota delta [fst snd app];
    rewrite ?records_records, ?records_nil; reflexivity.
Qed.

Lemma update__interpolates_half_way :
  (PrimFloat.is_nan 0.5 = false →
   PrimFloat.leb 0 0.5 = true ∧ PrimFloat.leb 0.5 1 = true)
  ∧ rAF.update_ (Scenario.playing, Scenario.frame_at 1165)
    = rAF.requestAnimationFrame_update_
        (Scenario.playing,
         Host.records
           [ StyleSet 0 "transform" (SVTransform (-25) (-25) 0.75 0.75);
             StyleSet 0 "opacity" (SVNumber 0.75) ]
           (Scenario.frame_at 1165)).
Proof.
  apply (update__interpolates Scenario.playing (Scenario.frame_at 1165)
           (λ t, t)
           {| FLIP.x := -50; FLIP.y := -50; FLIP.sx := 0.5; FLIP.sy := 0.5;
              FLIP.a := -0.5 |}%float);
    reflexivity.
Defined.

(** * Further properties of the code *)

(** ** What every method leaves alone *)

Lemma same_config_refl o : Footprint.same_config o o.
Proof. by repeat split. Qed.

Lemma same_config_trans o1 o2 o3 :
  Footprint.same_config o1 o2 → Footprint.same_config o2 o3 →
  Footprint.same_config o1 o3.
Proof.
  unfold Footprint.same_config. intros H1 H2.
  destruct_and!. repeat split; congruence.
Qed.

Create HintDb stays discriminated.

Lemma stays_bind {A B} el (m : M FLIP.State A) (k : A → M FLIP.State B) :
  Footprint.stays el m → (∀ a, Footprint.stays el (k a)) →
  Footprint.stays el (m ≫= k).
Proof.
  intros Hm Hk s Hs. rewrite bind_run.
  destruct (Hm s Hs) as (Hc & added & Hh & Ha).
  destruct (m s) as [[a|e] s']; simpl in *; [|eauto].
  destruct (Hk a s') as (Hc' & added' & Hh' & Ha').
  { destruct Hc as [-> _]. done. }
  split; [by eapply same_config_trans|].
  exists (added ++ added'). rewrite Hh', Hh, (assoc_L (++)).
  split; [done|by apply Forall_app].
Qed.

Lemma stays_this_bind {B} el (k : Instance → M FLIP.State B) :
  (∀ o, FLIP.element_ o = el → Footprint.stays el (k o)) →
  Footprint.stays el (FLIP.this ≫= k).
Proof. intros Hk [o w] Hs. rewrite bind_run. simpl. by apply Hk. Qed.

Lemma stays_pure {A} el (m : M FLIP.State A) :
  (∀ s, (m s).2 = s) → Footprint.stays el m.
Proof.
  intros Hm s _. rewrite Hm. split; [apply same_config_refl|].
  exists []. by rewrite app_nil_r.
Qed.

Lemma stays_ret {A} el (a : A) : Footprint.stays el (mret a).
Proof. by apply stays_pure. Qed.

Lemma stays_throw {A} el (e : JS.Exn) : Footprint.stays el (throw (A := A) e).
Proof. by apply stays_pure. Qed.

Lemma stays_performance_now el : Footprint.stays el FLIP.performance_now.
Proof. by apply stays_pure. Qed.

Lemma stays_host el (c : Call) :
  Footprint.on_element el c → Footprint.stays el (FLIP.host c).
Proof.
  intros Hc s _. split; [apply same_config_refl|].
  exists [c]. split; [done|by constructor].
Qed.

Lemma stays_update el (f : Instance → Instance) :
  (∀ o, Footprint.same_config o (f o)) → Footprint.stays el (FLIP.update f).
Proof.
  intros Hf s _. split; [apply Hf|]. exists []. by rewrite app_nil_r.
Qed.

#[local] Hint Resolve stays_ret stays_throw stays_performance_now : stays.
#[local] Hint Extern 1 (Footprint.same_config _ _) =>
  by repeat split : stays.
#[local] Hint Extern 1 (Footprint.on_element _ _) =>
  by simpl : stays.

Ltac stays :=
  repeat first
    [ solve [auto with stays]
    | progress (intros; subst)
    | apply stays_this_bind
    | apply stays_bind
    | apply stays_host; simpl; first [done | congruence]
    | apply stays_update; intros; by repeat split
    | case_match ].

Lemma stays_classList_add el token :
  Footprint.stays el (FLIP.classList_add el token).
Proof. unfold FLIP.classList_add. stays. Qed.

Lemma stays_classList_remove el token :
  Footprint.stays el (FLIP.classList_remove el token).
Proof. unfold FLIP.classList_remove. stays. Qed.

#[local] Hint Resolve stays_classList_add stays_classList_remove : stays.

Lemma stays_addClass el className :
  Footprint.stays el (FLIP.addClass className).
Proof. unfold FLIP.addClass. stays. Qed.

Lemma stays_removeClass el className :
  Footprint.stays el (FLIP.removeClass className).
Proof. unfold FLIP.removeClass. stays. Qed.

Lemma stays_invert el : Footprint.stays el FLIP.invert.
Proof. unfold FLIP.invert. stays. Qed.

Lemma stays_cleanUpAndFireEvent_ el :
  Footprint.stays el FLIP.cleanUpAndFireEvent_.
Proof.
  unfold FLIP.cleanUpAndFireEvent_, FLIP.removeTransformsAndOpacity_,
    FLIP.resetFirstLastAndInvertValues_, FLIP.fire_.
  stays.
Qed.

#[local] Hint Resolve stays_addClass stays_removeClass stays_invert
  stays_cleanUpAndFireEvent_ : stays.

Lemma stays_requestAnimationFrame_update_ el :
  Footprint.stays el rAF.requestAnimationFrame_update_.
Proof. unfold rAF.requestAnimationFrame_update_. stays. Qed.

#[local] Hint Resolve stays_requestAnimationFrame_update_ : stays.

Lemma stays_global el engine : Footprint.stays el (GSAP.global engine).
Proof.
  apply stays_pure. intros s. unfold GSAP.global. by repeat case_match.
Qed.

#[local] Hint Resolve stays_global : stays.

Lemma stays_call el fn startTime : Footprint.stays el (call fn startTime).
Proof.
  destruct fn; unfold call, rAF.play_, rAF.update_, GSAP.play_; stays.
Qed.

#[local] Hint Resolve stays_call : stays.

Section Stays.

Variable boundingClientRect : list Call → elem → DOMRect.
Variable computedOpacity : list Call → elem → float.

Lemma stays_getBoundingClientRect el :
  Footprint.stays el (FLIP.getBoundingClientRect boundingClientRect el).
Proof.
  intros s _. split; [apply same_config_refl|].
  exists [GetBoundingClientRect el]. split; [done|by constructor].
Qed.

Lemma stays_getComputedOpacity el :
  Footprint.stays el (FLIP.getComputedOpacity computedOpacity el).
Proof.
  intros s _. split; [apply same_config_refl|].
  exists [GetComputedStyle el]. split; [done|by constructor].
Qed.

#[local] Hint Resolve stays_getBoundingClientRect stays_getComputedOpacity
  : stays.

Lemma stays_first el :
  Footprint.stays el (FLIP.first boundingClientRect computedOpacity).
Proof. unfold FLIP.first. stays. Qed.

Lemma stays_last el lastClassName :
  Footprint.stays el (FLIP.last boundingClientRect computedOpacity lastClassName).
Proof. unfold FLIP.last. stays. Qed.

#[local] Hint Resolve stays_first stays_last : stays.

Lemma stays_run el (m : Life.Method) :
  Footprint.stays el (Life.run boundingClientRect computedOpacity m).
Proof.
  destruct m; simpl; auto with stays.
  - intros [o w] _. simpl. split; [apply same_config_refl|].
    exists []. by rewrite app_nil_r.
  - unfold FLIP.snapshot. stays.
  - unfold FLIP.play. stays.
  - apply (stays_call el rAF_update_ None).
Qed.

Lemma stays_run_all (ms : list Life.Method) (s : FLIP.State) :
  let s' := Life.run_all boundingClientRect computedOpacity ms s in
  Footprint.same_config s.1 s'.1
  ∧ ∃ added,
      Host.history s'.2 = Host.history s.2 ++ added
      ∧ Forall (Footprint.on_element (FLIP.element_ s.1)) added.
Proof.
  revert s; induction ms as [|m ms IH]; intros s; simpl.
  { split; [apply same_config_refl|]. exists []. by rewrite app_nil_r. }
  destruct (stays_run (FLIP.element_ s.1) m s eq_refl)
    as (Hc & added & Hh & Ha).
  destruct (IH (Life.run boundingClientRect computedOpacity m s).2)
    as (Hc' & added' & Hh' & Ha').
  split; [by eapply same_config_trans|].
  exists (added ++ added'). rewrite Hh', Hh, (assoc_L (++)).
  split; [done|]. apply Forall_app. split; [done|].
  destruct Hc as [<- _]. done.
Qed.

End Stays.

(** ** The life of a helper *)

Lemma cleanUpAndFireEvent__run (o : Instance) (w : World)
    (prior : InvertDelta) :
  FLIP.invert_ o = Some prior →
  FLIP.cleanUpAndFireEvent_ (o, w)
  = (Ok tt,
     (FLIP.set_invert_ (Some FLIP.identity_delta)
        (FLIP.set_last_ FLIP.zero_snapshot
           (FLIP.set_first_ FLIP.zero_snapshot o)),
      Host.records
        [ StyleSet (FLIP.element_ o) "transformOrigin" SVNull;
          StyleSet (FLIP.element_ o) "transform" SVNull;
          StyleSet (FLIP.element_ o) "opacity" SVNull;
          StyleSet (FLIP.element_ o) "willChange" SVNull;
          DispatchEvent (FLIP.element_ o)
            {| Host.type := "flipComplete"; Host.detail := VNull;
               Host.bubbles := true; Host.cancelable := true |} ]
        w)).
Proof.
  intros Hi.
  unfold FLIP.cleanUpAndFireEvent_, FLIP.removeTransformsAndOpacity_,
    FLIP.resetFirstLastAndInvertValues_, FLIP.fire_, mbind, M_bind,
    FLIP.this, FLIP.update, FLIP.host; simpl.
  rewrite Hi; simpl. unfold Host.record. by rewrite !records_records.
Qed.

Lemma run_all_app bcr co (ms1 ms2 : list Life.Method) (s : FLIP.State) :
  Life.run_all bcr co (ms1 ++ ms2) s
  = Life.run_all bcr co ms2 (Life.run_all bcr co ms1 s).
Proof. revert s; induction ms1 as [|m ms1 IH]; intros s; [done|apply IH]. Qed.

Lemma constructor_fresh (statics : Statics) (options : Config.Options)
    (o : Instance) :
  FLIP.constructor statics options = Ok o →
  FLIP.first_ o = FLIP.zero_snapshot
  ∧ FLIP.last_ o = FLIP.zero_snapshot
  ∧ FLIP.invert_ o = Some FLIP.identity_delta
  ∧ FLIP.start_ o = 0%float.
Proof.
  unfold FLIP.constructor.
  repeat (case_match; try discriminate). by intros [= <-].
Qed.

Section Lifecycle.

Variable boundingClientRect : list Call → elem → DOMRect.
Variable computedOpacity : list Call → elem → float.

Lemma own_player_same (o o' : Instance) :
  Footprint.same_config o o' → Footprint.own_player o →
  Footprint.own_player o'.
Proof.
  intros (_ & _ & _ & _ & _ & _ & Hb). unfold Footprint.own_player.
  by rewrite Hb.
Qed.

(** A run keeps the configuration of a helper that has no foreign
    function: [play()] then calls a function of one of the two players. *)
Lemma run_keeps_config (m : Life.Method) (s : FLIP.State) :
  Footprint.own_player s.1 →
  Footprint.same_config s.1
    (Life.run boundingClientRect computedOpacity m s).2.1.
Proof.
  intros Hown. destruct m as [| | | | | | |startTime| |].
  8: { cbn [Life.run]. unfold FLIP.play, mbind, M_bind, FLIP.this.
       cbn beta iota delta [fst snd].
       destruct (FLIP.invert_ s.1); [|apply same_config_refl].
       destruct (FLIP.bound s.1 !! "play_") as [fn|] eqn:Hfn;
         [|apply same_config_refl].
       destruct fn as [| | |id]; [..|by apply Hown in Hfn];
         exact (proj1 (stays_call (FLIP.element_ s.1) _ startTime s
                         eq_refl)). }
  all: exact (proj1 (stays_run boundingClientRect computedOpacity
                       (FLIP.element_ s.1) _ s eq_refl)).
Qed.

Lemma run_all_keeps_config (ms : list Life.Method) (s : FLIP.State) :
  Footprint.own_player s.1 →
  Footprint.same_config s.1
    (Life.run_all boundingClientRect computedOpacity ms s).1.
Proof.
  revert s; induction ms as [|m ms IH]; intros s Hown; simpl.
  { apply same_config_refl. }
  pose proof (run_keeps_config m s Hown) as Hc.
  eapply same_config_trans; [exact Hc|].
  apply IH. by apply (own_player_same s.1).
Qed.

(** X1: whatever sequence of public method calls, frames of the
    [requestAnimationFrame] player, completion callbacks and clock ticks
    runs on a helper that has no foreign function (a helper played by the
    [requestAnimationFrame] player or by the GSAP player), and whether the
    calls return or throw, what the constructor fixed is never changed: the
    element, the duration, the delay, the easing, the two flags and the
    bound player functions.  (The CSS player is not covered: its [play_]
    replaces an [easing_] that is an array.) *)
Theorem configuration_is_fixed (ms : list Life.Method) (s : FLIP.State) :
  Footprint.own_player s.1 →
  Footprint.same_config s.1
    (Life.run_all boundingClientRect computedOpacity ms s).1.
Proof. apply run_all_keeps_config. Qed.

(** X2: such a sequence only appends to the calls made on the host, and
    every call it appends that names an element (a class change, a
    measurement, a style write, an event, the target of a tween) names the
    helper's own element. *)
Theorem calls_name_own_element (ms : list Life.Method) (s : FLIP.State) :
  ∃ added,
    Host.history (Life.run_all boundingClientRect computedOpacity ms s).2
    = Host.history s.2 ++ added
    ∧ Forall (Footprint.on_element (FLIP.element_ s.1)) added.
Proof. apply stays_run_all. Qed.

(** X3: after any such sequence that ends with the completion routine, a
    helper built by the constructor that has no foreign function is, field
    for field, the helper the constructor built, except for [start_], which
    the completion routine does not reset. *)
Theorem completion_restores_constructed (statics : Statics)
    (options : Config.Options) (o : Instance) (w : World)
    (ms : list Life.Method) :
  FLIP.constructor statics options = Ok o →
  Footprint.own_player o →
  let s := Life.run_all boundingClientRect computedOpacity
             (ms ++ [Life.Complete]) (o, w) in
  FLIP.element_ s.1 = FLIP.element_ o
  ∧ FLIP.first_ s.1 = FLIP.first_ o
  ∧ FLIP.last_ s.1 = FLIP.last_ o
  ∧ FLIP.invert_ s.1 = FLIP.invert_ o
  ∧ FLIP.duration_ s.1 = FLIP.duration_ o
  ∧ FLIP.delay_ s.1 = FLIP.delay_ o
  ∧ FLIP.easing_ s.1 = FLIP.easing_ o
  ∧ FLIP.updateTransform_ s.1 = FLIP.updateTransform_ o
  ∧ FLIP.updateOpacity_ s.1 = FLIP.updateOpacity_ o
  ∧ FLIP.bound s.1 = FLIP.bound o.
Proof.
  intros Ho Hown s. subst s. rewrite run_all_app.
  destruct (constructor_fresh _ _ _ Ho) as (Hf & Hl & Hi & _).
  pose proof (run_all_keeps_config ms (o, w) Hown) as Hc.
  destruct (invert__never_null boundingClientRect computedOpacity ms (o, w))
    as [delta Hdelta]; [simpl; by rewrite Hi|].
  destruct (Life.run_all _ _ ms (o, w)) as [o1 w1]. simpl in *.
  rewrite (cleanUpAndFireEvent__run o1 w1 delta Hdelta). simpl.
  destruct Hc as (? & ? & ? & ? & ? & ? & ?).
  by rewrite Hf, Hl, Hi.
Qed.

End Lifecycle.

Lemma configuration_is_fixed_scenario_A :
  Footprint.same_config Scenario.fresh
    (Life.run_all Scenario.boundingClientRect Scenario.computedOpacity
       [ Life.Snapshot (VString "end"); Life.Play None; Life.Tick 1165;
         Life.Frame; Life.Complete ]
       (Scenario.fresh, Scenario.world)).1.
Proof.
  apply (configuration_is_fixed
           Scenario.boundingClientRect Scenario.computedOpacity
           [ Life.Snapshot (VString "end"); Life.Play None; Life.Tick 1165;
             Life.Frame; Life.Complete ]
           (Scenario.fresh, Scenario.world)).
  apply (bool_decide_unpack _). vm_compute. exact I.
Defined.

Lemma completion_restores_constructed_scenario_A :
  let s :=
    Life.run_all Scenario.boundingClientRect Scenario.computedOpacity
      ([ Life.Snapshot (VString "end"); Life.Play None; Life.Tick 1165;
         Life.Frame ] ++ [Life.Complete])
      (Scenario.fresh, Scenario.world) in
  FLIP.element_ s.1 = FLIP.element_ Scenario.fresh
  ∧ FLIP.first_ s.1 = FLIP.first_ Scenario.fresh
  ∧ FLIP.last_ s.1 = FLIP.last_ Scenario.fresh
  ∧ FLIP.invert_ s.1 = FLIP.invert_ Scenario.fresh
  ∧ FLIP.duration_ s.1 = FLIP.duration_ Scenario.fresh
  ∧ FLIP.delay_ s.1 = FLIP.delay_ Scenario.fresh
  ∧ FLIP.easing_ s.1 = FLIP.easing_ Scenario.fresh
  ∧ FLIP.updateTransform_ s.1 = FLIP.updateTransform_ Scenario.fresh
  ∧ FLIP.updateOpacity_ s.1 = FLIP.updateOpacity_ Scenario.fresh
  ∧ FLIP.bound s.1 = FLIP.bound Scenario.fresh.
Proof.
  apply (completion_restores_constructed
           Scenario.boundingClientRect Scenario.computedOpacity
           Scenario.statics (Scenario.options 0) Scenario.fresh
           Scenario.world
           [ Life.Snapshot (VString "end"); Life.Play None; Life.Tick 1165;
             Life.Frame ]).
  - reflexivity.
  - apply (bool_decide_unpack _). vm_compute. exact I.
Defined.

(** ** Snapshots *)

Section Snapshot.

Variable boundingClientRect : list Call → elem → DOMRect.
Variable computedOpacity : list Call → elem → float.

Lemma first_run (o : Instance) (w : World) :
  FLIP.first boundingClientRect computedOpacity (o, w)
  = (Ok tt,
     (FLIP.set_first_
        (Snap.taken boundingClientRect computedOpacity (Host.history w)
           (FLIP.element_ o)) o,
      Host.records (Pass.queries o) w)).
Proof.
  unfold FLIP.first, mbind, M_bind; simpl.
  unfold Host.record. by rewrite records_records.
Qed.

Lemma last_run (o : Instance) (w : World) (lastClassName : Val) :
  Snap.accepted lastClassName →
  let added := Snap.class_added (FLIP.element_ o) lastClassName in
  FLIP.last boundingClientRect computedOpacity lastClassName (o, w)
  = (Ok tt,
     (FLIP.set_last_
        (Snap.taken boundingClientRect computedOpacity
           (Host.history w ++ added) (FLIP.element_ o)) o,
      Host.records (added ++ Pass.queries o) w)).
Proof.
  intros Hok added. subst added.
  unfold FLIP.last, FLIP.addClass, FLIP.classList_add.
  destruct lastClassName as [| | | |className| |];
    try rewrite (Hok className eq_refl);
    unfold mbind, M_bind, Snap.taken; simpl;
    unfold Host.record; by rewrite ?records_records, ?app_nil_r.
Qed.

Lemma last_rejected (o : Instance) (w : World) (className : string)
    (e : JS.Exn) :
  Host.validate_token className = Some e →
  FLIP.last boundingClientRect computedOpacity (VString className) (o, w)
  = (Throw e, (o, w)).
Proof.
  intros He. unfold FLIP.last, FLIP.addClass, FLIP.classList_add.
  rewrite He. reflexivity.
Qed.

Lemma invert_run (o : Instance) (w : World) (f l : DOMRect)
    (prior : InvertDelta) :
  FLIP.layout (FLIP.first_ o) = Some f →
  FLIP.layout (FLIP.last_ o) = Some l →
  FLIP.invert_ o = Some prior →
  ∃ styles,
    FLIP.invert (o, w)
    = (Ok tt,
       (FLIP.set_invert_
          (Some (Snap.delta f l (FLIP.opacity (FLIP.first_ o))
                   (FLIP.opacity (FLIP.last_ o)))) o,
        Host.records styles w))
    ∧ Forall (λ c, ∃ p v, c = StyleSet (FLIP.element_ o) p v) styles.
Proof.
  intros Hf Hl Hi. unfold FLIP.invert, mbind, M_bind, FLIP.this; simpl.
  rewrite Hf, Hl, Hi.
  destruct (FLIP.updateTransform_ o), (FLIP.updateOpacity_ o); simpl;
    unfold FLIP.host, Host.record; simpl; rewrite ?records_records;
    eexists; (split; [reflexivity|]); repeat constructor; eauto.
Qed.

(** X4: [snapshot(lastClassName)], for a class name the document accepts
    (or an argument that is not a string), measures the element, adds the
    class, measures again and inverts: [first_] holds the layout and the
    opacity as they were before the class was added, [last_] those after,
    [invert_] the delta between the two, and after the two measurements
    only styles of the element are written. *)
Theorem snapshot_measures_around_class (o : Instance) (w : World)
    (lastClassName : Val) (prior : InvertDelta) :
  Snap.accepted lastClassName →
  FLIP.invert_ o = Some prior →
  let el := FLIP.element_ o in
  let added := Pass.queries o ++ Snap.class_added el lastClassName in
  let f := Snap.taken boundingClientRect computedOpacity (Host.history w) el in
  let l := Snap.taken boundingClientRect computedOpacity
             (Host.history w ++ added) el in
  ∃ o' styles,
    FLIP.snapshot boundingClientRect computedOpacity lastClassName (o, w)
    = (Ok tt, (o', Host.records (added ++ Pass.queries o ++ styles) w))
    ∧ Forall (λ c, ∃ p v, c = StyleSet el p v) styles
    ∧ FLIP.first_ o' = f
    ∧ FLIP.last_ o' = l
    ∧ FLIP.invert_ o'
      = Some (Snap.delta (boundingClientRect (Host.history w) el)
                (boundingClientRect (Host.history w ++ added) el)
                (FLIP.opacity f) (FLIP.opacity l)).
Proof.
  intros Hok Hi el added f l.
  unfold FLIP.snapshot. rewrite bind_run, first_run. cbn [fst snd].
  rewrite bind_run, last_run by done. cbn [fst snd].
  set (o2 := FLIP.set_last_ _ _).
  edestruct (invert_run o2) as (styles & -> & Hstyles);
    [reflexivity..|exact Hi|].
  exists (FLIP.set_invert_
            (Some (Snap.delta (boundingClientRect (Host.history w) el)
                     (boundingClientRect (Host.history w ++ added) el)
                     (FLIP.opacity f) (FLIP.opacity l))) o2), styles.
  split.
  { f_equal. f_equal.
    - subst o2 added el. simpl. by rewrite <- !(assoc_L (++)).
    - subst added. by rewrite !records_records, <- !(assoc_L (++)). }
  split; [exact Hstyles|]. subst o2 f l added el. simpl.
  by rewrite <- !(assoc_L (++)).
Qed.

(** X5: when the document rejects the class name (it is empty or
    contains white space), [snapshot] throws the document's exception
    after [first()] has run: the first snapshot is taken and nothing else
    happens; no class is added, the last snapshot is not taken, the delta is
    not computed, no style is written. *)
Theorem snapshot_rejected_class (o : Instance) (w : World)
    (className : string) (e : JS.Exn) :
  Host.validate_token className = Some e →
  FLIP.snapshot boundingClientRect computedOpacity (VString className) (o, w)
  = (Throw e,
     (FLIP.set_first_
        (Snap.taken boundingClientRect computedOpacity (Host.history w)
           (FLIP.element_ o)) o,
      Host.records (Pass.queries o) w)).
Proof.
  intros He. unfold FLIP.snapshot. rewrite bind_run, first_run.
  cbn [fst snd]. rewrite bind_run, (last_rejected _ _ _ e) by done. done.
Qed.

End Snapshot.

Lemma snapshot_rejected_class_two_tokens :
  FLIP.snapshot Scenario.boundingClientRect Scenario.computedOpacity
    (VString "a b") (Scenario.fresh, Scenario.world)
  = (Throw (DOMException "InvalidCharacterError"),
     (FLIP.set_first_
        {| FLIP.layout := Some Scenario.rect_before; FLIP.opacity := 1 |}
        Scenario.fresh,
      Host.records [GetBoundingClientRect 0; GetComputedStyle 0]
        Scenario.world)).
Proof.
  apply (snapshot_rejected_class
           Scenario.boundingClientRect Scenario.computedOpacity
           Scenario.fresh Scenario.world "a b"
           (DOMException "InvalidCharacterError")).
  reflexivity.
Defined.

Lemma snapshot_measures_around_class_scenario_A :
  ∃ o' styles,
    FLIP.snapshot Scenario.boundingClientRect Scenario.computedOpacity
      (VString "end") (Scenario.fresh, Scenario.world)
    = (Ok tt,
       (o',
        Host.records
          ((Pass.queries Scenario.fresh ++ [ClassListAdd 0 "end"])
           ++ Pass.queries Scenario.fresh ++ styles)
          Scenario.world))
    ∧ Forall (λ c, ∃ p v, c = StyleSet 0 p v) styles
    ∧ FLIP.first_ o'
      = {| FLIP.layout := Some Scenario.rect_before; FLIP.opacity := 1 |}
    ∧ FLIP.last_ o'
      = {| FLIP.layout := Some Scenario.rect_after; FLIP.opacity := 0.5 |}
    ∧ FLIP.invert_ o' = Some Cases.delta.
Proof.
  apply (snapshot_measures_around_class
           Scenario.boundingClientRect Scenario.computedOpacity
           Scenario.fresh Scenario.world (VString "end")
           FLIP.identity_delta).
  - intros className [= <-]. reflexivity.
  - reflexivity.
Defined.

Section Reuse.

Variable boundingClientRect : list Call → elem → DOMRect.
Variable computedOpacity : list Call → elem → float.

(** X6: once an animation has completed, the helper has forgotten both
    snapshots: [invert()] throws, naming [first()], right after the
    completion and after [last()] alone; it throws, naming [last()], after
    [first()] alone; it succeeds once both have been called again, in
    either order. *)
Theorem completed_helper_needs_both_snapshots (o : Instance) (w : World)
    (prior : InvertDelta) (lastClassName : Val) :
  FLIP.invert_ o = Some prior →
  Snap.accepted lastClassName →
  let completed := (FLIP.cleanUpAndFireEvent_ (o, w)).2 in
  let first_only :=
    (FLIP.first boundingClientRect computedOpacity completed).2 in
  let last_only :=
    (FLIP.last boundingClientRect computedOpacity lastClassName completed).2 in
  FLIP.invert completed
  = (Throw (Error "You must call first() before invert()"), completed)
  ∧ FLIP.invert first_only
    = (Throw (Error "You must call last() before invert()"), first_only)
  ∧ FLIP.invert last_only
    = (Throw (Error "You must call first() before invert()"), last_only)
  ∧ ((FLIP.last boundingClientRect computedOpacity lastClassName;;
      FLIP.invert) first_only).1 = Ok tt
  ∧ ((FLIP.first boundingClientRect computedOpacity;;
      FLIP.invert) last_only).1 = Ok tt.
Proof.
  intros Hi Hok completed first_only last_only.
  subst first_only last_only completed.
  rewrite (cleanUpAndFireEvent__run o w prior Hi). cbn [fst snd].
  rewrite first_run, last_run by done. cbn [fst snd].
  repeat split; try reflexivity.
  - rewrite bind_run, last_run by done. cbn [fst snd].
    edestruct invert_run as (styles & -> & _); [reflexivity..|done].
  - rewrite bind_run, first_run. cbn [fst snd].
    edestruct invert_run as (styles & -> & _); [reflexivity..|done].
Qed.

End Reuse.

Lemma completed_helper_needs_both_snapshots_scenario_A :
  let completed :=
    (FLIP.cleanUpAndFireEvent_ (Scenario.inverted, Scenario.world)).2 in
  let first_only :=
    (FLIP.first Scenario.boundingClientRect Scenario.computedOpacity
       completed).2 in
  let last_only :=
    (FLIP.last Scenario.boundingClientRect Scenario.computedOpacity
       (VString "end") completed).2 in
  FLIP.invert completed
  = (Throw (Error "You must call first() before invert()"), completed)
  ∧ FLIP.invert first_only
    = (Throw (Error "You must call last() before invert()"), first_only)
  ∧ FLIP.invert last_only
    = (Throw (Error "You must call first() before invert()"), last_only)
  ∧ ((FLIP.last Scenario.boundingClientRect Scenario.computedOpacity
        (VString "end");;
      FLIP.invert) first_only).1 = Ok tt
  ∧ ((FLIP.first Scenario.boundingClientRect Scenario.computedOpacity;;
      FLIP.invert) last_only).1 = Ok tt.
Proof.
  apply (completed_helper_needs_both_snapshots
           Scenario.boundingClientRect Scenario.computedOpacity
           Scenario.inverted Scenario.world Cases.delta (VString "end")).
  - reflexivity.
  - intros className [= <-]. reflexivity.
Defined.

(** ** Numbers: the order, through integers *)

Section Order.

Local Open Scope float_scope.

Lemma SFcompare_rank (a b : spec_float) :
  a ≠ S754_nan → b ≠ S754_nan →
  match SFcompare a b with
  | Some Lt => Rank.lt a b
  | Some Eq => Rank.eq a b
  | Some Gt => Rank.lt b a
  | None => False
  end.
Proof.
  intros Ha Hb. unfold Rank.lt, Rank.eq.
  destruct a as [[]|[]| |[] ma ea], b as [[]|[]| |[] mb eb];
    try congruence; simpl; try lia.
  all: destruct (Z.compare_spec ea eb); try lia.
  all: rewrite Pos.compare_cont_spec; simpl.
  all: destruct (Pos.compare_spec ma mb); simpl; lia.
Qed.

Lemma not_nan (n : float) : is_nan n = false → Prim2SF n ≠ S754_nan.
Proof. rewrite <- is_nan_spec. congruence. Qed.

Lemma ltb_rank (a b : float) :
  is_nan a = false → is_nan b = false →
  (a <? b) = true ↔ Rank.lt (Prim2SF a) (Prim2SF b).
Proof.
  intros Ha%not_nan Hb%not_nan. rewrite FloatAxioms.ltb_spec. unfold SFltb.
  pose proof (SFcompare_rank _ _ Ha Hb) as H.
  destruct (SFcompare _ _) as [[]|]; unfold Rank.lt, Rank.eq in *;
    split; try done; lia.
Qed.

Lemma leb_rank (a b : float) :
  is_nan a = false → is_nan b = false →
  (a <=? b) = true
  ↔ Rank.lt (Prim2SF a) (Prim2SF b) ∨ Rank.eq (Prim2SF a) (Prim2SF b).
Proof.
  intros Ha%not_nan Hb%not_nan. rewrite FloatAxioms.leb_spec. unfold SFleb.
  pose proof (SFcompare_rank _ _ Ha Hb) as H.
  destruct (SFcompare _ _) as [[]|]; unfold Rank.lt, Rank.eq in *;
    split; try done; try lia; auto.
Qed.

Lemma eqb_rank (a b : float) :
  is_nan a = false → is_nan b = false →
  (a =? b) = true ↔ Rank.eq (Prim2SF a) (Prim2SF b).
Proof.
  intros Ha%not_nan Hb%not_nan. rewrite FloatAxioms.eqb_spec. unfold SFeqb.
  pose proof (SFcompare_rank _ _ Ha Hb) as H.
  destruct (SFcompare _ _) as [[]|]; unfold Rank.lt, Rank.eq in *;
    split; try done; lia.
Qed.

End Order.

Ltac rank :=
  repeat match goal with
    | H : (?a <? ?b)%float = true |- _ => apply ltb_rank in H; [|assumption..]
    | H : (?a <? ?b)%float = false |- _ =>
        apply not_true_iff_false in H; rewrite ltb_rank in H by assumption
    | H : (?a <=? ?b)%float = true |- _ => apply leb_rank in H; [|assumption..]
    | |- (?a <? ?b)%float = true => apply ltb_rank; [assumption..|]
    | |- (?a <=? ?b)%float = true => apply leb_rank; [assumption..|]
    | |- (?a =? ?b)%float = true => apply eqb_rank; [assumption..|]
    end;
  unfold Rank.lt, Rank.eq in *; lia.

Section ClampRange.

Local Open Scope float_scope.

Lemma Math_max_cases (a b : float) :
  is_nan a = false → is_nan b = false →
  (JS.Math_max a b = a ∨ JS.Math_max a b = b)
  ∧ (a <=? JS.Math_max a b) = true ∧ (b <=? JS.Math_max a b) = true.
Proof.
  intros Ha Hb. unfold JS.Math_max. rewrite Ha, Hb. simpl.
  destruct (a <? b) eqn:E1; [|destruct (b <? a) eqn:E2;
                               [|destruct (JS.is_neg_zero a)]].
  all: split; [auto|split; rank].
Qed.

Lemma Math_min_cases (a b : float) :
  is_nan a = false → is_nan b = false →
  (JS.Math_min a b = a ∨ JS.Math_min a b = b)
  ∧ (JS.Math_min a b <=? a) = true ∧ (JS.Math_min a b <=? b) = true.
Proof.
  intros Ha Hb. unfold JS.Math_min. rewrite Ha, Hb. simpl.
  destruct (a <? b) eqn:E1; [|destruct (b <? a) eqn:E2;
                               [|destruct (JS.is_neg_zero a)]].
  all: split; [auto|split; rank].
Qed.

(** X7: for numbers (no [NaN]) with [min <= max], [clamp_] returns one
    of its three arguments; the result lies between [min] and [max]; it is
    [value] (up to the sign of zero) when [value] lies in the range, [min]
    when [value] is below it and [max] when [value] is above it. *)
Theorem clamp__saturates (value min max : float) :
  is_nan value = false → is_nan min = false → is_nan max = false →
  (min <=? max) = true →
  let r := FLIP.clamp_ value min max in
  (r = value ∨ r = min ∨ r = max)
  ∧ (min <=? r) = true ∧ (r <=? max) = true
  ∧ ((min <=? value) = true → (value <=? max) = true → (r =? value) = true)
  ∧ ((value <? min) = true → (r =? min) = true)
  ∧ ((max <? value) = true → (r =? max) = true).
Proof.
  intros Hv Hlo Hhi Hle r. subst r. unfold FLIP.clamp_.
  destruct (Math_max_cases min value Hlo Hv) as (Hm & Hm1 & Hm2).
  set (m := JS.Math_max min value) in *.
  assert (is_nan m = false) as Hmn by (destruct Hm as [->| ->]; done).
  destruct (Math_min_cases max m Hhi Hmn) as (Hr & Hr1 & Hr2).
  set (r := JS.Math_min max m) in *.
  assert (is_nan r = false) as Hrn by (destruct Hr as [->| ->]; done).
  clearbody r. clearbody m.
  split; [destruct Hr as [->| ->]; destruct Hm as [->| ->]; auto|].
  repeat split; intros; destruct Hr as [->| ->], Hm as [->| ->]; rank.
Qed.

End ClampRange.

Lemma clamp__saturates_above_1 :
  (FLIP.clamp_ 1.5 0 1 = 1.5 ∨ FLIP.clamp_ 1.5 0 1 = 0
   ∨ FLIP.clamp_ 1.5 0 1 = 1)%float
  ∧ (0 <=? FLIP.clamp_ 1.5 0 1)%float = true
  ∧ (FLIP.clamp_ 1.5 0 1 <=? 1)%float = true
  ∧ ((0 <=? 1.5)%float = true → (1.5 <=? 1)%float = true →
     (FLIP.clamp_ 1.5 0 1 =? 1.5)%float = true)
  ∧ ((1.5 <? 0)%float = true → (FLIP.clamp_ 1.5 0 1 =? 0)%float = true)
  ∧ ((1 <? 1.5)%float = true → (FLIP.clamp_ 1.5 0 1 =? 1)%float = true).
Proof.
  apply (clamp__saturates 1.5 0 1); reflexivity.
Defined.

Section ClampDefaults.

Local Open Scope float_scope.

Lemma is_nan_eq (n : float) : is_nan n = true → n = nan.
Proof. intros H%is_nan_spec. by apply Prim2SF_inj. Qed.

Lemma class_bottom (n : float) :
  is_nan n = false → (Rank.class (Prim2SF n) ≤ -2)%Z → n = neg_infinity.
Proof.
  intros Hn%not_nan H. apply Prim2SF_inj.
  change (Prim2SF neg_infinity) with (S754_infinity true).
  destruct (Prim2SF n) as [[]|[]| |[]]; simpl in H; try done; lia.
Qed.

Lemma class_top (n : float) :
  is_nan n = false → (2 ≤ Rank.class (Prim2SF n))%Z → n = infinity.
Proof.
  intros Hn%not_nan H. apply Prim2SF_inj.
  change (Prim2SF infinity) with (S754_infinity false).
  destruct (Prim2SF n) as [[]|[]| |[]]; simpl in H; try done; lia.
Qed.

Lemma Math_max_neg_infinity (value : float) :
  JS.Math_max neg_infinity value = value.
Proof.
  unfold JS.Math_max. destruct (is_nan value) eqn:Hn.
  { by rewrite (is_nan_eq value Hn). }
  assert (is_nan neg_infinity = false) as Hi by reflexivity.
  rewrite Hi. simpl.
  destruct (neg_infinity <? value) eqn:E1; [done|].
  assert (value = neg_infinity) as ->; [|reflexivity].
  apply class_bottom; [done|].
  apply not_true_iff_false in E1. rewrite ltb_rank in E1 by done.
  change (Prim2SF neg_infinity) with (S754_infinity true) in E1.
  unfold Rank.lt in E1. simpl in E1.
  destruct (Prim2SF value) as [[]|[]| |[]]; simpl in *; lia.
Qed.

Lemma Math_min_infinity (value : float) :
  JS.Math_min infinity value = value.
Proof.
  unfold JS.Math_min. destruct (is_nan value) eqn:Hn.
  { by rewrite (is_nan_eq value Hn). }
  assert (is_nan infinity = false) as Hi by reflexivity.
  rewrite Hi. simpl.
  assert ((infinity <? value) = false) as ->.
  { apply not_true_iff_false. rewrite ltb_rank by done.
    change (Prim2SF infinity) with (S754_infinity false).
    unfold Rank.lt. simpl.
    destruct (Prim2SF value) as [[]|[]| |[]]; simpl in *; lia. }
  destruct (value <? infinity) eqn:E1; [done|].
  assert (value = infinity) as ->; [|reflexivity].
  apply class_top; [done|].
  apply not_true_iff_false in E1. rewrite ltb_rank in E1 by done.
  change (Prim2SF infinity) with (S754_infinity false) in E1.
  unfold Rank.lt in E1. simpl in E1.
  destruct (Prim2SF value) as [[]|[]| |[]]; simpl in *; lia.
Qed.

(** X8: with both bounds left out, [clamp_] returns its argument
    unchanged, whatever it is: a number, a signed zero, an infinity or
    [NaN].  With only [min] given it is [Math.max(min, value)], with only
    [max] given [Math.min(max, value)]. *)
Theorem clamp__without_bounds (value : float) :
  Defaults.clamp_ value None None = value
  ∧ (∀ min, Defaults.clamp_ value (Some min) None = JS.Math_max min value)
  ∧ (∀ max, Defaults.clamp_ value None (Some max) = JS.Math_min max value).
Proof.
  unfold Defaults.clamp_, FLIP.clamp_. simpl. repeat split; intros.
  - by rewrite Math_max_neg_infinity, Math_min_infinity.
  - by rewrite Math_min_infinity.
  - by rewrite Math_max_neg_infinity.
Qed.

End ClampDefaults.

(** ** The frame loop *)

(** What a frame of the player does, when the easing is a function. *)
Lemma update__run (o : Instance) (w : World) (easing : float → float)
    (delta : InvertDelta) :
  FLIP.easing_ o = VFunction easing →
  FLIP.invert_ o = Some delta →
  let time :=
    FLIP.clamp_ ((Host.now w - FLIP.start_ o) / FLIP.duration_ o)%float 0 1 in
  ∃ styles,
    Forall (λ c, ∃ el p v, c = StyleSet el p v) styles
    ∧ rAF.update_ (o, w)
      = (if PrimFloat.ltb time 1 then rAF.requestAnimationFrame_update_
         else FLIP.cleanUpAndFireEvent_) (o, Host.records styles w).
Proof.
  intros He Hi time.
  unfold rAF.update_, mbind, M_bind, FLIP.performance_now, FLIP.this.
  cbn beta iota delta [fst snd].
  rewrite He, Hi. fold time.
  destruct (FLIP.updateTransform_ o), (FLIP.updateOpacity_ o);
    unfold FLIP.host, Host.record, mret, M_ret;
    cbn beta iota delta [fst snd app];
    rewrite ?records_records; eexists; (split; [|reflexivity || (symmetry; rewrite records_nil; reflexivity)]).
  all: repeat constructor; eauto.
Qed.

Lemma requestAnimationFrame_update__run (o : Instance) (w : World)
    (fn : PlayerFn) :
  FLIP.bound o !! "update_" = Some fn →
  rAF.requestAnimationFrame_update_ (o, w)
  = (Ok tt, (o, Host.record (RequestAnimationFrame (BoundPlayerFn fn)) w)).
Proof.
  intros Hb. unfold rAF.requestAnimationFrame_update_, mbind, M_bind,
    FLIP.this; simpl. by rewrite Hb.
Qed.

Lemma requested_app (cs1 cs2 : list Call) :
  Loop.requested (cs1 ++ cs2) = Loop.requested cs1 ++ Loop.requested cs2.
Proof. apply omap_app. Qed.

Lemma completions_app (cs1 cs2 : list Call) :
  Loop.completions (cs1 ++ cs2)
  = Loop.completions cs1 + Loop.completions cs2.
Proof.
  unfold Loop.completions. by rewrite List.filter_app, length_app.
Qed.

Lemma styles_requested (styles : list Call) :
  Forall (λ c, ∃ el p v, c = StyleSet el p v) styles →
  Loop.requested styles = [] ∧ Loop.completions styles = 0.
Proof.
  induction 1 as [|c cs (el & p & v & ->) _ [IH1 IH2]]; [done|].
  split; [exact IH1|exact IH2].
Qed.

Section FrameLoop.

Variable easing : float → float.

(** Frames with nothing to run change nothing but the clock. *)
Lemma frames_idle (times : list float) (mark : nat) (s : FLIP.State) :
  Loop.requested (drop mark (Host.history s.2)) = [] →
  let run := Loop.frames times mark s in
  run.2.1 = s.1
  ∧ Host.history run.2.2 = Host.history s.2
  ∧ Loop.pending run = [].
Proof.
  revert mark s; induction times as [|time rest IH]; intros mark s Hq; simpl.
  { done. }
  unfold Loop.frame. rewrite Hq. simpl.
  apply (IH (length (Host.history s.2)) (s.1, Host.at_time time s.2)).
  simpl. by rewrite drop_all.
Qed.

(** One frame of [n] loops of the same helper. *)
Lemma frame_fold (n : nat) (o : Instance) (w : World) :
  Loop.looping easing (o, w) →
  let s' := foldl (λ s cb, (Loop.invoke cb (Host.now w) s).2) (o, w)
              (replicate n (BoundPlayerFn rAF_update_)) in
  ∃ added,
    Host.history s'.2 = Host.history w ++ added
    ∧ Host.now s'.2 = Host.now w
    ∧ Loop.looping easing s'
    ∧ FLIP.start_ s'.1 = FLIP.start_ o
    ∧ FLIP.duration_ s'.1 = FLIP.duration_ o
    ∧ FLIP.element_ s'.1 = FLIP.element_ o
    ∧ if Loop.due o (Host.now w)
      then Loop.requested added = []
           ∧ Loop.completions added = n
           ∧ (0 < n → Loop.finished s')
      else Loop.requested added = replicate n (BoundPlayerFn rAF_update_)
           ∧ Loop.completions added = 0.
Proof.
  revert o w; induction n as [|n IH]; intros o w Hl; cbn [replicate foldl].
  { exists []. rewrite app_nil_r. do 2 (split; [done|]).
    split; [exact Hl|]. do 3 (split; [done|]).
    destruct (Loop.due o (Host.now w)); repeat split; try done; lia. }
  destruct Hl as (He & [delta Hi] & Hb). cbn [fst snd] in *.
  cbn [Loop.invoke call].
  destruct (update__run o w easing delta He Hi) as (styles & Hstyles & ->).
  destruct (styles_requested styles Hstyles) as [Hsr Hsc].
  unfold Loop.due at 1.
  destruct (PrimFloat.ltb _ 1) eqn:Hdue; cbn [negb].
  - rewrite (requestAnimationFrame_update__run _ _ rAF_update_ Hb).
    cbn [fst snd].
    set (w1 := Host.record _ (Host.records styles w)).
    destruct (IH o w1) as (added & Hh & Hn & Hl' & Hs & Hd & Hel & Hcase).
    { by repeat split; eauto. }
    change (Host.now w1) with (Host.now w) in *.
    exists (styles ++ [RequestAnimationFrame (BoundPlayerFn rAF_update_)]
            ++ added).
    split; [rewrite Hh; subst w1; simpl; by rewrite <- !(assoc_L (++))|].
    repeat (split; [done|]).
    unfold Loop.due in Hcase. rewrite Hdue in Hcase. cbn [negb] in Hcase.
    destruct Hcase as [Hr Hc].
    rewrite !requested_app, !completions_app, Hsr, Hsc, Hr, Hc. done.
  - rewrite (cleanUpAndFireEvent__run _ _ delta Hi). cbn [fst snd].
    set (o1 := FLIP.set_invert_ _ _).
    set (calls := [ StyleSet (FLIP.element_ o) "transformOrigin" SVNull;
                    StyleSet (FLIP.element_ o) "transform" SVNull;
                    StyleSet (FLIP.element_ o) "opacity" SVNull;
                    StyleSet (FLIP.element_ o) "willChange" SVNull;
                    DispatchEvent (FLIP.element_ o)
                      {| Host.type := "flipComplete"; Host.detail := VNull;
                         Host.bubbles := true; Host.cancelable := true |} ]).
    set (w1 := Host.records calls (Host.records styles w)).
    destruct (IH o1 w1) as (added & Hh & Hn & Hl' & Hs & Hd & Hel & Hcase).
    { by repeat split; eauto. }
    change (Host.now w1) with (Host.now w) in *.
    exists (styles ++ calls ++ added).
    split; [rewrite Hh; subst w1; simpl; by rewrite <- !(assoc_L (++))|].
    repeat (split; [done|]).
    change (Loop.due o1 (Host.now w))
      with (negb (PrimFloat.ltb
                    (FLIP.clamp_
                       ((Host.now w - FLIP.start_ o) / FLIP.duration_ o) 0 1)
                    1)) in Hcase.
    rewrite Hdue in Hcase. cbn [negb] in Hcase.
    destruct Hcase as (Hr & Hc & Hf).
    rewrite !requested_app, !completions_app, Hsr, Hsc, Hr, Hc.
    change (Loop.requested calls) with (@nil Callback).
    change (Loop.completions calls) with 1.
    split; [done|]. split; [simpl; lia|]. intros _.
    destruct n as [|n]; [|apply Hf; lia].
    cbn [replicate foldl] in *.
    unfold Loop.finished. subst o1. repeat split. cbn [fst snd].
    intros property before Hprop.
    assert (Host.history w1 = (Host.history w ++ styles) ++ calls) as ->
      by (subst w1; simpl; done).
    rewrite inline_style_app. subst calls. simpl.
    rewrite Nat.eqb_refl; simpl.
    repeat (apply elem_of_cons in Hprop as [->|Hprop]; [reflexivity|]).
    by apply elem_of_nil in Hprop.
Qed.

Lemma due_same (o o' : Instance) :
  FLIP.start_ o' = FLIP.start_ o →
  FLIP.duration_ o' = FLIP.duration_ o →
  Loop.due o' = Loop.due o.
Proof. unfold Loop.due. by intros -> ->. Qed.

Lemma finished_same (s s' : FLIP.State) :
  s'.1 = s.1 → Host.history s'.2 = Host.history s.2 →
  Loop.finished s → Loop.finished s'.
Proof. unfold Loop.finished. by intros -> ->. Qed.

Lemma frames_loops (times : list float) (start mark n : nat)
    (s : FLIP.State) :
  Loop.looping easing s →
  start ≤ length (Host.history s.2) →
  Loop.requested (drop mark (Host.history s.2))
  = replicate n (BoundPlayerFn rAF_update_) →
  let run := Loop.frames times mark s in
  let before := Loop.completions (drop start (Host.history s.2)) in
  let after := Loop.completions (drop start (Host.history run.2.2)) in
  if existsb (Loop.due s.1) times
  then after = before + n
       ∧ Loop.pending run = []
       ∧ (0 < n → Loop.finished run.2)
  else after = before
       ∧ Loop.pending run = replicate n (BoundPlayerFn rAF_update_).
Proof.
  revert mark s; induction times as [|time rest IH];
    intros mark [o w] Hl Hstart Hq; cbn [Loop.frames existsb fst snd] in *.
  { done. }
  unfold Loop.frame. cbn [fst snd]. rewrite Hq.
  destruct (frame_fold n o (Host.at_time time w))
    as (added & Hh & Hn & Hl' & Hs & Hd & Hel & Hcase); [exact Hl|].
  change (Host.now (Host.at_time time w)) with time in *.
  change (Host.history (Host.at_time time w)) with (Host.history w) in *.
  set (s' := foldl _ _ _) in *.
  destruct (Loop.due o time); cbn [orb].
  - destruct Hcase as (Hr & Hc & Hf).
    destruct (frames_idle rest (length (Host.history w)) s')
      as (Ho' & Hh' & Hp).
    { by rewrite Hh, drop_app_length. }
    rewrite Hh'. split; [|split; [done|]].
    + by rewrite Hh, drop_app_le, completions_app, Hc.
    + intros Hpos. by apply (finished_same s'), Hf.
  - destruct Hcase as [Hr Hc].
    specialize (IH (length (Host.history w)) s').
    rewrite (due_same o s'.1), Hh in IH by done.
    rewrite drop_app_length, drop_app_le, completions_app, Hc, Nat.add_0_r
      in IH by done.
    apply IH; [done|rewrite length_app; lia|done].
Qed.

End FrameLoop.

Lemma play__run (o : Instance) (w : World) (startTime : option float)
    (fn : PlayerFn) :
  FLIP.bound o !! "update_" = Some fn →
  rAF.play_ startTime (o, w)
  = (Ok tt,
     (FLIP.set_start_
        (match startTime with
         | None => Host.now w
         | Some startTime => startTime
         end + FLIP.delay_ o)%float o,
      Host.record (RequestAnimationFrame (BoundPlayerFn fn)) w)).
Proof.
  intros Hb.
  unfold rAF.play_, rAF.requestAnimationFrame_update_, mbind, M_bind,
    FLIP.this, FLIP.performance_now, FLIP.update, FLIP.host.
  destruct startTime as [t|]; simpl; by rewrite Hb.
Qed.

Lemma plays_run (o : Instance) (w : World) (startTime : option float)
    (easing : float → float) (plays : nat) :
  Loop.looping easing (o, w) →
  let playing := Nat.iter plays (λ s, (rAF.play_ startTime s).2) (o, w) in
  Loop.looping easing playing
  ∧ Host.history playing.2
    = Host.history w
      ++ replicate plays (RequestAnimationFrame (BoundPlayerFn rAF_update_)).
Proof.
  intros Hl. induction plays as [|n [IHl IHh]]; simpl.
  { by rewrite app_nil_r. }
  destruct (Nat.iter n (λ s, (rAF.play_ startTime s).2) (o, w)) as [o' w'].
  destruct IHl as (He & Hi & Hb). cbn [fst snd] in *.
  rewrite (play__run o' w' startTime rAF_update_ Hb). cbn [fst snd].
  split; [by repeat split|].
  cbn [Host.history Host.record Host.records].
  by rewrite IHh, <- (assoc_L (++)), <- replicate_S_end.
Qed.

Lemma requested_replicate (n : nat) (cb : Callback) :
  Loop.requested (replicate n (RequestAnimationFrame cb)) = replicate n cb.
Proof. induction n as [|n IH]; [done|]. simpl. by f_equal. Qed.

Lemma completions_replicate (n : nat) (cb : Callback) :
  Loop.completions (replicate n (RequestAnimationFrame cb)) = 0.
Proof. by induction n. Qed.

(** X9: the [requestAnimationFrame] player, driven by the host through
    the frames at the clock values [times], after [plays] calls of [play_]
    on a helper that has an easing function.  If the animation is due at
    one of the frames (the normalized time, clamped, is not below 1), then
    [flipComplete] has been dispatched exactly [plays] times, once for each
    call of [play_]; no callback waits for a further frame; and (if the
    helper was played at all) the helper is reset and the four styles of the
    animation are [null].  If it is due at none of them, [flipComplete] has
    not been dispatched and [plays] callbacks wait for the next frame. *)
Theorem rAF_loop_completes_once_per_play (o : Instance) (w : World)
    (startTime : option float) (plays : nat) (times : list float)
    (easing : float → float) (delta : InvertDelta) :
  FLIP.easing_ o = VFunction easing →
  FLIP.invert_ o = Some delta →
  FLIP.bound o !! "update_" = Some rAF_update_ →
  let start := length (Host.history w) in
  let playing := Nat.iter plays (λ s, (rAF.play_ startTime s).2) (o, w) in
  let run := Loop.frames times start playing in
  let dispatched := Loop.completions (drop start (Host.history run.2.2)) in
  if existsb (Loop.due playing.1) times
  then dispatched = plays
       ∧ Loop.pending run = []
       ∧ (0 < plays → Loop.finished run.2)
  else dispatched = 0
       ∧ Loop.pending run = replicate plays (BoundPlayerFn rAF_update_).
Proof.
  intros He Hi Hb start playing.
  destruct (plays_run o w startTime easing plays) as [Hl Hh].
  { by repeat split; eauto. }
  fold playing in Hl, Hh.
  pose proof (frames_loops easing times start start plays playing Hl) as H.
  rewrite Hh in H. subst start.
  rewrite drop_app_length, requested_replicate, completions_replicate in H.
  apply H; [|done]. rewrite length_app. lia.
Qed.

Lemma rAF_loop_completes_once_per_play_played_twice :
  let start := length (Host.history Scenario.world) in
  let playing :=
    Nat.iter 2 (λ s, (rAF.play_ (Some 1000%float) s).2)
      (Scenario.inverted, Scenario.world) in
  let run := Loop.frames [1165; 1330; 1400]%float start playing in
  Loop.completions (drop start (Host.history run.2.2)) = 2
  ∧ Loop.pending run = []
  ∧ (0 < 2 → Loop.finished run.2).
Proof.
  apply (rAF_loop_completes_once_per_play
           Scenario.inverted Scenario.world (Some 1000%float) 2
           [1165; 1330; 1400]%float (λ t, t) Cases.delta);
    reflexivity.
Defined.

Lemma update__not_callable (o : Instance) (w : World) :
  JS.typeof (FLIP.easing_ o) ≠ "function" →
  rAF.update_ (o, w)
  = (Throw (TypeError "this.easing_ is not a function"), (o, w)).
Proof.
  intros He.
  unfold rAF.update_, mbind, M_bind, FLIP.performance_now, FLIP.this.
  cbn beta iota delta [fst snd].
  by destruct (FLIP.easing_ o).
Qed.

(** X10: when [easing_] is not a function (the constructor accepts
    [{ getRatio: 5 }]), the first frame after [play_] throws a [TypeError]
    before it has written a style or requested a further frame.  The loop
    is dead from then on: whatever frames follow, nothing runs, the helper
    stays as [play_] left it, the only call made is the first frame request,
    and so [flipComplete] is never dispatched. *)
Theorem rAF_loop_stalls (o : Instance) (w : World)
    (startTime : option float) (time : float) (times : list float) :
  JS.typeof (FLIP.easing_ o) ≠ "function" →
  FLIP.bound o !! "update_" = Some rAF_update_ →
  let start := length (Host.history w) in
  let playing := (rAF.play_ startTime (o, w)).2 in
  let run := Loop.frames (time :: times) start playing in
  rAF.update_ (playing.1, Host.at_time time playing.2)
  = (Throw (TypeError "this.easing_ is not a function"),
     (playing.1, Host.at_time time playing.2))
  ∧ run.2.1 = playing.1
  ∧ Host.history run.2.2
    = Host.history w ++ [RequestAnimationFrame (BoundPlayerFn rAF_update_)]
  ∧ Loop.pending run = [].
Proof.
  intros He Hb start playing. subst playing.
  rewrite (play__run o w startTime rAF_update_ Hb). cbn [fst snd].
  set (o' := FLIP.set_start_ _ o).
  assert (∀ w', rAF.update_ (o', w')
                = (Throw (TypeError "this.easing_ is not a function"), (o', w')))
    as Hthrow.
  { intros w'. by apply update__not_callable. }
  split; [apply Hthrow|].
  cbn [Loop.frames]. unfold Loop.frame. cbn [fst snd].
  replace (drop start (Host.history (Host.record
             (RequestAnimationFrame (BoundPlayerFn rAF_update_)) w)))
    with [RequestAnimationFrame (BoundPlayerFn rAF_update_)]
    by (subst start; simpl; by rewrite drop_app_length).
  change (Loop.requested [RequestAnimationFrame (BoundPlayerFn rAF_update_)])
    with [BoundPlayerFn rAF_update_].
  cbn [foldl Loop.invoke call]. rewrite Hthrow. cbn [fst snd].
  set (w1 := Host.record _ w).
  destruct (frames_idle times (length (Host.history w1))
              (o', Host.at_time time w1)) as (Ho & Hh & Hpend).
  { simpl. by rewrite drop_all. }
  by rewrite Ho, Hh.
Qed.

Lemma rAF_loop_stalls_on_a_number :
  let start := length (Host.history Scenario.world) in
  let playing := (rAF.play_ None (Cases.uncallable, Scenario.world)).2 in
  let run := Loop.frames [1165; 1330]%float start playing in
  rAF.update_ (playing.1, Host.at_time 1165 playing.2)
  = (Throw (TypeError "this.easing_ is not a function"),
     (playing.1, Host.at_time 1165 playing.2))
  ∧ run.2.1 = playing.1
  ∧ Host.history run.2.2
    = Host.history Scenario.world
      ++ [RequestAnimationFrame (BoundPlayerFn rAF_update_)]
  ∧ Loop.pending run = [].
Proof.
  apply (rAF_loop_stalls Cases.uncallable Scenario.world None 1165%float
           [1330%float]).
  - discriminate.
  - reflexivity.
Defined.

(** ** The warnings of [extend] *)

Lemma extend_all_silent_from (calls : list (string * Player))
    (statics : Statics) :
  NoDup calls.*1 →
  Forall Names.plain calls →
  (∀ registry,
     FLIP.players_ statics = Some registry →
     FLIP.proto registry = None
     ∧ ∀ name, name ∈ calls.*1 → FLIP.own registry !! name = None) →
  FLIP.warnings (Run.extend_all calls statics) = FLIP.warnings statics.
Proof.
  revert statics; induction calls as [|[n p] calls IH];
    intros statics Hnd Hplain Hinv; [done|].
  apply NoDup_cons in Hnd as [Hn Hnd].
  apply Forall_cons in Hplain as [[Hord [f Hf]] Hplain].
  apply andb_prop in Hord as [Hp Ho]. simpl in *.
  apply negb_true_iff in Hp, Ho.
  set (registry := match FLIP.players_ statics with
                   | Some registry => registry
                   | None => FLIP.empty_registry
                   end).
  assert (FLIP.proto registry = None
          ∧ ∀ name, name ∈ n :: calls.*1 → FLIP.own registry !! name = None)
    as [Hproto Hown].
  { subst registry. destruct (FLIP.players_ statics); [by apply Hinv|done]. }
  rewrite IH; [| done | done |].
  - unfold FLIP.extend; simpl. fold registry.
    unfold FLIP.lookup.
    rewrite Hown, Hp, Hproto, Ho, Hf by (rewrite elem_of_cons; auto).
    by rewrite !app_nil_r.
  - unfold FLIP.extend; simpl. fold registry. intros r [= <-].
    unfold FLIP.assign. rewrite Hp; simpl. split; [done|].
    intros name Hname. rewrite lookup_insert_ne by (by intros ->).
    apply Hown. rewrite elem_of_cons; auto.
Qed.

(** X11: registering players under distinct, ordinary names (not
    ["__proto__"], not a property of [Object.prototype]), each with a
    [play_] function, logs no warning. *)
Theorem extend_all_silent (calls : list (string * Player)) :
  NoDup calls.*1 →
  Forall Names.plain calls →
  FLIP.warnings (Run.extend_all calls Run.initial) = [].
Proof.
  intros Hnd Hplain. by rewrite extend_all_silent_from.
Qed.

Lemma extend_all_silent_entry_file :
  FLIP.warnings
    (Run.extend_all [("rAF", rAF.player); ("GSAP", GSAP.player)] Run.initial)
  = [].
Proof.
  apply (extend_all_silent [("rAF", rAF.player); ("GSAP", GSAP.player)]).
  - apply (bool_decide_unpack _). reflexivity.
  - repeat constructor; eexists; reflexivity.
Defined.

Lemma extend_all_warnings_mono (calls : list (string * Player))
    (statics : Statics) (warning : string) :
  warning ∈ FLIP.warnings statics →
  warning ∈ FLIP.warnings (Run.extend_all calls statics).
Proof.
  revert statics; induction calls as [|[n p] calls IH]; intros statics H;
    [done|].
  apply IH. unfold FLIP.extend; simpl. rewrite elem_of_app; auto.
Qed.

Lemma initial_wf : statics_wf Run.initial.
Proof. by intros r. Qed.

Lemma extend_all_app calls1 calls2 statics :
  Run.extend_all (calls1 ++ calls2) statics
  = Run.extend_all calls2 (Run.extend_all calls1 statics).
Proof. apply foldl_app. Qed.

Lemma extend_all_registered before name player later :
  registered (Run.extend_all (before ++ (name, player) :: later) Run.initial)
    name (Run.latest name player later).
Proof.
  rewrite extend_all_app. simpl.
  apply extend_all_latest, extend_registers, extend_all_wf, initial_wf.
Qed.

(** X12: registering a name a second time, whatever the name, the
    players and the registrations before, between and after, logs the
    warning that a player of that name already exists. *)
Theorem extend_warns_on_duplicate
    (before between after : list (string * Player)) (name : string)
    (player1 player2 : Player) :
  Names.already_exists name
  ∈ FLIP.warnings
      (Run.extend_all
         (before ++ (name, player1) :: between ++ (name, player2) :: after)
         Run.initial).
Proof.
  replace (before ++ (name, player1) :: between ++ (name, player2) :: after)
    with ((before ++ (name, player1) :: between) ++ (name, player2) :: after)
    by (by rewrite <- (assoc_L (++))).
  rewrite extend_all_app. simpl. apply extend_all_warnings_mono.
  destruct (extend_all_registered before name player1 between)
    as (registry & Hr & _ & Hl).
  unfold FLIP.extend. rewrite Hr; simpl. rewrite Hl.
  unfold Names.already_exists.
  rewrite !elem_of_app, list_elem_of_singleton. auto.
Qed.

(** ** Construction against a run of the registry *)


Lemma find_registered statics name player :
  registered statics name player →
  Run.find statics name = Some (Registered player).
Proof. intros (registry & Hr & _ & Hl). unfold Run.find. by rewrite Hr. Qed.

Lemma constructor_binds_latest_aux (before later : list (string * Player))
    (name : string) (player : Player) (options : Config.Options) :
  default "rAF" (Config.play options) = name →
  match FLIP.constructor
          (Run.extend_all (before ++ (name, player) :: later) Run.initial)
          options with
  | Ok o => FLIP.bound o = Run.latest name player later
  | Throw e =>
      e = Error "Element must be provided."
      ∨ e = Error "Easing function must be provided."
      ∨ ∃ message, e = TypeError message
  end.
Proof.
  intros Hname.
  destruct (extend_all_registered before name player later)
    as (registry & Hr & _ & Hl).
  unfold FLIP.constructor. rewrite Hname, Hr, Hl.
  destruct (Config.element options); [|by left].
  unfold FLIP.resolve_easing.
  destruct (String.eqb _ "function"); [done|].
  destruct (default _ (Config.easing options)) as [| | | | | |props];
    simpl; eauto.
  destruct (JS.assoc props "getRatio"); simpl; eauto.
Qed.

(** X13: for a name that has been registered, the constructor never
    fails with [Unknown player type]: it throws one of the errors that do
    not depend on the player (the element is missing, the easing is
    unusable), or it binds exactly the functions of the player registered
    last under that name.  The name is ['rAF'] for a configuration that has
    no [play] property, and the string of the property's value otherwise
    (["undefined"] for [{ play: undefined }], which is therefore rejected
    unless a player was registered under that very name). *)
Theorem constructor_binds_latest (before later : list (string * Player))
    (name : string) (player : Player) (options : Config.Options) :
  default "rAF" (Config.play options) = name →
  match FLIP.constructor
          (Run.extend_all (before ++ (name, player) :: later) Run.initial)
          options with
  | Ok o => FLIP.bound o = Run.latest name player later
  | Throw e =>
      e = Error "Element must be provided."
      ∨ e = Error "Easing function must be provided."
      ∨ ∃ message, e = TypeError message
  end.
Proof. apply constructor_binds_latest_aux. Qed.


Lemma constructor_binds_latest_registered_twice :
  match FLIP.constructor
          (Run.extend_all ([] ++ ("rAF", ∅) :: [("rAF", rAF.player)])
             Run.initial)
          (Scenario.options 0) with
  | Ok o => FLIP.bound o = Run.latest "rAF" ∅ [("rAF", rAF.player)]
  | Throw e =>
      e = Error "Element must be provided."
      ∨ e = Error "Easing function must be provided."
      ∨ ∃ message, e = TypeError message
  end.
Proof.
  apply (constructor_binds_latest [] [("rAF", rAF.player)] "rAF" ∅
           (Scenario.options 0)).
  reflexivity.
Defined.




(** ** Construction of a group *)

(** X15: [FLIP.group] builds one helper per configuration, in order,
    each as the constructor builds it.  If it throws, the error is the
    constructor's for the first configuration it rejects, the ones before
    having been accepted, and no group is returned. *)
Theorem group_constructs_in_order (statics : Statics)
    (flips : list Config.Options) :
  match Group.group statics (Some flips) with
  | Ok members =>
      Forall2 (λ flip o, FLIP.constructor statics flip = Ok o) flips members
  | Throw e =>
      ∃ accepted rejected rest,
        flips = accepted ++ rejected :: rest
        ∧ Forall (λ flip, ∃ o, FLIP.constructor statics flip = Ok o) accepted
        ∧ FLIP.constructor statics rejected = Throw e
  end.
Proof.
  simpl. induction flips as [|flip rest IH]; simpl; [constructor|].
  destruct (FLIP.constructor statics flip) as [o|e] eqn:Ho.
  - destruct (Group.construct_all statics rest) as [os|e].
    + by constructor.
    + destruct IH as (accepted & rejected & rest' & -> & Ha & Hr).
      exists (flip :: accepted), rejected, rest'.
      split; [done|]. split; [|done]. constructor; eauto.
  - exists [], flip, rest. by repeat split.
Qed.

(** ** Playing a group *)

Lemma each_play (flips : list Instance) (index : nat) (w : World)
    (time : float) :
  Forall Together.plays_frames flips →
  forEach (λ _, FLIP.play call (Some time)) index flips w
  = (Ok tt,
     (Together.started time <$> flips,
      Host.records
        (replicate (length flips)
           (RequestAnimationFrame (BoundPlayerFn rAF_update_))) w)).
Proof.
  revert index w; induction flips as [|o rest IH]; intros index w Hall.
  { simpl. by rewrite records_nil. }
  apply Forall_cons in Hall as [([delta Hi] & Hp & Hu) Hall].
  cbn [forEach]. rewrite (play_guard_is_dead o w delta _ Hi), Hp.
  cbn [call]. rewrite (play__run o w _ rAF_update_ Hu).
  rewrite IH by done. unfold Host.record. by rewrite records_records.
Qed.

(** X16: every member of a group played by the
    [requestAnimationFrame] player starts at the same instant, the time
    given to the group's [play] or else the one reading of the clock it
    makes, plus the member's own delay; one frame is requested per member,
    in order, and nothing else happens. *)
Theorem group_play_starts_together (flips : list Instance) (w : World)
    (startTime : option float) :
  Forall Together.plays_frames flips →
  Group.play startTime (flips, w)
  = (Ok tt,
     (Together.started (default (Host.now w) startTime) <$> flips,
      Host.records
        (replicate (length flips)
           (RequestAnimationFrame (BoundPlayerFn rAF_update_))) w)).
Proof.
  intros Hall. unfold Group.play, Group.each. cbn [fst snd].
  rewrite each_play by done. by destruct startTime.
Qed.

Lemma group_play_starts_together_scenario_D :
  Group.play None (Scenario.members, Scenario.world)
  = (Ok tt,
     (Together.started 1000 <$> Scenario.members,
      Host.records
        (replicate 3 (RequestAnimationFrame (BoundPlayerFn rAF_update_)))
        Scenario.world)).
Proof.
  apply (group_play_starts_together Scenario.members Scenario.world None).
  repeat constructor; eexists; reflexivity.
Defined.

(** ** The CSS player *)

(** A method of the class that appends [added] to the history appends the
    same calls to the history of this player. *)
Lemma core_run {A} (m : M FLIP.State A) (s : CSS.State) (r : Outcome A)
    (o : Instance) (added : list Host.Call) :
  (∀ w, m (CSS.flip s.1, w) = (r, (o, Host.records added w))) →
  CSS.core m s
  = (r,
     ({| CSS.flip := o; CSS.easing_ := CSS.easing_ s.1 |},
      CSS.with_history (CSS.history s.2 ++ (CSS.Core <$> added)) s.2)).
Proof.
  intros Hm. unfold CSS.core. rewrite Hm. simpl.
  by rewrite drop_app_length.
Qed.

Create HintDb css discriminated.

#[local] Hint Unfold CSS.this CSS.performance_now CSS.set_start_ CSS.host
  CSS.set_easing_ CSS.once CSS.requestAnimationFrame CSS.removeEventListener
  CSS.with_history CSS.with_listeners mret M_ret : css.

Ltac css_eval :=
  autounfold with css;
  cbn [fst snd CSS.flip CSS.easing_ CSS.history CSS.now CSS.listeners
       CSS.created CSS.scheduled CSS.hasTweenMax CSS.hasTweenLite].

Ltac css_step := rewrite bind_run; css_eval.

Lemma CSS_play__run (o : CSS.This) (w : CSS.World) :
  CSS.typeof (CSS.easing_ o) ≠ "function" →
  CSS.play_ (o, w)
  = (Ok tt,
     (CSS.played o,
      {| CSS.history := CSS.history w ++ CSS.play_calls o (CSS.created w);
         CSS.now := CSS.now w;
         CSS.listeners :=
           CSS.listeners w
           ++ CSS.play_listeners (FLIP.element_ (CSS.flip o)) (CSS.created w);
         CSS.created := S (S (S (CSS.created w)));
         CSS.scheduled := S (CSS.scheduled w);
         CSS.hasTweenMax := CSS.hasTweenMax w;
         CSS.hasTweenLite := CSS.hasTweenLite w |})).
Proof.
  intros He. destruct o as [f e], w as [h t ls c n tm tl].
  unfold CSS.play_. rewrite bind_run. cbn [CSS.this fst snd CSS.easing_].
  cbn [CSS.easing_] in He.
  destruct (String.eqb_spec (CSS.typeof e) "function"); [done|].
  destruct e;
    cbv -[app String.concat FLIP.element_ FLIP.duration_ FLIP.delay_
          FLIP.updateTransform_ FLIP.updateOpacity_];
    by rewrite <- ?app_assoc.
Qed.

Lemma CSS_cleanup_run (o : CSS.This) (w : CSS.World) (prior : InvertDelta) :
  FLIP.invert_ (CSS.flip o) = Some prior →
  CSS.cleanup (o, w)
  = (Ok tt,
     (CSS.reset o,
      CSS.with_history
        (CSS.history w ++ CSS.cleanup_calls (FLIP.element_ (CSS.flip o))) w)).
Proof.
  intros Hi. destruct o as [f e], w as [h t ls c n tm tl].
  unfold CSS.cleanup. do 5 css_step. rewrite bind_run.
  erewrite (core_run (FLIP.classList_remove _ _) _ (Ok tt) f
              [ClassListRemove _ "flip-animating"]) by done.
  css_eval.
  erewrite (core_run FLIP.cleanUpAndFireEvent_)
    by (intros w'; cbn [fst CSS.flip];
        apply (cleanUpAndFireEvent__run _ _ prior), Hi).
  unfold CSS.reset, CSS.cleanup_calls. css_eval. simpl. by rewrite <- ?app_assoc.
Qed.

Lemma CSS_begin_run (o : CSS.This) (w : CSS.World) :
  CSS.begin (o, w)
  = (Ok tt,
     (CSS.begun (CSS.now w) o,
      CSS.with_history (CSS.history w ++ CSS.begin_calls o) w)).
Proof.
  destruct o as [f e], w as [h t ls c n tm tl].
  unfold CSS.begin. do 3 css_step. rewrite bind_run.
  erewrite (core_run (FLIP.classList_add _ _) _ (Ok tt)
              (FLIP.set_start_ _ f) [ClassListAdd _ "flip-animating"])
    by done.
  unfold CSS.begun, CSS.begin_calls. cbn [CSS.flip CSS.easing_ fst snd].
  destruct (FLIP.updateTransform_ f), (FLIP.updateOpacity_ f);
    repeat css_step; css_eval; simpl; by rewrite <- ?app_assoc, ?app_nil_r.
Qed.

Lemma CSS_completions_app (h1 h2 : list CSS.Call) :
  CSS.completions (h1 ++ h2) = CSS.completions h1 + CSS.completions h2.
Proof.
  unfold CSS.completions, CSS.core_calls.
  by rewrite omap_app, List.filter_app, length_app.
Qed.

Ltac nat_eqb :=
  repeat match goal with
    | |- context [Nat.eqb ?a ?b] =>
        destruct (Nat.eqb_spec a b); [try lia|try lia]; try congruence
    end.

Lemma playing_run (o : CSS.This) (w : CSS.World) (time : float) :
  CSS.typeof (CSS.easing_ o) ≠ "function" →
  CSS.listeners w = [] →
  CSS.scheduled w = 0 →
  CSS.playing o w time
  = (CSS.begun time (CSS.played o),
     {| CSS.history :=
          CSS.history w ++ CSS.play_calls o (CSS.created w)
          ++ CSS.begin_calls (CSS.played o);
        CSS.now := time;
        CSS.listeners :=
          CSS.play_listeners (FLIP.element_ (CSS.flip o)) (CSS.created w);
        CSS.created := S (S (S (CSS.created w)));
        CSS.scheduled := 0;
        CSS.hasTweenMax := CSS.hasTweenMax w;
        CSS.hasTweenLite := CSS.hasTweenLite w |}).
Proof.
  intros He Hl Hn. unfold CSS.playing. rewrite CSS_play__run by done.
  unfold CSS.frame. css_eval. rewrite Hn, Hl.
  cbn [Nat.iter nat_rect]. rewrite CSS_begin_run. css_eval.
  by rewrite <- app_assoc.
Qed.

Lemma call_proxy_cleanup (l : CSS.Listener) (target : elem) (o : CSS.This)
    (w : CSS.World) (prior : InvertDelta) :
  target = CSS.on l →
  CSS.handler l = CSS.Cleanup →
  FLIP.invert_ (CSS.flip o) = Some prior →
  CSS.call_proxy l target (o, w)
  = (Ok tt,
     (CSS.reset o,
      CSS.with_listeners
        (List.filter (λ l', negb (Nat.eqb (CSS.proxy l') (CSS.proxy l)))
           (CSS.listeners w))
        (CSS.with_history
           (CSS.history w ++ CSS.cleanup_calls (FLIP.element_ (CSS.flip o))
            ++ [CSS.RemoveEventListener (CSS.on l) (CSS.type l) (CSS.proxy l)])
           w))).
Proof.
  intros -> Hh Hi. unfold CSS.call_proxy. rewrite Nat.eqb_refl. cbn [negb].
  rewrite Hh. cbn [CSS.handle]. rewrite bind_run.
  rewrite (CSS_cleanup_run o w prior Hi). css_eval.
  by rewrite <- app_assoc.
Qed.

Lemma registered_elem_of (l : CSS.Listener) (w : CSS.World) :
  l ∈ CSS.listeners w → CSS.registered l w = true.
Proof.
  unfold CSS.registered. intros Hl. apply existsb_exists.
  exists l. split; [by apply list_elem_of_In|apply Nat.eqb_refl].
Qed.

Lemma call_proxy_elsewhere (l : CSS.Listener) (target : elem) (s : CSS.State) :
  target ≠ CSS.on l → CSS.call_proxy l target s = (Ok tt, s).
Proof.
  intros Hne. unfold CSS.call_proxy.
  destruct (Nat.eqb_spec target (CSS.on l)); done.
Qed.

Lemma call_proxy_start (l : CSS.Listener) (target : elem) (o : CSS.This)
    (w : CSS.World) :
  target = CSS.on l →
  CSS.handler l = CSS.SetStart →
  CSS.call_proxy l target (o, w)
  = (Ok tt,
     (CSS.restarted (CSS.now w) o,
      CSS.with_listeners
        (List.filter (λ l', negb (Nat.eqb (CSS.proxy l') (CSS.proxy l)))
           (CSS.listeners w))
        (CSS.with_history
           (CSS.history w
            ++ [CSS.RemoveEventListener (CSS.on l) (CSS.type l) (CSS.proxy l)])
           w))).
Proof.
  intros -> Hh. unfold CSS.call_proxy. rewrite Nat.eqb_refl. cbn [negb].
  rewrite Hh. cbn [CSS.handle]. destruct o as [f e], w as [h t ls c n tm tl].
  do 2 css_step. reflexivity.
Qed.

(** The state while the transition runs. *)
Lemma running_run (o : CSS.This) (w : CSS.World) (time : float)
    (start : option float) :
  CSS.typeof (CSS.easing_ o) ≠ "function" →
  CSS.listeners w = [] →
  CSS.scheduled w = 0 →
  let el := FLIP.element_ (CSS.flip o) in
  let c := CSS.created w in
  CSS.running o w time start
  = (match start with
     | Some t => CSS.restarted t (CSS.begun time (CSS.played o))
     | None => CSS.begun time (CSS.played o)
     end,
     {| CSS.history :=
          CSS.history w ++ CSS.play_calls o c
          ++ CSS.begin_calls (CSS.played o)
          ++ match start with
             | Some _ => [CSS.RemoveEventListener el "transitionstart" c]
             | None => []
             end;
        CSS.now := default time start;
        CSS.listeners :=
          match start with
          | Some _ => []
          | None =>
              [ {| CSS.proxy := c; CSS.on := el;
                   CSS.type := "transitionstart";
                   CSS.handler := CSS.SetStart |} ]
          end
          ++ [ {| CSS.proxy := S c; CSS.on := el;
                  CSS.type := "transitionend"; CSS.handler := CSS.Cleanup |};
               {| CSS.proxy := S (S c); CSS.on := el;
                  CSS.type := "transitioncancel";
                  CSS.handler := CSS.Cleanup |} ];
        CSS.created := S (S (S c));
        CSS.scheduled := 0;
        CSS.hasTweenMax := CSS.hasTweenMax w;
        CSS.hasTweenLite := CSS.hasTweenLite w |}).
Proof.
  intros He Hl Hn el c. unfold CSS.running. rewrite playing_run by done.
  fold el c. destruct start as [t|]; cbn [CSS.started default].
  2: { by rewrite app_nil_r. }
  unfold CSS.dispatch, CSS.play_listeners, CSS.at_element, CSS.at_time.
  css_eval. cbn [CSS.begun CSS.played CSS.flip FLIP.element_ FLIP.set_start_].
  fold el.
  cbn [List.filter CSS.listens CSS.type CSS.on CSS.event_type
       CSS.path existsb String.eqb Ascii.eqb Bool.eqb andb orb].
  rewrite Nat.eqb_refl. cbn [andb orb foldl].
  rewrite registered_elem_of
    by (css_eval; rewrite !elem_of_cons; auto).
  cbn [CSS.target].
  rewrite call_proxy_start by done.
  css_eval. cbn [List.filter CSS.proxy CSS.on CSS.type].
  rewrite Nat.eqb_refl.
  replace (S c =? c) with false by (symmetry; apply Nat.eqb_neq; lia).
  replace (S (S c) =? c) with false by (symmetry; apply Nat.eqb_neq; lia).
  cbn [negb app].
  by rewrite <- !app_assoc.
Qed.

(** The state after the first [transitionend] event at the element. *)
Lemma ended_run (o : CSS.This) (w : CSS.World) (time : float)
    (start : option float) (prior : InvertDelta) :
  CSS.typeof (CSS.easing_ o) ≠ "function" →
  FLIP.invert_ (CSS.flip o) = Some prior →
  CSS.listeners w = [] →
  CSS.scheduled w = 0 →
  let el := FLIP.element_ (CSS.flip o) in
  let c := CSS.created w in
  CSS.ended o w time start
  = (CSS.reset (CSS.running o w time start).1,
     {| CSS.history :=
          CSS.history (CSS.running o w time start).2
          ++ CSS.cleanup_calls el
          ++ [CSS.RemoveEventListener el "transitionend" (S c)];
        CSS.now := default time start;
        CSS.listeners :=
          match start with
          | Some _ => []
          | None =>
              [ {| CSS.proxy := c; CSS.on := el;
                   CSS.type := "transitionstart";
                   CSS.handler := CSS.SetStart |} ]
          end
          ++ [ {| CSS.proxy := S (S c); CSS.on := el;
                  CSS.type := "transitioncancel";
                  CSS.handler := CSS.Cleanup |} ];
        CSS.created := S (S (S c));
        CSS.scheduled := 0;
        CSS.hasTweenMax := CSS.hasTweenMax w;
        CSS.hasTweenLite := CSS.hasTweenLite w |}).
Proof.
  intros He Hi Hl Hn el c. unfold CSS.ended.
  rewrite running_run by done. fold el c.
  unfold CSS.dispatch, CSS.at_element. css_eval.
  destruct start as [t|]; cbn [app];
    cbn [List.filter CSS.listens CSS.type CSS.on CSS.event_type
         CSS.path existsb String.eqb Ascii.eqb Bool.eqb andb orb];
    rewrite Nat.eqb_refl; cbn [andb orb foldl];
    (rewrite registered_elem_of
       by (css_eval; rewrite !elem_of_cons; auto));
    cbn [CSS.target];
    rewrite (call_proxy_cleanup _ _ _ _ prior) by done;
    css_eval; cbn [List.filter CSS.proxy CSS.on CSS.type];
    rewrite ?Nat.eqb_refl;
    replace (S (S c) =? S c) with false
      by (symmetry; apply Nat.eqb_neq; lia);
    try replace (c =? S c) with false
      by (symmetry; apply Nat.eqb_neq; lia);
    cbn [negb app default CSS.restarted CSS.begun CSS.played CSS.flip
         FLIP.element_ FLIP.set_start_];
    by rewrite <- ?app_assoc.
Qed.

(** X17: the CSS player, for a helper that has no listener registered and
    no frame callback waiting when [play_] is called, after [play_], the
    next frame and, where the browser dispatches it, the [transitionstart]
    event.  A [transitionend] event that bubbles up from a descendant
    changes nothing.  The first [transitionend] event at the element itself
    runs the clean-up: [flipComplete] is dispatched once, the snapshots and
    the delta are reset, the rest is as [play_] left it, and [start_] is
    the time of the [transitionstart] event, or else the time of the frame
    plus the delay.  A second [transitionend] event at the element changes
    nothing. *)
Theorem CSS_completes_on_transitionend (o : CSS.This) (w : CSS.World)
    (time : float) (start : option float) (prior : InvertDelta)
    (child : elem) :
  CSS.typeof (CSS.easing_ o) ≠ "function" →
  FLIP.invert_ (CSS.flip o) = Some prior →
  CSS.listeners w = [] →
  CSS.scheduled w = 0 →
  child ≠ FLIP.element_ (CSS.flip o) →
  let el := FLIP.element_ (CSS.flip o) in
  let running := CSS.running o w time start in
  let ended := CSS.ended o w time start in
  CSS.dispatch (CSS.from_child "transitionend" child el) running = running
  ∧ CSS.completions (CSS.history running.2) = CSS.completions (CSS.history w)
  ∧ CSS.completions (CSS.history ended.2)
    = S (CSS.completions (CSS.history w))
  ∧ FLIP.first_ (CSS.flip ended.1) = FLIP.zero_snapshot
  ∧ FLIP.last_ (CSS.flip ended.1) = FLIP.zero_snapshot
  ∧ FLIP.invert_ (CSS.flip ended.1) = Some FLIP.identity_delta
  ∧ FLIP.start_ (CSS.flip ended.1)
    = match start with
      | Some t => t
      | None => (time + FLIP.delay_ (CSS.flip o))%float
      end
  ∧ FLIP.element_ (CSS.flip ended.1) = el
  ∧ FLIP.duration_ (CSS.flip ended.1) = FLIP.duration_ (CSS.flip o)
  ∧ FLIP.delay_ (CSS.flip ended.1) = FLIP.delay_ (CSS.flip o)
  ∧ FLIP.updateTransform_ (CSS.flip ended.1)
    = FLIP.updateTransform_ (CSS.flip o)
  ∧ FLIP.updateOpacity_ (CSS.flip ended.1)
    = FLIP.updateOpacity_ (CSS.flip o)
  ∧ CSS.easing_ ended.1 = CSS.easing_ (CSS.played o)
  ∧ CSS.dispatch (CSS.at_element "transitionend" el) ended = ended.
Proof.
  intros He Hi Hl Hn Hc el running ended. subst running ended.
  assert (CSS.completions (CSS.history (CSS.running o w time start).2)
          = CSS.completions (CSS.history w)) as Hrunning.
  { rewrite running_run by done. css_eval.
    rewrite !CSS_completions_app.
    unfold CSS.play_calls, CSS.begin_calls.
    destruct start, (FLIP.updateTransform_ _), (FLIP.updateOpacity_ _);
      cbn; lia. }
  split; [|split; [exact Hrunning|]].
  - rewrite running_run by done. fold el.
    unfold CSS.dispatch, CSS.from_child. css_eval.
    destruct start as [t|]; cbn [app];
      cbn [List.filter CSS.listens CSS.type CSS.on CSS.event_type
           CSS.path existsb String.eqb Ascii.eqb Bool.eqb andb orb];
      rewrite Nat.eqb_refl, orb_true_r; cbn [andb orb foldl];
      (rewrite registered_elem_of
         by (css_eval; rewrite !elem_of_cons; auto));
      by rewrite call_proxy_elsewhere.
  - rewrite (ended_run o w time start prior) by done. css_eval.
    split.
    { rewrite !CSS_completions_app, Hrunning.
      unfold CSS.cleanup_calls. cbn. lia. }
    rewrite running_run by done. cbn [fst snd].
    do 3 (split; [by destruct start|]).
    split; [by destruct start|].
    do 6 (split; [by destruct start|]).
    fold el. unfold CSS.dispatch, CSS.at_element. css_eval.
    by destruct start.
Qed.

Lemma CSS_completes_on_transitionend_scenario_A :
  let running := CSS.running Cases.eased Cases.page 1000 (Some 1016%float) in
  let ended := CSS.ended Cases.eased Cases.page 1000 (Some 1016%float) in
  CSS.dispatch (CSS.from_child "transitionend" 1 0) running = running
  ∧ CSS.completions (CSS.history running.2)
    = CSS.completions (CSS.history Cases.page)
  ∧ CSS.completions (CSS.history ended.2)
    = S (CSS.completions (CSS.history Cases.page))
  ∧ FLIP.first_ (CSS.flip ended.1) = FLIP.zero_snapshot
  ∧ FLIP.last_ (CSS.flip ended.1) = FLIP.zero_snapshot
  ∧ FLIP.invert_ (CSS.flip ended.1) = Some FLIP.identity_delta
  ∧ FLIP.start_ (CSS.flip ended.1) = 1016%float
  ∧ FLIP.element_ (CSS.flip ended.1) = 0
  ∧ FLIP.duration_ (CSS.flip ended.1) = 330%float
  ∧ FLIP.delay_ (CSS.flip ended.1) = 0%float
  ∧ FLIP.updateTransform_ (CSS.flip ended.1) = true
  ∧ FLIP.updateOpacity_ (CSS.flip ended.1) = true
  ∧ CSS.easing_ ended.1 = CSS.Value (VString "ease-in-out")
  ∧ CSS.dispatch (CSS.at_element "transitionend" 0) ended = ended.
Proof.
  apply (CSS_completes_on_transitionend Cases.eased Cases.page 1000%float
           (Some 1016%float) Cases.delta 1);
    try reflexivity; discriminate.
Defined.

(** X18: for the same helper, after the animation of the CSS player has
    ended, the listener of [transitioncancel] is still registered (and so
    is the listener of [transitionstart], if the browser has not dispatched
    that event).  A later [transitioncancel] event at the element runs the
    clean-up again: [flipComplete] is dispatched a second time, and only
    then is the listener removed. *)
Theorem CSS_cancel_after_end_completes_again (o : CSS.This) (w : CSS.World)
    (time : float) (start : option float) (prior : InvertDelta) :
  CSS.typeof (CSS.easing_ o) ≠ "function" →
  FLIP.invert_ (CSS.flip o) = Some prior →
  CSS.listeners w = [] →
  CSS.scheduled w = 0 →
  let el := FLIP.element_ (CSS.flip o) in
  let ended := CSS.ended o w time start in
  let cancelled := CSS.dispatch (CSS.at_element "transitioncancel" el) ended in
  let unstarted :=
    match start with
    | Some _ => []
    | None => ["transitionstart"]
    end in
  CSS.type <$> CSS.listeners ended.2 = unstarted ++ ["transitioncancel"]
  ∧ CSS.completions (CSS.history ended.2)
    = S (CSS.completions (CSS.history w))
  ∧ CSS.completions (CSS.history cancelled.2)
    = S (S (CSS.completions (CSS.history w)))
  ∧ CSS.type <$> CSS.listeners cancelled.2 = unstarted.
Proof.
  intros He Hi Hl Hn el ended cancelled unstarted.
  subst ended cancelled unstarted.
  assert (CSS.completions (CSS.history (CSS.ended o w time start).2)
          = S (CSS.completions (CSS.history w))) as Hended.
  { rewrite (ended_run o w time start prior) by done. css_eval.
    rewrite running_run by done. css_eval.
    rewrite !CSS_completions_app.
    unfold CSS.play_calls, CSS.begin_calls, CSS.cleanup_calls.
    destruct start, (FLIP.updateTransform_ _), (FLIP.updateOpacity_ _);
      cbn; lia. }
  rewrite <- Hended.
  rewrite (ended_run o w time start prior) by done. fold el.
  split; [by destruct start|]. split; [done|].
  unfold CSS.dispatch, CSS.at_element. css_eval.
  destruct start as [t|]; cbn [app];
    cbn [List.filter CSS.listens CSS.type CSS.on CSS.event_type
         CSS.path existsb String.eqb Ascii.eqb Bool.eqb andb orb];
    rewrite Nat.eqb_refl; cbn [andb orb foldl];
    (rewrite registered_elem_of
       by (css_eval; rewrite !elem_of_cons; auto));
    (rewrite (call_proxy_cleanup _ _ _ _ FLIP.identity_delta) by done);
    css_eval; cbn [List.filter CSS.proxy CSS.on CSS.type];
    rewrite ?Nat.eqb_refl;
    try replace (CSS.created w =? S (S (CSS.created w))) with false
      by (symmetry; apply Nat.eqb_neq; lia);
    cbn [negb app]; (split; [|reflexivity]);
    rewrite !CSS_completions_app; unfold CSS.cleanup_calls; cbn; lia.
Qed.

Lemma CSS_cancel_after_end_completes_again_scenario_A :
  let ended := CSS.ended Cases.eased Cases.page 1000 (Some 1016%float) in
  let cancelled := CSS.dispatch (CSS.at_element "transitioncancel" 0) ended in
  CSS.type <$> CSS.listeners ended.2 = [] ++ ["transitioncancel"]
  ∧ CSS.completions (CSS.history ended.2)
    = S (CSS.completions (CSS.history Cases.page))
  ∧ CSS.completions (CSS.history cancelled.2)
    = S (S (CSS.completions (CSS.history Cases.page)))
  ∧ CSS.type <$> CSS.listeners cancelled.2 = [].
Proof.
  apply (CSS_cancel_after_end_completes_again Cases.eased Cases.page
           1000%float (Some 1016%float) Cases.delta);
    try reflexivity; discriminate.
Defined.

Lemma constructor_easing_ (statics : Statics) (options : Config.Options)
    (o : Instance) :
  FLIP.constructor statics options = Ok o →
  FLIP.resolve_easing (default (VFunction (λ t, t)) (Config.easing options))
  = Ok (FLIP.easing_ o).
Proof.
  unfold FLIP.constructor.
  destruct (Config.element options); [|done].
  destruct (FLIP.resolve_easing _) as [easing|]; [|done].
  destruct (FLIP.players_ statics) as [registry|]; [|done].
  destruct (FLIP.lookup registry _); [|done].
  by intros [= <-].
Qed.

(** X19: the CSS player plays a helper built by the constructor only if
    the helper was configured with an easing object whose [getRatio] is
    defined and is not a function: on the default easing and on every
    easing function [play_] throws, leaving the helper and the page as
    they were, and the constructor has rejected every other value (a
    string or an array of control points among them).  The helper is seen
    through any view that agrees with the class on [typeof this.easing_]. *)
Theorem CSS_play__needs_getRatio (statics : Statics)
    (options : Config.Options) (o : CSS.This) (w : CSS.World) :
  FLIP.constructor statics options = Ok (CSS.flip o) →
  CSS.typeof (CSS.easing_ o) = JS.typeof (FLIP.easing_ (CSS.flip o)) →
  CSS.play_ (o, w)
  = (Throw (Error "The CSS player does not support passing easing as a function. Expected a string or an array of cubic-bezier control points."),
     (o, w))
  ∨ (CSS.play_ (o, w)).1 = Ok tt
    ∧ ∃ props,
        Config.easing options = Some (VObject props)
        ∧ FLIP.easing_ (CSS.flip o) = JS.assoc props "getRatio".
Proof.
  intros Ho Ht. apply constructor_easing_ in Ho.
  destruct (String.eqb_spec (JS.typeof (FLIP.easing_ (CSS.flip o)))
              "function") as [Hf|Hf].
  - left. unfold CSS.play_. rewrite bind_run.
    cbn [CSS.this fst snd]. rewrite Ht, Hf. reflexivity.
  - right. split.
    + rewrite CSS_play__run; [done|by rewrite Ht].
    + unfold FLIP.resolve_easing in Ho.
      destruct (String.eqb_spec
                  (JS.typeof (default (VFunction (λ t, t))
                                (Config.easing options))) "function")
        as [Hd|Hd].
      { injection Ho as Ho. by rewrite Ho in Hd. }
      destruct (Config.easing options) as [[| | | | | |props]|];
        simpl in *; try done.
      exists props. split; [done|].
      destruct (JS.assoc props "getRatio"); simpl in Ho; congruence.
Qed.

Lemma CSS_play__needs_getRatio_default_easing :
  CSS.play_ (CSS.of_instance Scenario.fresh, Cases.page)
  = (Throw (Error "The CSS player does not support passing easing as a function. Expected a string or an array of cubic-bezier control points."),
     (CSS.of_instance Scenario.fresh, Cases.page))
  ∨ (CSS.play_ (CSS.of_instance Scenario.fresh, Cases.page)).1 = Ok tt
    ∧ ∃ props,
        Config.easing (Scenario.options 0) = Some (VObject props)
        ∧ FLIP.easing_ (CSS.flip (CSS.of_instance Scenario.fresh))
          = JS.assoc props "getRatio".
Proof.
  apply (CSS_play__needs_getRatio Scenario.statics (Scenario.options 0)
           (CSS.of_instance Scenario.fresh) Cases.page); reflexivity.
Defined.

(** ** The GSAP demo *)

Lemma GSAP_play__run (o : Instance) (w : World) (startTime : option float) :
  GSAP.play_ startTime (o, w)
  = if Host.hasTweenMax w then
      (Ok tt,
       (o,
        Host.records
          [ NewTween TweenMax (FLIP.element_ o) (FLIP.duration_ o / 1000)
              {| Host.ease := FLIP.easing_ o;
                 Host.onComplete := Bound_cleanUpAndFireEvent_;
                 Host.scaleX :=
                   if FLIP.updateTransform_ o then Some 1 else None;
                 Host.scaleY :=
                   if FLIP.updateTransform_ o then Some 1 else None;
                 Host.x := if FLIP.updateTransform_ o then Some 0 else None;
                 Host.y := if FLIP.updateTransform_ o then Some 0 else None;
                 Host.opacity :=
                   if FLIP.updateOpacity_ o
                   then Some (FLIP.opacity (FLIP.last_ o)) else None |};
            TweenStartTime
              (match startTime with
               | Some time => if JS.truthy time then time else Host.now w
               | None => Host.now w
               end / 1000 + FLIP.delay_ o / 1000) ]%float
          w))
    else (Throw (ReferenceError "TweenMax is not defined"), (o, w)).
Proof.
  unfold GSAP.play_, mbind, M_bind, FLIP.performance_now, GSAP.global,
    FLIP.this, FLIP.host; simpl.
  destruct (Host.hasTweenMax w); [|done].
  simpl. unfold Host.record. by rewrite records_records.
Qed.

Lemma constructor_run (statics : Statics) (options : Config.Options)
    (el : elem) (easing : Val) (player : Entry) :
  Config.element options = Some el →
  FLIP.resolve_easing (default (VFunction (λ t, t)) (Config.easing options))
  = Ok easing →
  Run.find statics (default "rAF" (Config.play options)) = Some player →
  FLIP.constructor statics options
  = Ok {| FLIP.element_ := el;
          FLIP.first_ := FLIP.zero_snapshot;
          FLIP.last_ := FLIP.zero_snapshot;
          FLIP.invert_ := Some FLIP.identity_delta;
          FLIP.start_ := 0;
          FLIP.duration_ := default 330%float (Config.duration options);
          FLIP.delay_ := default 0%float (Config.delay options);
          FLIP.easing_ := easing;
          FLIP.updateTransform_ := default true (Config.transform options);
          FLIP.updateOpacity_ := default true (Config.opacity options);
          FLIP.bound := FLIP.bind_all player |}.
Proof.
  intros Hel He Hp. unfold FLIP.constructor, Run.find in *.
  rewrite Hel, He.
  destruct (FLIP.players_ statics) as [registry|]; [|done].
  simpl in Hp. by rewrite Hp.
Qed.

Lemma invert_both (o : Instance) (w : World) (f l : DOMRect)
    (prior : InvertDelta) :
  FLIP.layout (FLIP.first_ o) = Some f →
  FLIP.layout (FLIP.last_ o) = Some l →
  FLIP.invert_ o = Some prior →
  FLIP.updateTransform_ o = true →
  FLIP.updateOpacity_ o = true →
  let delta :=
    Snap.delta f l (FLIP.opacity (FLIP.first_ o))
      (FLIP.opacity (FLIP.last_ o)) in
  FLIP.invert (o, w)
  = (Ok tt,
     (FLIP.set_invert_ (Some delta) o,
      Host.records
        [ StyleSet (FLIP.element_ o) "transformOrigin" (SVString "0 0");
          StyleSet (FLIP.element_ o) "transform"
            (SVTransform (FLIP.x delta) (FLIP.y delta)
               (FLIP.sx delta) (FLIP.sy delta));
          StyleSet (FLIP.element_ o) "opacity"
            (SVNumber (FLIP.opacity (FLIP.first_ o)));
          StyleSet (FLIP.element_ o) "willChange"
            (SVString "transform,opacity") ]
        w)).
Proof.
  intros Hf Hl Hi Ht Ho delta.
  unfold FLIP.invert, mbind, M_bind, FLIP.this; simpl.
  rewrite Hf, Hl, Hi, Ht, Ho. simpl.
  unfold FLIP.host, Host.record; simpl. by rewrite !records_records.
Qed.

Section DemoPage.

Variable boundingClientRect : list Call → elem → DOMRect.
Variable computedOpacity : list Call → elem → float.

(** X20: a click on the target of the GSAP demo, on a page where FLIP
    has the GSAP player registered and [Bounce.easeOut] is an ease object
    with a [getRatio] function.  The element is measured, given the class
    [end], measured again and inverted; the helper keeps the two snapshots
    and their delta, a duration of 2000 and [getRatio] as its easing.  If
    [TweenMax] is defined, a tween of 2 seconds to the identity transform
    and the last opacity is created with the completion routine as
    [onComplete], starting at the time of the click; if it is not, the
    handler throws a [ReferenceError] and leaves the element inverted. *)
Theorem demo_click_inverts_then_tweens (statics : Statics) (target : elem)
    (Bounce_easeOut : Val) (ratio : float → float) (w : World) :
  Run.find statics "GSAP" = Some (Registered GSAP.player) →
  JS.typeof Bounce_easeOut ≠ "function" →
  JS.get Bounce_easeOut "getRatio" = inr (VFunction ratio) →
  let measured :=
    [ GetBoundingClientRect target; GetComputedStyle target;
      ClassListAdd target "end";
      GetBoundingClientRect target; GetComputedStyle target ] in
  let f := Snap.taken boundingClientRect computedOpacity (Host.history w)
             target in
  let l := Snap.taken boundingClientRect computedOpacity
             (Host.history w
              ++ [ GetBoundingClientRect target; GetComputedStyle target;
                   ClassListAdd target "end" ]) target in
  let delta :=
    Snap.delta (boundingClientRect (Host.history w) target)
      (boundingClientRect
         (Host.history w
          ++ [ GetBoundingClientRect target; GetComputedStyle target;
               ClassListAdd target "end" ]) target)
      (FLIP.opacity f) (FLIP.opacity l) in
  let inverted :=
    [ StyleSet target "transformOrigin" (SVString "0 0");
      StyleSet target "transform"
        (SVTransform (FLIP.x delta) (FLIP.y delta)
           (FLIP.sx delta) (FLIP.sy delta));
      StyleSet target "opacity" (SVNumber (FLIP.opacity f));
      StyleSet target "willChange" (SVString "transform,opacity") ] in
  let tween :=
    [ NewTween TweenMax target 2
        {| Host.ease := VFunction ratio;
           Host.onComplete := Bound_cleanUpAndFireEvent_;
           Host.scaleX := Some 1; Host.scaleY := Some 1;
           Host.x := Some 0; Host.y := Some 0;
           Host.opacity := Some (FLIP.opacity l) |};
      TweenStartTime (Host.now w / 1000 + 0 / 1000) ]%float in
  let flip :=
    {| FLIP.element_ := target; FLIP.first_ := f; FLIP.last_ := l;
       FLIP.invert_ := Some delta; FLIP.start_ := 0;
       FLIP.duration_ := 2000; FLIP.delay_ := 0;
       FLIP.easing_ := VFunction ratio;
       FLIP.updateTransform_ := true; FLIP.updateOpacity_ := true;
       FLIP.bound := GSAP.player |}%float in
  Demo.onclick boundingClientRect computedOpacity statics target
    Bounce_easeOut w
  = if Host.hasTweenMax w
    then (Ok tt, (Some flip, Host.records (measured ++ inverted ++ tween) w))
    else (Throw (ReferenceError "TweenMax is not defined"),
          (Some flip, Host.records (measured ++ inverted) w)).
Proof.
  intros Hfind Hty Hget measured f l delta inverted tween flip.
  unfold Demo.onclick.
  rewrite (constructor_run statics _ target (VFunction ratio)
             (Registered GSAP.player)); [|reflexivity| |exact Hfind].
  2:{ unfold FLIP.resolve_easing, Demo.config; simpl.
      destruct (String.eqb_spec (JS.typeof Bounce_easeOut) "function");
        [done|].
      rewrite Hget. reflexivity. }
  cbn [Demo.config Config.duration Config.delay Config.transform
       Config.opacity default FLIP.bind_all].
  rewrite bind_run, first_run. cbn [fst snd].
  rewrite bind_run, last_run by (by intros ? [= <-]). cbn [fst snd].
  rewrite bind_run.
  erewrite invert_both; [|reflexivity..]. cbn [fst snd].
  erewrite play_guard_is_dead; [|reflexivity].
  cbn [FLIP.set_invert_ FLIP.set_last_ FLIP.set_first_ FLIP.bound].
  change (GSAP.player !! "play_") with (Some GSAP_play_).
  cbn [call]. rewrite GSAP_play__run.
  rewrite !records_records.
  change (Host.hasTweenMax (Host.records _ w)) with (Host.hasTweenMax w).
  subst flip tween inverted delta l f measured.
  unfold Snap.taken, Snap.class_added, Pass.queries.
  cbn [Host.history Host.records FLIP.element_ FLIP.set_first_ FLIP.first_
       FLIP.last_ FLIP.set_last_ FLIP.opacity FLIP.layout app].
  rewrite <- !(assoc_L (++)). cbn [app].
  destruct (Host.hasTweenMax w); reflexivity.
Qed.

End DemoPage.

Lemma demo_click_inverts_then_tweens_scenario_A :
  (Demo.onclick Scenario.boundingClientRect Scenario.computedOpacity
     Scenario.statics 0 Cases.Bounce_easeOut Cases.with_TweenMax).1 = Ok tt.
Proof.
  rewrite (demo_click_inverts_then_tweens
             Scenario.boundingClientRect Scenario.computedOpacity
             Scenario.statics 0 Cases.Bounce_easeOut (λ t, t)
             Cases.with_TweenMax);
    try reflexivity; discriminate.
Defined.

(** ** Inverting a group *)

Lemma invert_ready (o : Instance) (w : World) :
  Inverted.ready o →
  FLIP.invert (o, w)
  = (Ok tt, (Inverted.helper o, Host.records (Inverted.styles o) w)).
Proof.
  intros ([f Hf] & [l Hl] & [prior Hi]).
  unfold Inverted.styles, Inverted.helper.
  unfold FLIP.invert, mbind, M_bind, FLIP.this; simpl.
  rewrite Hf, Hl, Hi.
  destruct (FLIP.updateTransform_ o), (FLIP.updateOpacity_ o); simpl;
    unfold FLIP.host, Host.record; simpl;
    by rewrite ?records_records.
Qed.

Lemma invert_not_ready (o : Instance) (w : World) :
  FLIP.layout (FLIP.first_ o) = None ∨ FLIP.layout (FLIP.last_ o) = None →
  FLIP.invert (o, w) = (Throw (Inverted.missing o), (o, w)).
Proof.
  unfold FLIP.invert, Inverted.missing, mbind, M_bind, FLIP.this; simpl.
  intros [H|H].
  - by rewrite H.
  - rewrite H. by destruct (FLIP.layout (FLIP.first_ o)).
Qed.

Lemma each_invert (flips : list Instance) (index : nat) (w : World) :
  Forall Inverted.ready flips →
  forEach (λ _, FLIP.invert) index flips w
  = (Ok tt,
     (Inverted.helper <$> flips,
      Host.records (flips ≫= Inverted.styles) w)).
Proof.
  revert index w; induction flips as [|o rest IH]; intros index w Hall.
  { simpl. by rewrite records_nil. }
  apply Forall_cons in Hall as [Ho Hall].
  cbn [forEach]. rewrite invert_ready, IH by done.
  by rewrite records_records.
Qed.

(** X21: the group's [invert] inverts the members in order and stops at
    the first member that lacks a snapshot: the members before it are
    inverted and their styles written, that member and the ones after it
    are untouched, and the error is the one that member's [invert()]
    throws.  With no such member, every member is inverted and the call
    returns. *)
Theorem group_invert_stops_at_first_unready (inverted rest : list Instance)
    (unready : Instance) (w : World) :
  Forall Inverted.ready inverted →
  FLIP.layout (FLIP.first_ unready) = None
  ∨ FLIP.layout (FLIP.last_ unready) = None →
  Group.invert (inverted ++ unready :: rest, w)
  = (Throw (Inverted.missing unready),
     ((Inverted.helper <$> inverted) ++ unready :: rest,
      Host.records (inverted ≫= Inverted.styles) w))
  ∧ Group.invert (inverted, w)
    = (Ok tt,
       (Inverted.helper <$> inverted,
        Host.records (inverted ≫= Inverted.styles) w)).
Proof.
  intros Hall Hun. split; [|by apply each_invert].
  unfold Group.invert, Group.each. cbn [fst snd].
  generalize 0 as index. revert w.
  induction inverted as [|o os IH]; intros w index.
  { simpl. rewrite invert_not_ready by done. by rewrite records_nil. }
  apply Forall_cons in Hall as [Ho Hall].
  cbn [forEach app]. rewrite invert_ready by done.
  rewrite IH by done. by rewrite records_records.
Qed.

Lemma group_invert_stops_at_first_unready_scenario :
  Group.invert
    ([Scenario.measured] ++ Scenario.fresh :: [Scenario.member 2],
     Scenario.world)
  = (Throw (Error "You must call first() before invert()"),
     ([Scenario.inverted] ++ Scenario.fresh :: [Scenario.member 2],
      Host.records
        [ StyleSet 0 "transformOrigin" (SVString "0 0");
          StyleSet 0 "transform" (SVTransform (-50) (-50) 0.5 0.5);
          StyleSet 0 "opacity" (SVNumber 1);
          StyleSet 0 "willChange" (SVString "transform,opacity") ]
        Scenario.world))
  ∧ Group.invert ([Scenario.measured], Scenario.world)
    = (Ok tt,
       ([Scenario.inverted],
        Host.records
          [ StyleSet 0 "transformOrigin" (SVString "0 0");
            StyleSet 0 "transform" (SVTransform (-50) (-50) 0.5 0.5);
            StyleSet 0 "opacity" (SVNumber 1);
            StyleSet 0 "willChange" (SVString "transform,opacity") ]
          Scenario.world)).
Proof.
  apply (group_invert_stops_at_first_unready [Scenario.measured]
           [Scenario.member 2] Scenario.fresh Scenario.world).
  - repeat constructor; eexists; reflexivity.
  - left. reflexivity.
Defined.

